(** * Verification of the issue synchronisation engine (scripts/sync_issues)

    A shallow embedding of [models.py], [state.py], [loader.py], [github.py]
    and [sync.py], and the properties of the specification proved (or refuted)
    against it.

    Modelling conventions.
    - A Python [str] is a Rocq [string]; its characters are read as the code
      points 0..255.  On that range the character classes of the marker
      pattern, the ordering used by [sorted] and the escaping of [json.dumps]
      are exactly the ones written below.
    - A [dict] whose iteration order is never observed is a [gmap]; the
      rehearsal client's [_issues], which is iterated, is an association list
      in insertion order.
    - [None] is [option]; an exception is the [Raise] constructor of [result]
      and carries [str(e)].
    - JSON values have no floating point numbers. *)

From Stdlib Require Import NArith ZArith Ascii String List Lia Permutation Sorted DecimalString.
From Stdlib Require ListDec DecimalPos DecimalZ.
From stdpp Require Import base option list gmap strings sorting.
Import ListNotations.

Set Warnings "-register-all".


(* ===================================================================== *)
(** * hashlib.sha256 *)
(* ===================================================================== *)

(** [hashlib.sha256(data).hexdigest()], FIPS 180-4, on 32-bit words kept in
    [N] with the wrap-around written out. *)
Module Sha256.

Local Open Scope N_scope.

Definition mask32 : N := 0xFFFFFFFF.
Definition w32 (x : N) : N := N.land x mask32.
Definition add32 (a b : N) : N := w32 (a + b).
Definition shr (n x : N) : N := N.shiftr x n.
Definition rotr (n x : N) : N := N.lor (N.shiftr x n) (w32 (N.shiftl x (32 - n))).
Definition not32 (x : N) : N := N.lxor x mask32.

Definition Ch (x y z : N) : N := N.lxor (N.land x y) (N.land (not32 x) z).
Definition Maj (x y z : N) : N :=
  N.lxor (N.lxor (N.land x y) (N.land x z)) (N.land y z).
Definition bsig0 (x : N) : N := N.lxor (N.lxor (rotr 2 x) (rotr 13 x)) (rotr 22 x).
Definition bsig1 (x : N) : N := N.lxor (N.lxor (rotr 6 x) (rotr 11 x)) (rotr 25 x).
Definition ssig0 (x : N) : N := N.lxor (N.lxor (rotr 7 x) (rotr 18 x)) (shr 3 x).
Definition ssig1 (x : N) : N := N.lxor (N.lxor (rotr 17 x) (rotr 19 x)) (shr 10 x).

(** The round constants are the first 32 bits of the fractional parts of
    the cube roots of the first 64 primes, the initial hash value those of
    the square roots of the first 8. *)
Definition primes : list N :=
  [2; 3; 5; 7; 11; 13; 17; 19; 23; 29; 31; 37; 41; 43; 47; 53; 59; 61; 67; 71; 73; 79; 83; 89;
   97; 101; 103; 107; 109; 113; 127; 131; 137; 139; 149; 151; 157; 163; 167; 173; 179; 181;
   191; 193; 197; 199; 211; 223; 227; 229; 233; 239; 241; 251; 257; 263; 269; 271; 277; 281;
   283; 293; 307; 311].

(** The integer cube root, one bit at a time from bit [bits - 1] down. *)
Fixpoint cube_root (bits : nat) (n r : N) : N :=
  match bits with
  | O => r
  | S bits' =>
      let r' := N.lor r (N.shiftl 1 (N.of_nat bits')) in
      cube_root bits' n (if r' * r' * r' <=? n then r' else r)
  end.

Definition K : list N :=
  Eval vm_compute in map (fun p => w32 (cube_root 35 (N.shiftl p 96) 0)) primes.

Definition H0 : list N :=
  Eval vm_compute in map (fun p => w32 (N.sqrt (N.shiftl p 64))) (firstn 8 primes).

(** Padding: the byte 0x80, zero bytes up to 56 modulo 64, then the bit
    length on 8 bytes, big endian. *)
Definition be_bytes (count : nat) (x : N) : list N :=
  map (fun i => N.land (N.shiftr x (8 * N.of_nat i)) 0xFF) (rev (seq 0 count)).

Definition pad (msg : list N) : list N :=
  let len := List.length msg in
  let zeros := ((64 - ((len + 9) mod 64)) mod 64)%nat in
  (msg ++ [0x80] ++ repeat 0 zeros ++ be_bytes 8 (8 * N.of_nat len))%list.

Definition word_of_bytes (bs : list N) : N :=
  fold_left (fun acc b => N.lor (N.shiftl acc 8) b) bs 0.

Fixpoint chunks (fuel size : nat) (l : list N) : list (list N) :=
  match fuel with
  | O => []
  | S fuel' =>
      match l with
      | [] => []
      | _ => firstn size l :: chunks fuel' size (skipn size l)
      end
  end.

Definition words_of_block (block : list N) : list N :=
  map word_of_bytes (chunks 16 4 block).

(** The message schedule, most recent word first: [sched] holds
    [W(t-1); W(t-2); ...]. *)
Definition schedule_step (sched : list N) : list N :=
  let w i := nth i sched 0 in
  add32 (add32 (ssig1 (w 1%nat)) (w 6%nat)) (add32 (ssig0 (w 14%nat)) (w 15%nat)) :: sched.

Definition schedule (block_words : list N) : list N :=
  rev (Nat.iter 48 schedule_step (rev block_words)).

Record regs := Regs { ra : N; rb : N; rc : N; rd : N; re : N; rf : N; rg : N; rh : N }.

Definition round (r : regs) (kw : N * N) : regs :=
  let t1 := add32 (add32 (add32 (add32 (rh r) (bsig1 (re r))) (Ch (re r) (rf r) (rg r))) (fst kw)) (snd kw) in
  let t2 := add32 (bsig0 (ra r)) (Maj (ra r) (rb r) (rc r)) in
  Regs (add32 t1 t2) (ra r) (rb r) (rc r) (add32 (rd r) t1) (re r) (rf r) (rg r).

Definition regs_of_list (l : list N) : regs :=
  Regs (nth 0 l 0) (nth 1 l 0) (nth 2 l 0) (nth 3 l 0) (nth 4 l 0) (nth 5 l 0) (nth 6 l 0) (nth 7 l 0).

Definition list_of_regs (r : regs) : list N :=
  [ra r; rb r; rc r; rd r; re r; rf r; rg r; rh r].

Definition compress (h : regs) (block : list N) : regs :=
  let r := fold_left round (combine K (schedule (words_of_block block))) h in
  Regs (add32 (ra h) (ra r)) (add32 (rb h) (rb r)) (add32 (rc h) (rc r)) (add32 (rd h) (rd r))
       (add32 (re h) (re r)) (add32 (rf h) (rf r)) (add32 (rg h) (rg r)) (add32 (rh h) (rh r)).

Definition digest_words (msg : list N) : list N :=
  let padded := pad msg in
  list_of_regs (fold_left compress (chunks (List.length padded) 64 padded) (regs_of_list H0)).

Definition hex_digit (d : N) : ascii :=
  if d <? 10 then ascii_of_N (48 + d) else ascii_of_N (87 + d).

Definition nibble (x : N) (i : nat) : N := N.land (N.shiftr x (4 * N.of_nat i)) 0xF.

Definition hex_word (x : N) : list ascii :=
  map (fun i => hex_digit (nibble x i)) [7; 6; 5; 4; 3; 2; 1; 0]%nat.

Definition bytes_of_string (s : string) : list N := map N_of_ascii (list_ascii_of_string s).

Definition hexdigest (s : string) : string :=
  string_of_list_ascii (concat (map hex_word (digest_words (bytes_of_string s)))).

Example hexdigest_abc :
  hexdigest "abc" = "ba7816bf8f01cfea414140de5dae2223b00361a396177a9cb410ff61f20015ad"%string.
Proof. vm_compute. reflexivity. Qed.

Example hexdigest_empty :
  hexdigest "" = "e3b0c44298fc1c149afbf4c8996fb92427ae41e4649b934ca495991b7852b855"%string.
Proof. vm_compute. reflexivity. Qed.

Example hexdigest_two_blocks :
  hexdigest "aaaaaaaaaaaaaaaaaaaaaaaaaaaaaaaaaaaaaaaaaaaaaaaaaaaaaaaaaaaaaaaaaaaaaaaaaaaaaaaaaaaaaaaaaaaaaaaaaaaa"
  = "2816597888e4a0d3a36b82b83316ab32680eb8f00f8cd3b904d681246d285a0e"%string.
Proof. vm_compute. reflexivity. Qed.

End Sha256.

(* ===================================================================== *)
(** * Python values: exceptions, strings, JSON data *)
(* ===================================================================== *)

(** An exception: its class name and [str(e)]. *)
Record exn := Exn { exn_class : string; exn_msg : string }.

Inductive result (A : Type) : Type :=
| Ok (a : A)
| Raise (e : exn).
Arguments Ok {A} a.
Arguments Raise {A} e.

Definition bind {A B : Type} (r : result A) (k : A -> result B) : result B :=
  match r with
  | Ok a => k a
  | Raise e => Raise e
  end.

Notation "'let!' x ':=' r 'in' k" := (bind r (fun x => k))
  (at level 10, x name, r at level 100, k at level 200).

Definition is_ok {A : Type} (r : result A) : bool :=
  match r with Ok _ => true | Raise _ => false end.

Module Py.

Definition dquote : ascii := "034"%char.
Definition squote : ascii := "039"%char.
Definition backslash : ascii := "092"%char.
Definition newline : ascii := "010"%char.
Definition nl : string := String newline "".

(** [sep.join(l)] *)
Fixpoint join (sep : string) (l : list string) : string :=
  match l with
  | [] => ""
  | x :: rest =>
      match rest with
      | [] => x
      | _ => x +:+ sep +:+ join sep rest
      end
  end.

(** [s.startswith(p)] and [p in s] *)
Definition startswith (p s : string) : bool := String.prefix p s.

Fixpoint contains (sub s : string) : bool :=
  String.prefix sub s ||
  match s with
  | "" => false
  | String _ s' => contains sub s'
  end.

Definition endswith (p s : string) : bool :=
  String.prefix (String.rev p) (String.rev s).

(** [s[:n]] *)
Fixpoint take (n : nat) (s : string) : string :=
  match n, s with
  | S n', String c s' => String c (take n' s')
  | _, _ => ""
  end.

(** [str(n)] for an [int] *)
Definition str_int (z : Z) : string := NilZero.string_of_int (Z.to_int z).

(** [filter(None, l)] on strings: the empty ones are dropped. *)
Definition nonempty (s : string) : bool :=
  match s with "" => false | _ => true end.

Definition filter_none (l : list string) : list string := List.filter nonempty l.

(** [sorted(l)] on strings: the code point order is total and antisymmetric,
    so the result is the one sorted permutation of [l]. *)
Definition sorted (l : list string) : list string := merge_sort String.le l.

(** [s.upper()], [s.lower()] and [s.strip()] on ASCII. *)
Definition upper_char (c : ascii) : ascii :=
  let n := nat_of_ascii c in
  if (97 <=? n)%nat && (n <=? 122)%nat then ascii_of_nat (n - 32) else c.
Definition lower_char (c : ascii) : ascii :=
  let n := nat_of_ascii c in
  if (65 <=? n)%nat && (n <=? 90)%nat then ascii_of_nat (n + 32) else c.
Fixpoint map_chars (f : ascii -> ascii) (s : string) : string :=
  match s with
  | "" => ""
  | String c s' => String (f c) (map_chars f s')
  end.
Definition upper : string -> string := map_chars upper_char.
Definition lower : string -> string := map_chars lower_char.

Definition is_space (c : ascii) : bool :=
  let n := nat_of_ascii c in
  ((9 <=? n)%nat && (n <=? 13)%nat) || ((28 <=? n)%nat && (n <=? 32)%nat).
Fixpoint lstrip (s : string) : string :=
  match s with
  | "" => ""
  | String c s' => if is_space c then lstrip s' else s
  end.
Definition strip (s : string) : string := String.rev (lstrip (String.rev (lstrip s))).

Definition hex2 (n : N) : string :=
  String (Sha256.hex_digit (N.land (N.shiftr n 4) 0xF)) (String (Sha256.hex_digit (N.land n 0xF)) "").

End Py.

(** Data as [json.loads] returns it ([Any] in the annotations of the source):
    [None], [bool], [int], [str], [list] and [dict] with string keys, a
    [dict] in insertion order. *)
Inductive json : Type :=
| JNull
| JBool (b : bool)
| JInt (z : Z)
| JStr (s : string)
| JList (items : list json)
| JDict (items : list (string * json)).

Abbreviation pydict := (list (string * json)).

Module Json.

(** [bool(v)] *)
Definition truthy (v : json) : bool :=
  match v with
  | JNull => false
  | JBool b => b
  | JInt z => negb (Z.eqb z 0)
  | JStr s => Py.nonempty s
  | JList l => match l with [] => false | _ => true end
  | JDict l => match l with [] => false | _ => true end
  end.

(** [d.get(k)] on a dict in insertion order with unique keys. *)
Fixpoint get (k : string) (d : pydict) : option json :=
  match d with
  | [] => None
  | (k', v) :: d' => if String.eqb k k' then Some v else get k d'
  end.

(** The escapes of [json.dumps] with [ensure_ascii=True]: the quote, the
    backslash, the short escapes, and [\u00XX] for every other character
    outside space..tilde. *)
Definition escape_char (c : ascii) : string :=
  let n := N_of_ascii c in
  if Ascii.eqb c Py.dquote then String Py.backslash (String Py.dquote "")
  else if Ascii.eqb c Py.backslash then String Py.backslash (String Py.backslash "")
  else if (n =? 10)%N then String Py.backslash "n"
  else if (n =? 13)%N then String Py.backslash "r"
  else if (n =? 9)%N then String Py.backslash "t"
  else if (n =? 8)%N then String Py.backslash "b"
  else if (n =? 12)%N then String Py.backslash "f"
  else if ((32 <=? n) && (n <=? 126))%N then String c ""
  else String Py.backslash ("u00" +:+ Py.hex2 n).

Fixpoint escape (s : string) : string :=
  match s with
  | "" => ""
  | String c s' => escape_char c +:+ escape s'
  end.

Definition dumps_str (s : string) : string :=
  String Py.dquote (escape s +:+ String Py.dquote "").

(** The order [sort_keys=True] puts the items of a dict in. *)
Definition key_le (a b : string * string) : Prop := String.le (fst a) (fst b).

#[export] Instance key_le_dec : RelDecision key_le.
Proof. intros a b. unfold key_le. apply _. Defined.

Definition sort_items (l : list (string * string)) : list (string * string) :=
  merge_sort key_le l.

(** [json.dumps(v, sort_keys=True, default=str)]: the default separators,
    no float and no value that needs [default]. *)
Fixpoint dumps (v : json) : string :=
  match v with
  | JNull => "null"
  | JBool true => "true"
  | JBool false => "false"
  | JInt z => Py.str_int z
  | JStr s => dumps_str s
  | JList l => "[" +:+ Py.join ", " (List.map dumps l) +:+ "]"
  | JDict l =>
      "{" +:+ Py.join ", "
               (List.map (fun kv => dumps_str (fst kv) +:+ ": " +:+ snd kv)
                  (sort_items (List.map (fun kv => match kv with (k, x) => (k, dumps x) end) l)))
          +:+ "}"
  end.

End Json.

(* ===================================================================== *)
(** * models.py *)
(* ===================================================================== *)

Inductive SyncAction := CREATE | UPDATE | SKIP | CLOSE.

Inductive SyncStatus := PENDING | IN_PROGRESS | COMPLETED | FAILED | SKIPPED.

#[export] Instance SyncAction_eq_dec : EqDecision SyncAction.
Proof. solve_decision. Defined.
#[export] Instance SyncStatus_eq_dec : EqDecision SyncStatus.
Proof. solve_decision. Defined.

Definition SyncAction_value (a : SyncAction) : string :=
  match a with
  | CREATE => "create" | UPDATE => "update" | SKIP => "skip" | CLOSE => "close"
  end.

Definition SyncStatus_value (s : SyncStatus) : string :=
  match s with
  | PENDING => "pending" | IN_PROGRESS => "in_progress" | COMPLETED => "completed"
  | FAILED => "failed" | SKIPPED => "skipped"
  end.

(** The dataclass [Issue].  [type] is a keyword, the field is [type_]. *)
Record Issue := mkIssue {
  id : string;
  title : string;
  type_ : string;
  status : string;
  priority : string;
  labels : list string;
  milestone : string;
  description : string;
  acceptance_criteria : list json;
  epic : option string;
  depends_on : list string;
  blocks : list string;
  user_story : option string;
  technical_context : pydict;
  state_machine : option pydict;
  out_of_scope : list string;
  open_questions : list string;
  estimate : option pydict;
  children : list string;
  goals : list string;
  design_principles : list string;
  visual_mockups : option pydict;
  interaction_patterns : option pydict;
  responsive_behavior : option pydict;
  source_file : option string;
  github_number : option Z
}.

Definition json_opt_str (o : option string) : json :=
  match o with Some s => JStr s | None => JNull end.

Definition json_opt_dict (o : option pydict) : json :=
  match o with Some d => JDict d | None => JNull end.

Definition json_strs (l : list string) : json := JList (List.map JStr l).

Definition _hashable_dict (self : Issue) : json :=
  JDict [ ("id", JStr (id self));
          ("title", JStr (title self));
          ("type", JStr (type_ self));
          ("priority", JStr (priority self));
          ("labels", json_strs (Py.sorted (labels self)));
          ("description", JStr (description self));
          ("acceptance_criteria", JList (acceptance_criteria self));
          ("epic", json_opt_str (epic self));
          ("depends_on", json_strs (Py.sorted (depends_on self)));
          ("user_story", json_opt_str (user_story self));
          ("technical_context", JDict (technical_context self));
          ("state_machine", json_opt_dict (state_machine self));
          ("out_of_scope", json_strs (out_of_scope self));
          ("goals", json_strs (goals self)) ].

(** [hashlib.sha256(normalized.encode()).hexdigest()[:16]]; the dump is
    ASCII, so its encoding is the text itself. *)
Definition content_hash (self : Issue) : string :=
  let normalized := Json.dumps (_hashable_dict self) in
  Py.take 16 (Sha256.hexdigest normalized).

(** [repr(s)] and [str(v)], as an f-string formats a value. *)
Module PyRepr.

Definition quote_of (s : string) : ascii :=
  if Py.contains (String Py.squote "") s && negb (Py.contains (String Py.dquote "") s)
  then Py.dquote else Py.squote.

Definition repr_char (q c : ascii) : string :=
  let n := N_of_ascii c in
  if Ascii.eqb c q || Ascii.eqb c Py.backslash then String Py.backslash (String c "")
  else if (n =? 9)%N then String Py.backslash "t"
  else if (n =? 10)%N then String Py.backslash "n"
  else if (n =? 13)%N then String Py.backslash "r"
  else if ((n <? 32) || (n =? 127) || ((128 <=? n) && (n <=? 160)) || (n =? 173))%N
       then String Py.backslash ("x" +:+ Py.hex2 n)
  else String c "".

Fixpoint repr_chars (q : ascii) (s : string) : string :=
  match s with
  | "" => ""
  | String c s' => repr_char q c +:+ repr_chars q s'
  end.

Definition repr_str (s : string) : string :=
  let q := quote_of s in String q (repr_chars q s +:+ String q "").

Fixpoint repr (v : json) : string :=
  match v with
  | JNull => "None"
  | JBool true => "True"
  | JBool false => "False"
  | JInt z => Py.str_int z
  | JStr s => repr_str s
  | JList l => "[" +:+ Py.join ", " (List.map repr l) +:+ "]"
  | JDict l =>
      "{" +:+ Py.join ", "
                (List.map (fun kv => match kv with (k, x) => repr_str k +:+ ": " +:+ repr x end) l)
          +:+ "}"
  end.

Definition str (v : json) : string :=
  match v with
  | JStr s => s
  | _ => repr v
  end.

End PyRepr.

(** An instant, as [datetime.utcnow()] returns it. *)
Definition datetime := Z.

(** What the engine takes from outside the five modules under study.
    - The four renderers of the rich fields of an issue ([models.py]): they
      format arbitrary JSON data and raise on data of another shape; the
      engine only passes their text through.
    - The clock and the generator of identifiers, read in sequence: the
      [n]-th reading of the run is [utcnow n], respectively [uuid4 n].
    - The ISO 8601 text of an instant and its parser. *)
Class Externals := {
  _acceptance_criteria_section : list json -> result string;
  _state_machine_section : pydict -> result string;
  _technical_context_section : pydict -> result string;
  _visual_mockups_section : pydict -> result string;
  utcnow : nat -> datetime;
  uuid4 : nat -> string;
  isoformat : datetime -> string;
  fromisoformat : string -> result datetime
}.

Definition opt_truthy (o : option string) : bool :=
  match o with Some s => Py.nonempty s | None => false end.

Definition dict_truthy (o : option pydict) : bool :=
  match o with Some (_ :: _) => true | _ => false end.

Definition list_truthy {A : Type} (l : list A) : bool :=
  match l with [] => false | _ => true end.

Definition dict_items (o : option pydict) : pydict :=
  match o with Some d => d | None => [] end.

Definition hash_marker (h : string) : string := "*Content Hash: `" +:+ h +:+ "`*".

Definition _header (self : Issue) : string :=
  let parts := ["**" +:+ id self +:+ "**"] in
  let parts := if opt_truthy (epic self)
               then parts ++ ["Epic: " +:+ default "" (epic self)] else parts in
  let parts := if dict_truthy (estimate self)
               then parts ++ ["Estimate: " +:+
                                match Json.get "points" (dict_items (estimate self)) with
                                | Some v => PyRepr.str v
                                | None => "?"
                                end +:+ " pts"]
               else parts in
  Py.join " | " parts.

Definition _body (self : Issue) : string :=
  let lines := [] in
  let lines := if list_truthy (goals self)
               then lines ++ ["### Goals" +:+ Py.nl] ++ List.map (fun g => "- " +:+ g) (goals self) ++ [""]
               else lines in
  let lines := lines ++ [description self] in
  Py.join Py.nl lines.

Definition _user_story_section (self : Issue) : string :=
  "### User Story" +:+ Py.nl +:+ Py.nl +:+ "> " +:+ default "" (user_story self).

Definition _out_of_scope_section (self : Issue) : string :=
  Py.join Py.nl (["### Out of Scope" +:+ Py.nl] ++ List.map (fun item => "- " +:+ item) (out_of_scope self)).

Definition _open_questions_section (self : Issue) : string :=
  Py.join Py.nl (["### Open Questions" +:+ Py.nl] ++ List.map (fun q => "- [ ] " +:+ q) (open_questions self)).

Definition _metadata_section (self : Issue) : string :=
  let lines := ["---";
                match source_file self with
                | Some f => "*Source: `" +:+ f +:+ "`*"
                | None => ""
                end] in
  let lines := lines ++ [hash_marker (content_hash self)] in
  Py.join Py.nl (Py.filter_none lines).

Section Rendering.
Context {ext : Externals}.

(** One optional section of [to_markdown]: appended when its field is
    truthy; rendering it may raise. *)
Definition append_if (cond : bool) (section : result string) (sections : list string)
  : result (list string) :=
  if cond then (let! s := section in Ok (sections ++ [s])) else Ok sections.

Definition to_markdown (self : Issue) : result string :=
  let sections := [_header self; _body self] in
  let! sections := append_if (opt_truthy (user_story self)) (Ok (_user_story_section self)) sections in
  let! sections := append_if (list_truthy (acceptance_criteria self))
                     (_acceptance_criteria_section (acceptance_criteria self)) sections in
  let! sections := append_if (dict_truthy (state_machine self))
                     (_state_machine_section (dict_items (state_machine self))) sections in
  let! sections := append_if (list_truthy (technical_context self))
                     (_technical_context_section (technical_context self)) sections in
  let! sections := append_if (dict_truthy (visual_mockups self))
                     (_visual_mockups_section (dict_items (visual_mockups self))) sections in
  let! sections := append_if (list_truthy (out_of_scope self)) (Ok (_out_of_scope_section self)) sections in
  let! sections := append_if (list_truthy (open_questions self)) (Ok (_open_questions_section self)) sections in
  let sections := sections ++ [_metadata_section self] in
  Ok (Py.join (Py.nl +:+ Py.nl) (Py.filter_none sections)).

End Rendering.

(** The dataclasses [SyncRecord] and [SyncState]. *)
Module SyncRecord.
Record t := mk {
  issue_id : string;
  action : SyncAction;
  status : SyncStatus;
  github_number : option Z;
  content_hash : option string;
  error : option string;
  timestamp : datetime
}.
End SyncRecord.

Module SyncState.
Record t := mk {
  run_id : string;
  started_at : datetime;
  completed_at : option datetime;
  records : gmap string SyncRecord.t
}.

Definition is_completed (self : t) (issue_id : string) : bool :=
  match records self !! issue_id with
  | Some record => bool_decide (SyncRecord.status record = COMPLETED)
  | None => false
  end.

Definition needs_sync (self : t) (issue : Issue) : bool :=
  match records self !! id issue with
  | None => true
  | Some record =>
      if negb (bool_decide (SyncRecord.status record = COMPLETED)) then true
      else negb (bool_decide (SyncRecord.content_hash record = Some (content_hash issue)))
  end.
End SyncState.

(** Subscripting and [.get] on loaded JSON data, with the exceptions of
    Python: [KeyError] carries the [repr] of the key. *)
Definition KeyError (k : string) : exn := Exn "KeyError" (PyRepr.repr_str k).
Definition TypeError (what : string) : exn := Exn "TypeError" what.
Definition ValueError (what : string) : exn := Exn "ValueError" what.
Definition AttributeError (what : string) : exn := Exn "AttributeError" what.

Definition getitem (data : json) (k : string) : result json :=
  match data with
  | JDict d => match Json.get k d with Some v => Ok v | None => Raise (KeyError k) end
  | _ => Raise (TypeError "object is not subscriptable with a string key")
  end.

Definition dict_get (data : json) (k : string) : result (option json) :=
  match data with
  | JDict d => Ok (Json.get k d)
  | _ => Raise (AttributeError "object has no attribute 'get'")
  end.

(** The fields of the two dataclasses hold values of their annotated types;
    data of another type, which Python would store as it is, is outside the
    model and reported as a [TypeError]. *)
Definition as_str (v : json) : result string :=
  match v with JStr s => Ok s | _ => Raise (TypeError "expected str") end.

Definition as_opt_str (v : option json) : result (option string) :=
  match v with
  | None | Some JNull => Ok None
  | Some (JStr s) => Ok (Some s)
  | _ => Raise (TypeError "expected str or None")
  end.

Definition as_opt_int (v : option json) : result (option Z) :=
  match v with
  | None | Some JNull => Ok None
  | Some (JInt z) => Ok (Some z)
  | _ => Raise (TypeError "expected int or None")
  end.

Definition SyncAction_of_value (v : json) : result SyncAction :=
  match v with
  | JStr "create" => Ok CREATE
  | JStr "update" => Ok UPDATE
  | JStr "skip" => Ok SKIP
  | JStr "close" => Ok CLOSE
  | _ => Raise (ValueError (PyRepr.repr v +:+ " is not a valid SyncAction"))
  end.

Definition SyncStatus_of_value (v : json) : result SyncStatus :=
  match v with
  | JStr "pending" => Ok PENDING
  | JStr "in_progress" => Ok IN_PROGRESS
  | JStr "completed" => Ok COMPLETED
  | JStr "failed" => Ok FAILED
  | JStr "skipped" => Ok SKIPPED
  | _ => Raise (ValueError (PyRepr.repr v +:+ " is not a valid SyncStatus"))
  end.

Definition json_opt_int (o : option Z) : json :=
  match o with Some z => JInt z | None => JNull end.

Section Persistence.
Context {ext : Externals}.

Definition SyncRecord_to_dict (self : SyncRecord.t) : json :=
  JDict [ ("issue_id", JStr (SyncRecord.issue_id self));
          ("action", JStr (SyncAction_value (SyncRecord.action self)));
          ("status", JStr (SyncStatus_value (SyncRecord.status self)));
          ("github_number", json_opt_int (SyncRecord.github_number self));
          ("content_hash", json_opt_str (SyncRecord.content_hash self));
          ("error", json_opt_str (SyncRecord.error self));
          ("timestamp", JStr (isoformat (SyncRecord.timestamp self))) ].

Definition SyncRecord_from_dict (data : json) : result SyncRecord.t :=
  let! v := getitem data "issue_id" in
  let! issue_id := as_str v in
  let! v := getitem data "action" in
  let! action := SyncAction_of_value v in
  let! v := getitem data "status" in
  let! status := SyncStatus_of_value v in
  let! v := dict_get data "github_number" in
  let! github_number := as_opt_int v in
  let! v := dict_get data "content_hash" in
  let! content_hash := as_opt_str v in
  let! v := dict_get data "error" in
  let! error := as_opt_str v in
  let! v := getitem data "timestamp" in
  let! text := as_str v in
  let! timestamp := fromisoformat text in
  Ok (SyncRecord.mk issue_id action status github_number content_hash error timestamp).

(** The keys of the saved [records] object are written in the order of the
    map, which is not the insertion order of the Python [dict]; no reader
    depends on it. *)
Definition SyncState_to_dict (self : SyncState.t) : json :=
  JDict [ ("run_id", JStr (SyncState.run_id self));
          ("started_at", JStr (isoformat (SyncState.started_at self)));
          ("completed_at", match SyncState.completed_at self with
                           | Some d => JStr (isoformat d)
                           | None => JNull
                           end);
          ("records", JDict (List.map (fun kv => (fst kv, SyncRecord_to_dict (snd kv)))
                               (map_to_list (SyncState.records self)))) ].

Definition records_from_items (items : pydict) : result (gmap string SyncRecord.t) :=
  fold_left (fun acc kv =>
               let! records := acc in
               let! record := SyncRecord_from_dict (snd kv) in
               Ok (<[fst kv := record]> records))
            items (Ok ∅).

Definition SyncState_from_dict (data : json) : result SyncState.t :=
  let! v := getitem data "run_id" in
  let! run_id := as_str v in
  let! v := getitem data "started_at" in
  let! text := as_str v in
  let! started_at := fromisoformat text in
  let! v := dict_get data "completed_at" in
  let! completed_at :=
    match v with
    | Some c => if Json.truthy c
                then (let! text := as_str c in let! d := fromisoformat text in Ok (Some d))
                else Ok None
    | None => Ok None
    end in
  let! v := dict_get data "records" in
  let! records :=
    match v with
    | None => Ok ∅
    | Some (JDict items) => records_from_items items
    | Some _ => Raise (AttributeError "object has no attribute 'items'")
    end in
  Ok (SyncState.mk run_id started_at completed_at records).

End Persistence.

(* ===================================================================== *)
(** * state.py *)
(* ===================================================================== *)

(** Code that mutates an object and may raise: the object is threaded
    through, and is returned also when the call raises. *)
Definition M (S A : Type) : Type := S -> S * result A.

Definition ret {S A : Type} (a : A) : M S A := fun s => (s, Ok a).
Definition raise {S A : Type} (e : exn) : M S A := fun s => (s, Raise e).
Definition bindM {S A B : Type} (c : M S A) (k : A -> M S B) : M S B :=
  fun s => match c s with
           | (s', Ok a) => k a s'
           | (s', Raise e) => (s', Raise e)
           end.
Definition lift_result {S A : Type} (r : result A) : M S A := fun s => (s, r).
Definition get_ {S : Type} : M S S := fun s => (s, Ok s).
Definition modify {S : Type} (f : S -> S) : M S unit := fun s => (f s, Ok tt).

(** [try: body / except Exception as e: handler(e); raise] *)
Definition try_reraise {S A : Type} (body : M S A) (handler : exn -> M S unit) : M S A :=
  fun s => match body s with
           | (s', Ok a) => (s', Ok a)
           | (s', Raise e) =>
               match handler e s' with
               | (s'', Ok _) => (s'', Raise e)
               | (s'', Raise e') => (s'', Raise e')
               end
           end.

Notation "'do!' x ':=' c 'in' k" := (bindM c (fun x => k))
  (at level 10, x name, c at level 100, k at level 200).
Notation "c1 ';;' c2" := (bindM c1 (fun _ => c2))
  (at level 100, c2 at level 200, right associativity).

(** [for x in l: body(x)] *)
Fixpoint for_each {S A : Type} (l : list A) (body : A -> M S unit) : M S unit :=
  match l with
  | [] => ret tt
  | x :: rest => body x ;; for_each rest body
  end.

(** What [state_file.exists()] and [json.loads(state_file.read_text())]
    find: no file, a text that [json.loads] rejects with the exception [e],
    or a text that it parses to [data]. *)
Inductive state_file :=
| Absent
| Unparseable (e : exn)
| Parsed (data : json).

Module StateManager.
Record t := mk {
  file : state_file;
  _state : option SyncState.t;
  (** how many times the clock and the identifier generator were read *)
  ticks : nat
}.
End StateManager.

Section State.
Context {ext : Externals}.

Definition tick : M StateManager.t nat :=
  fun self => (StateManager.mk (StateManager.file self) (StateManager._state self)
                 (S (StateManager.ticks self)),
               Ok (StateManager.ticks self)).

Definition fresh_state (n : nat) : SyncState.t :=
  SyncState.mk (Py.take 8 (uuid4 n)) (utcnow n) None ∅.

Definition _load_or_create : M StateManager.t SyncState.t :=
  do! self := get_ in
  match StateManager.file self with
  | Absent => do! n := tick in ret (fresh_state n)
  | Unparseable e => raise e
  | Parsed data => lift_result (SyncState_from_dict data)
  end.

Definition set_state (s : SyncState.t) : M StateManager.t unit :=
  modify (fun self => StateManager.mk (StateManager.file self) (Some s) (StateManager.ticks self)).

(** The property [state]: loaded on first use. *)
Definition state : M StateManager.t SyncState.t :=
  do! self := get_ in
  match StateManager._state self with
  | Some s => ret s
  | None => do! s := _load_or_create in set_state s ;; ret s
  end.

Definition save : M StateManager.t unit :=
  do! s := state in
  modify (fun self => StateManager.mk (Parsed (SyncState_to_dict s)) (StateManager._state self)
                        (StateManager.ticks self)).

Definition reset : M StateManager.t unit :=
  modify (fun self => StateManager.mk Absent None (StateManager.ticks self)).

Definition start_new_run : M StateManager.t string :=
  do! n := tick in
  set_state (fresh_state n) ;;
  save ;;
  do! s := state in
  ret (SyncState.run_id s).

Definition set_records (s : SyncState.t) (r : gmap string SyncRecord.t) : SyncState.t :=
  SyncState.mk (SyncState.run_id s) (SyncState.started_at s) (SyncState.completed_at s) r.

Definition mark_started (issue_id : string) (action : SyncAction) : M StateManager.t unit :=
  do! n := tick in
  let record := SyncRecord.mk issue_id action IN_PROGRESS None None None (utcnow n) in
  do! s := state in
  set_state (set_records s (<[issue_id := record]> (SyncState.records s))) ;;
  save.

Definition mark_completed (issue_id : string) (github_number : Z) (content_hash : string)
  : M StateManager.t unit :=
  do! s := state in
  match SyncState.records s !! issue_id with
  | Some record =>
      do! n := tick in
      let record := SyncRecord.mk (SyncRecord.issue_id record) (SyncRecord.action record)
                      COMPLETED (Some github_number) (Some content_hash)
                      (SyncRecord.error record) (utcnow n) in
      set_state (set_records s (<[issue_id := record]> (SyncState.records s)))
  | None => ret tt
  end ;;
  save.

Definition mark_failed (issue_id : string) (error : string) : M StateManager.t unit :=
  do! s := state in
  match SyncState.records s !! issue_id with
  | Some record =>
      do! n := tick in
      let record := SyncRecord.mk (SyncRecord.issue_id record) (SyncRecord.action record)
                      FAILED (SyncRecord.github_number record) (SyncRecord.content_hash record)
                      (Some error) (utcnow n) in
      set_state (set_records s (<[issue_id := record]> (SyncState.records s)))
  | None => ret tt
  end ;;
  save.

Definition mark_skipped (issue_id : string) (github_number : option Z) : M StateManager.t unit :=
  do! s := state in
  match SyncState.records s !! issue_id with
  | Some record =>
      do! n := tick in
      let record := SyncRecord.mk (SyncRecord.issue_id record) (SyncRecord.action record)
                      SKIPPED github_number (SyncRecord.content_hash record)
                      (SyncRecord.error record) (utcnow n) in
      set_state (set_records s (<[issue_id := record]> (SyncState.records s)))
  | None => ret tt
  end ;;
  save.

Definition mark_run_completed : M StateManager.t unit :=
  do! s := state in
  do! n := tick in
  set_state (SyncState.mk (SyncState.run_id s) (SyncState.started_at s) (Some (utcnow n))
               (SyncState.records s)) ;;
  save.

Definition is_completed (issue_id : string) : M StateManager.t bool :=
  do! s := state in ret (SyncState.is_completed s issue_id).

Definition needs_sync (issue : Issue) : M StateManager.t bool :=
  do! s := state in ret (SyncState.needs_sync s issue).

Definition get_github_number (issue_id : string) : M StateManager.t (option Z) :=
  do! s := state in
  ret (match SyncState.records s !! issue_id with
       | Some record => SyncRecord.github_number record
       | None => None
       end).

Definition count_status (st : SyncStatus) (s : SyncState.t) : nat :=
  List.length (List.filter (fun kv => bool_decide (SyncRecord.status (snd kv) = st))
                 (map_to_list (SyncState.records s))).

Definition pending_count : M StateManager.t nat :=
  do! s := state in ret (count_status PENDING s).

Definition completed_count : M StateManager.t nat :=
  do! s := state in ret (count_status COMPLETED s).

Definition failed_count : M StateManager.t nat :=
  do! s := state in ret (count_status FAILED s).

(** [summary()]: the number of records per status, in the order of the enum. *)
Definition summary : M StateManager.t (list (string * nat)) :=
  do! s := state in
  ret (List.map (fun st => (SyncStatus_value st, count_status st s))
         [PENDING; IN_PROGRESS; COMPLETED; FAILED; SKIPPED]).

End State.

(* ===================================================================== *)
(** * loader.py *)
(* ===================================================================== *)

Module LabelDef.
Record t := mk { name : string; color : string; description : string }.
End LabelDef.

Module MilestoneDef.
Record t := mk { title : string; description : string }.
End MilestoneDef.

(** The loader, by what its three readers of the issues directory return
    (or raise). *)
Module IssueLoader.
Record t := mk {
  load_all_issues : result (list Issue);
  load_labels : result (list LabelDef.t);
  load_milestones : result (list MilestoneDef.t)
}.
End IssueLoader.

(** [{i.id: i for i in issues}]: the last issue of an id wins. *)
Definition by_id_of (issues : list Issue) : gmap string Issue :=
  fold_left (fun m i => <[id i := i]> m) issues ∅.

Abbreviation visit_state := (gset string * list Issue)%type.

(** The inner function [visit] of [topological_sort], with [visited] and
    [result] threaded through.  [depth] bounds the depth of the recursion;
    [None] is a recursion that needs more. *)
Fixpoint visit (depth : nat) (by_id : gmap string Issue) (issue_id : string) (st : visit_state)
  : option visit_state :=
  match depth with
  | O => None
  | S depth' =>
      if decide (issue_id ∈ st.1) then Some st
      else
        let visited := {[issue_id]} ∪ st.1 in
        match by_id !! issue_id with
        | None => Some (visited, st.2)
        | Some issue =>
            match fold_left (fun acc dep_id => match acc with
                                               | Some st' => visit depth' by_id dep_id st'
                                               | None => None
                                               end)
                    (depends_on issue) (Some (visited, st.2)) with
            | None => None
            | Some st1 =>
                match (if opt_truthy (epic issue)
                       then visit depth' by_id (default "" (epic issue)) st1
                       else Some st1) with
                | None => None
                | Some st2 => Some (st2.1, st2.2 ++ [issue])
                end
            end
        end
  end.

Definition visit_all (depth : nat) (by_id : gmap string Issue) (ids : list string) (st : visit_state)
  : option visit_state :=
  fold_left (fun acc issue_id => match acc with
                                 | Some st' => visit depth by_id issue_id st'
                                 | None => None
                                 end) ids (Some st).

Definition topological_sort_depth (depth : nat) (issues : list Issue) : option (list Issue) :=
  match visit_all depth (by_id_of issues) (List.map id issues) (∅, []) with
  | Some st => Some st.2
  | None => None
  end.

(** [IssueLoader.topological_sort]: a chain of recursive calls enters a
    different loaded issue at each level, so [length issues + 1] levels are
    enough (lemma [topological_sort_depth_enough]). *)
Definition topological_sort (issues : list Issue) : list Issue :=
  default [] (topological_sort_depth (S (List.length issues)) issues).

Module IssueIndex.
Record t := mk {
  _by_id : gmap string Issue;
  _by_title : gmap string Issue;
  _children : gmap string (list string)
}.

Definition _normalize_title (title : string) : string := Py.strip (Py.lower title).

Definition init (issues : list Issue) : t :=
  fold_left
    (fun self issue =>
       mk (_by_id self)
          (<[_normalize_title (title issue) := issue]> (_by_title self))
          (if opt_truthy (epic issue)
           then <[default "" (epic issue) :=
                    default [] (_children self !! default "" (epic issue)) ++ [id issue]]>
                  (_children self)
           else _children self))
    issues (mk (by_id_of issues) ∅ ∅).

Definition get (self : t) (issue_id : string) : option Issue := _by_id self !! issue_id.

Definition find_by_title (self : t) (title : string) : option Issue :=
  _by_title self !! _normalize_title title.

Definition children_of (self : t) (epic_id : string) : list Issue :=
  omap (fun cid => _by_id self !! cid) (default [] (_children self !! epic_id)).

Definition all_ids (self : t) : gset string := dom (_by_id self).

(** [__len__] *)
Definition len (self : t) : nat := size (_by_id self).
End IssueIndex.

(* ===================================================================== *)
(** * github.py *)
(* ===================================================================== *)

Module GitHubIssue.
Record t := mk {
  number : Z;
  title : string;
  body : string;
  state : string;
  labels : list string;
  milestone_number : option Z
}.
End GitHubIssue.

Module GitHubMilestone.
Record t := mk { number : Z; title : string; state : string }.
End GitHubMilestone.

Module GitHubLabel.
Record t := mk { name : string; color : string; description : string }.
End GitHubLabel.

Definition GitHubError (message : string) : exn := Exn "GitHubError" message.

(** The operations of a tracker client that the engine calls.  [GitHubClient]
    (HTTP) and [DryRunClient] are the two implementations in the source; a
    listing is taken as a whole, it returns all its items or raises. *)
Class Client (C : Type) := {
  list_milestones : M C (list GitHubMilestone.t);
  list_labels : M C (list GitHubLabel.t);
  list_issues : M C (list GitHubIssue.t);
  create_label : string -> string -> string -> M C GitHubLabel.t;
  create_milestone : string -> string -> M C GitHubMilestone.t;
  create_issue : string -> string -> list string -> option Z -> M C GitHubIssue.t;
  update_issue : Z -> option string -> option string -> option (list string) -> option Z
                 -> option string -> M C GitHubIssue.t
}.

(** [d[k] = v] on a dict in insertion order: an existing key keeps its
    place. *)
Fixpoint dict_set {K V : Type} `{EqDecision K} (k : K) (v : V) (d : list (K * V)) : list (K * V) :=
  match d with
  | [] => [(k, v)]
  | (k', v') :: d' => if decide (k = k') then (k, v) :: d' else (k', v') :: dict_set k v d'
  end.

Fixpoint dict_lookup {K V : Type} `{EqDecision K} (k : K) (d : list (K * V)) : option V :=
  match d with
  | [] => None
  | (k', v') :: d' => if decide (k = k') then Some v' else dict_lookup k d'
  end.

Module DryRunClient.
Record t := mk {
  owner : string;
  repo : string;
  _issue_counter : Z;
  _milestone_counter : Z;
  _issues : list (Z * GitHubIssue.t);
  _milestones : list (string * GitHubMilestone.t);
  _labels : list (string * GitHubLabel.t)
}.

Definition init (owner repo : string) : t := mk owner repo 1000 100 [] [] [].

Definition get_issue (number : Z) : M t (option GitHubIssue.t) :=
  fun self => (self, Ok (dict_lookup number (_issues self))).

Definition list_issues : M t (list GitHubIssue.t) :=
  fun self => (self, Ok (List.map snd (_issues self))).

Definition create_issue (title body : string) (labels : list string) (milestone : option Z)
  : M t GitHubIssue.t :=
  fun self =>
    let counter := (_issue_counter self + 1)%Z in
    let issue := GitHubIssue.mk counter title body "open" labels milestone in
    (mk (owner self) (repo self) counter (_milestone_counter self)
        (dict_set (GitHubIssue.number issue) issue (_issues self))
        (_milestones self) (_labels self),
     Ok issue).

Definition update_issue (number : Z) (title body : option string) (labels : option (list string))
    (milestone : option Z) (state : option string) : M t GitHubIssue.t :=
  fun self =>
    match dict_lookup number (_issues self) with
    | None => (self, Raise (GitHubError ("Issue " +:+ Py.str_int number +:+ " not found")))
    | Some existing =>
        let issue := GitHubIssue.mk number
                       (default (GitHubIssue.title existing) title)
                       (default (GitHubIssue.body existing) body)
                       (default (GitHubIssue.state existing) state)
                       (default (GitHubIssue.labels existing) labels)
                       (match milestone with
                        | Some m => Some m
                        | None => GitHubIssue.milestone_number existing
                        end) in
        (mk (owner self) (repo self) (_issue_counter self) (_milestone_counter self)
            (dict_set number issue (_issues self)) (_milestones self) (_labels self),
         Ok issue)
    end.

Definition list_milestones : M t (list GitHubMilestone.t) :=
  fun self => (self, Ok (List.map snd (_milestones self))).

Definition create_milestone (title description : string) : M t GitHubMilestone.t :=
  fun self =>
    let counter := (_milestone_counter self + 1)%Z in
    let milestone := GitHubMilestone.mk counter title "open" in
    (mk (owner self) (repo self) (_issue_counter self) counter (_issues self)
        (dict_set title milestone (_milestones self)) (_labels self),
     Ok milestone).

Definition list_labels : M t (list GitHubLabel.t) :=
  fun self => (self, Ok (List.map snd (_labels self))).

Definition create_label (name color description : string) : M t GitHubLabel.t :=
  fun self =>
    let label := GitHubLabel.mk name color description in
    (mk (owner self) (repo self) (_issue_counter self) (_milestone_counter self) (_issues self)
        (_milestones self) (dict_set name label (_labels self)),
     Ok label).

Definition update_label (name : string) (color description : option string) : M t GitHubLabel.t :=
  fun self =>
    match dict_lookup name (_labels self) with
    | None => (self, Raise (GitHubError ("Label " +:+ name +:+ " not found")))
    | Some existing =>
        let label := GitHubLabel.mk name (default (GitHubLabel.color existing) color)
                       (default (GitHubLabel.description existing) description) in
        (mk (owner self) (repo self) (_issue_counter self) (_milestone_counter self) (_issues self)
            (_milestones self) (dict_set name label (_labels self)),
         Ok label)
    end.
End DryRunClient.

#[export] Instance DryRunClient_Client : Client DryRunClient.t := {
  list_milestones := DryRunClient.list_milestones;
  list_labels := DryRunClient.list_labels;
  list_issues := DryRunClient.list_issues;
  create_label := DryRunClient.create_label;
  create_milestone := DryRunClient.create_milestone;
  create_issue := DryRunClient.create_issue;
  update_issue := DryRunClient.update_issue
}.

(* ===================================================================== *)
(** * sync.py *)
(* ===================================================================== *)

(** [ISSUE_ID_PATTERN.search(body)] for the pattern
    [\*\*([A-Z]+-\d+)\*\*]: the leftmost match, its group 1.  After the
    letters only a hyphen can follow and after the digits only a star, so
    the greedy reading is the only one to try at a position. *)
Module IssuePattern.

Definition is_upper (c : ascii) : bool :=
  let n := nat_of_ascii c in (65 <=? n)%nat && (n <=? 90)%nat.
Definition is_digit (c : ascii) : bool :=
  let n := nat_of_ascii c in (48 <=? n)%nat && (n <=? 57)%nat.

Fixpoint span (p : ascii -> bool) (s : string) : string * string :=
  match s with
  | "" => ("", "")
  | String c s' => if p c then let r := span p s' in (String c r.1, r.2) else ("", s)
  end.

Definition match_here (s : string) : option string :=
  match s with
  | String "*" (String "*" s1) =>
      let letters := span is_upper s1 in
      if Py.nonempty letters.1 then
        match letters.2 with
        | String "-" s3 =>
            let digits := span is_digit s3 in
            if Py.nonempty digits.1 && Py.startswith "**" digits.2
            then Some (letters.1 +:+ "-" +:+ digits.1)
            else None
        | _ => None
        end
      else None
  | _ => None
  end.

Fixpoint search (s : string) : option string :=
  match match_here s with
  | Some g => Some g
  | None =>
      match s with
      | "" => None
      | String _ s' => search s'
      end
  end.

End IssuePattern.

Module SyncPlan.
Record t := mk {
  creates : list Issue;
  updates : list (Issue * Z);
  skips : list (Issue * Z)
}.
Definition empty : t := mk [] [] [].
Definition total (self : t) : nat :=
  List.length (creates self) + List.length (updates self) + List.length (skips self).
Definition actions_needed (self : t) : nat :=
  List.length (creates self) + List.length (updates self).
End SyncPlan.

(** What the engine does to its collaborators, in order: every call of the
    tracker client and of the state store is recorded when it is made,
    whether it returns or raises.  The console output is not modelled. *)
Inductive event :=
| EvListMilestones
| EvListLabels
| EvListIssues
| EvCreateLabel (name color description : string)
| EvCreateMilestone (title description : string)
| EvCreateIssue (title body : string) (labels : list string) (milestone : option Z)
| EvUpdateIssue (number : Z) (title body : string) (labels : list string) (milestone : option Z)
| EvMarkStarted (issue_id : string) (action : SyncAction)
| EvMarkCompleted (issue_id : string) (github_number : Z) (content_hash : string)
| EvMarkFailed (issue_id : string) (error : string)
| EvMarkSkipped (issue_id : string) (github_number : Z)
| EvNeedsSync (issue : Issue)
| EvMarkRunCompleted
| EvSummary.

Module IssueSyncer.
Record t (C : Type) := mk {
  client : C;
  loader : IssueLoader.t;
  state : StateManager.t;
  _milestones : gmap string Z;
  _labels : gset string;
  _existing_issues : gmap string (Z * string);
  trace : list event
}.
Arguments mk {C}.
Arguments client {C}.
Arguments loader {C}.
Arguments state {C}.
Arguments _milestones {C}.
Arguments _labels {C}.
Arguments _existing_issues {C}.
Arguments trace {C}.

Definition init {C : Type} (client : C) (loader : IssueLoader.t) (state : StateManager.t) : t C :=
  mk client loader state ∅ ∅ ∅ [].
End IssueSyncer.

Section Sync.
Context {ext : Externals} {C : Type} {cli : Client C}.

Local Abbreviation syncer := (IssueSyncer.t C).

Definition record (e : event) : M syncer unit :=
  modify (fun self => IssueSyncer.mk (IssueSyncer.client self) (IssueSyncer.loader self)
                        (IssueSyncer.state self) (IssueSyncer._milestones self)
                        (IssueSyncer._labels self) (IssueSyncer._existing_issues self)
                        (IssueSyncer.trace self ++ [e])).

(** [self.client.method(...)] and [self.state.method(...)] *)
Definition call_client {A : Type} (e : event) (op : M C A) : M syncer A :=
  record e ;;
  fun self =>
    let r := op (IssueSyncer.client self) in
    (IssueSyncer.mk r.1 (IssueSyncer.loader self) (IssueSyncer.state self)
       (IssueSyncer._milestones self) (IssueSyncer._labels self)
       (IssueSyncer._existing_issues self) (IssueSyncer.trace self),
     r.2).

Definition call_state {A : Type} (e : event) (op : M StateManager.t A) : M syncer A :=
  record e ;;
  fun self =>
    let r := op (IssueSyncer.state self) in
    (IssueSyncer.mk (IssueSyncer.client self) (IssueSyncer.loader self) r.1
       (IssueSyncer._milestones self) (IssueSyncer._labels self)
       (IssueSyncer._existing_issues self) (IssueSyncer.trace self),
     r.2).

Definition set_milestone (title : string) (number : Z) : M syncer unit :=
  modify (fun self => IssueSyncer.mk (IssueSyncer.client self) (IssueSyncer.loader self)
                        (IssueSyncer.state self) (<[title := number]> (IssueSyncer._milestones self))
                        (IssueSyncer._labels self) (IssueSyncer._existing_issues self)
                        (IssueSyncer.trace self)).

Definition add_label (name : string) : M syncer unit :=
  modify (fun self => IssueSyncer.mk (IssueSyncer.client self) (IssueSyncer.loader self)
                        (IssueSyncer.state self) (IssueSyncer._milestones self)
                        ({[name]} ∪ IssueSyncer._labels self) (IssueSyncer._existing_issues self)
                        (IssueSyncer.trace self)).

Definition set_existing (issue_id : string) (number : Z) (body : string) : M syncer unit :=
  modify (fun self => IssueSyncer.mk (IssueSyncer.client self) (IssueSyncer.loader self)
                        (IssueSyncer.state self) (IssueSyncer._milestones self)
                        (IssueSyncer._labels self)
                        (<[issue_id := (number, body)]> (IssueSyncer._existing_issues self))
                        (IssueSyncer.trace self)).

Definition _load_github_state : M syncer unit :=
  do! milestones := call_client EvListMilestones list_milestones in
  for_each milestones
    (fun milestone => set_milestone (GitHubMilestone.title milestone) (GitHubMilestone.number milestone)) ;;
  do! labels := call_client EvListLabels list_labels in
  for_each labels (fun label => add_label (GitHubLabel.name label)) ;;
  do! issues := call_client EvListIssues list_issues in
  for_each issues
    (fun gh_issue =>
       match IssuePattern.search (GitHubIssue.body gh_issue) with
       | Some issue_id => set_existing issue_id (GitHubIssue.number gh_issue) (GitHubIssue.body gh_issue)
       | None => ret tt
       end).

Definition _build_index (issues : list Issue) : IssueIndex.t := IssueIndex.init issues.

Definition hash_needle (h : string) : string := "Content Hash: `" +:+ h +:+ "`".

Definition _content_changed (issue : Issue) (existing_body : string) : M syncer bool :=
  let current_hash := content_hash issue in
  if Py.contains (hash_needle current_hash) existing_body then ret false
  else call_state (EvNeedsSync issue) (needs_sync issue).

Definition plan_step (force : bool) (plan : SyncPlan.t) (issue : Issue) : M syncer SyncPlan.t :=
  do! self := get_ in
  match IssueSyncer._existing_issues self !! id issue with
  | None => ret (SyncPlan.mk (SyncPlan.creates plan ++ [issue]) (SyncPlan.updates plan)
                   (SyncPlan.skips plan))
  | Some existing =>
      do! changed := (if force then ret true else _content_changed issue existing.2) in
      if changed
      then ret (SyncPlan.mk (SyncPlan.creates plan) (SyncPlan.updates plan ++ [(issue, existing.1)])
                  (SyncPlan.skips plan))
      else ret (SyncPlan.mk (SyncPlan.creates plan) (SyncPlan.updates plan)
                  (SyncPlan.skips plan ++ [(issue, existing.1)]))
  end.

Fixpoint build_plan_from (force : bool) (plan : SyncPlan.t) (issues : list Issue)
  : M syncer SyncPlan.t :=
  match issues with
  | [] => ret plan
  | issue :: rest => do! plan := plan_step force plan issue in build_plan_from force plan rest
  end.

Definition _build_plan (issues : list Issue) (force : bool) : M syncer SyncPlan.t :=
  build_plan_from force SyncPlan.empty issues.

Definition _ensure_labels : M syncer unit :=
  do! self := get_ in
  do! defined := lift_result (IssueLoader.load_labels (IssueSyncer.loader self)) in
  for_each defined
    (fun label_def =>
       do! self := get_ in
       if decide (LabelDef.name label_def ∈ IssueSyncer._labels self) then ret tt
       else
         call_client (EvCreateLabel (LabelDef.name label_def) (LabelDef.color label_def)
                        (LabelDef.description label_def))
           (create_label (LabelDef.name label_def) (LabelDef.color label_def)
              (LabelDef.description label_def)) ;;
         add_label (LabelDef.name label_def)).

Definition _ensure_milestones : M syncer unit :=
  do! self := get_ in
  do! defined := lift_result (IssueLoader.load_milestones (IssueSyncer.loader self)) in
  for_each defined
    (fun ms_def =>
       do! self := get_ in
       match IssueSyncer._milestones self !! MilestoneDef.title ms_def with
       | Some _ => ret tt
       | None =>
           do! milestone := call_client (EvCreateMilestone (MilestoneDef.title ms_def)
                                           (MilestoneDef.description ms_def))
                              (create_milestone (MilestoneDef.title ms_def)
                                 (MilestoneDef.description ms_def)) in
           set_milestone (MilestoneDef.title ms_def) (GitHubMilestone.number milestone)
       end).

Definition _resolve_labels (self : syncer) (issue : Issue) : list string :=
  List.filter (fun lbl => bool_decide (lbl ∈ IssueSyncer._labels self)) (labels issue).

Definition _render_issue_refs (self : syncer) (label : string) (issue_ids : list string) : string :=
  let refs := List.map (fun issue_id =>
                          match IssueSyncer._existing_issues self !! issue_id with
                          | Some existing => "#" +:+ Py.str_int existing.1
                          | None => "`" +:+ issue_id +:+ "`"
                          end) issue_ids in
  "**" +:+ label +:+ ":** " +:+ Py.join ", " refs.

Definition _render_body (self : syncer) (issue : Issue) (index : IssueIndex.t) : result string :=
  let! body := to_markdown issue in
  let body := if list_truthy (depends_on issue)
              then _render_issue_refs self "Depends On" (depends_on issue) +:+ Py.nl +:+ Py.nl +:+ body
              else body in
  let body := if list_truthy (blocks issue)
              then _render_issue_refs self "Blocks" (blocks issue) +:+ Py.nl +:+ Py.nl +:+ body
              else body in
  let body := if list_truthy (children issue)
              then body +:+ Py.nl +:+ Py.nl +:+ _render_issue_refs self "Child Issues" (children issue)
              else body in
  Ok body.

Definition issue_title (issue : Issue) : string :=
  "[" +:+ Py.upper (type_ issue) +:+ "] " +:+ title issue.

Definition _create_issue (issue : Issue) (index : IssueIndex.t) : M syncer unit :=
  call_state (EvMarkStarted (id issue) CREATE) (mark_started (id issue) CREATE) ;;
  try_reraise
    (do! self := get_ in
     let labels := _resolve_labels self issue in
     let milestone := IssueSyncer._milestones self !! milestone issue in
     do! body := lift_result (_render_body self issue index) in
     do! gh_issue := call_client (EvCreateIssue (issue_title issue) body labels milestone)
                       (create_issue (issue_title issue) body labels milestone) in
     set_existing (id issue) (GitHubIssue.number gh_issue) (GitHubIssue.body gh_issue) ;;
     call_state (EvMarkCompleted (id issue) (GitHubIssue.number gh_issue) (content_hash issue))
       (mark_completed (id issue) (GitHubIssue.number gh_issue) (content_hash issue)))
    (fun e => call_state (EvMarkFailed (id issue) (exn_msg e)) (mark_failed (id issue) (exn_msg e))).

Definition _update_issue (issue : Issue) (number : Z) (index : IssueIndex.t) : M syncer unit :=
  call_state (EvMarkStarted (id issue) UPDATE) (mark_started (id issue) UPDATE) ;;
  try_reraise
    (do! self := get_ in
     let labels := _resolve_labels self issue in
     let milestone := IssueSyncer._milestones self !! milestone issue in
     do! body := lift_result (_render_body self issue index) in
     do! gh_issue := call_client (EvUpdateIssue number (issue_title issue) body labels milestone)
                       (update_issue number (Some (issue_title issue)) (Some body) (Some labels)
                          milestone None) in
     set_existing (id issue) (GitHubIssue.number gh_issue) (GitHubIssue.body gh_issue) ;;
     call_state (EvMarkCompleted (id issue) (GitHubIssue.number gh_issue) (content_hash issue))
       (mark_completed (id issue) (GitHubIssue.number gh_issue) (content_hash issue)))
    (fun e => call_state (EvMarkFailed (id issue) (exn_msg e)) (mark_failed (id issue) (exn_msg e))).

(** The body of the loop over [plan.skips]. *)
Definition execute_skip (issue : Issue) (number : Z) : M syncer unit :=
  call_state (EvMarkStarted (id issue) SKIP) (mark_started (id issue) SKIP) ;;
  call_state (EvMarkSkipped (id issue) number) (mark_skipped (id issue) (Some number)).

Definition _execute_plan (plan : SyncPlan.t) (index : IssueIndex.t) : M syncer unit :=
  for_each (SyncPlan.creates plan) (fun issue => _create_issue issue index) ;;
  for_each (SyncPlan.updates plan) (fun '(issue, number) => _update_issue issue number index) ;;
  for_each (SyncPlan.skips plan) (fun '(issue, number) => execute_skip issue number).

Definition sync (force : bool) : M syncer (list (string * nat)) :=
  _load_github_state ;;
  do! self := get_ in
  do! issues := lift_result (IssueLoader.load_all_issues (IssueSyncer.loader self)) in
  let index := _build_index issues in
  let ordered := topological_sort issues in
  do! plan := _build_plan ordered force in
  if (SyncPlan.actions_needed plan =? 0)%nat then call_state EvSummary summary
  else
    _ensure_labels ;;
    _ensure_milestones ;;
    _execute_plan plan index ;;
    call_state EvMarkRunCompleted mark_run_completed ;;
    call_state EvSummary summary.

End Sync.

(* ===================================================================== *)
(** * Vocabulary of the statements *)
(* ===================================================================== *)

(** Stand-ins for the externals, used to run the model on concrete inputs:
    a clock that counts its readings, one identifier, and renderers that
    return a heading. *)
Definition ext0 : Externals := {|
  _acceptance_criteria_section := fun _ => Ok "### Acceptance Criteria";
  _state_machine_section := fun _ => Ok "### State Machine";
  _technical_context_section := fun _ => Ok "### Technical Context";
  _visual_mockups_section := fun _ => Ok "### Visual Mockups";
  utcnow := fun n => Z.of_nat n;
  uuid4 := fun n => "0123456789abcdef";
  isoformat := fun d => Py.str_int d;
  fromisoformat := fun s => Ok 0%Z
|}.

(** An issue with the given id, dependencies, epic and children, and
    nothing else of note. *)
Definition plain_issue (i : string) (deps : list string) (ep : option string) (ch : list string)
  : Issue :=
  mkIssue i "T" "story" "open" "high" [] "" "d" [] ep deps [] None [] None [] [] None ch [] []
    None None None None None.

Definition no_state_file : StateManager.t := StateManager.mk Absent None 0.

(** The state store holds the loaded state [s]. *)
Definition loaded (m : StateManager.t) (s : SyncState.t) : Prop := StateManager._state m = Some s.

(** The status of the record of [issue_id] in the loaded state. *)
Definition status_of (m : StateManager.t) (issue_id : string) : option SyncStatus :=
  match StateManager._state m with
  | Some s => SyncRecord.status <$> (SyncState.records s !! issue_id)
  | None => None
  end.

Definition terminal (st : SyncStatus) : bool :=
  match st with
  | COMPLETED | FAILED | SKIPPED => true
  | PENDING | IN_PROGRESS => false
  end.

Definition is_terminal (o : option SyncStatus) : bool :=
  match o with Some st => terminal st | None => false end.

(** [record = records.get(issue_id); if record: ...]: the record, when there
    is one, is replaced by its update. *)
Definition update_record (s : SyncState.t) (issue_id : string) (f : SyncRecord.t -> SyncRecord.t)
  : SyncState.t :=
  match SyncState.records s !! issue_id with
  | Some r => set_records s (<[issue_id := f r]> (SyncState.records s))
  | None => s
  end.

Definition ticked (m : StateManager.t) : StateManager.t :=
  StateManager.mk (StateManager.file m) None (S (StateManager.ticks m)).

Section StateVocabulary.
Context {ext : Externals}.

(** The store after [save()] with the state [s]. *)
Definition stored (m : StateManager.t) (s : SyncState.t) : StateManager.t :=
  StateManager.mk (Parsed (SyncState_to_dict s)) (Some s) (StateManager.ticks m).

Definition started_record (issue_id : string) (action : SyncAction) (n : nat) : SyncRecord.t :=
  SyncRecord.mk issue_id action IN_PROGRESS None None None (utcnow n).

Definition completed_record (r : SyncRecord.t) (number : Z) (h : string) (n : nat) : SyncRecord.t :=
  SyncRecord.mk (SyncRecord.issue_id r) (SyncRecord.action r) COMPLETED (Some number) (Some h)
    (SyncRecord.error r) (utcnow n).

Definition failed_record (r : SyncRecord.t) (error : string) (n : nat) : SyncRecord.t :=
  SyncRecord.mk (SyncRecord.issue_id r) (SyncRecord.action r) FAILED (SyncRecord.github_number r)
    (SyncRecord.content_hash r) (Some error) (utcnow n).

Definition skipped_record (r : SyncRecord.t) (number : option Z) (n : nat) : SyncRecord.t :=
  SyncRecord.mk (SyncRecord.issue_id r) (SyncRecord.action r) SKIPPED number
    (SyncRecord.content_hash r) (SyncRecord.error r) (utcnow n).

Definition after_update (m : StateManager.t) (s : SyncState.t) (issue_id : string)
    (f : SyncRecord.t -> SyncRecord.t) : StateManager.t :=
  match SyncState.records s !! issue_id with
  | Some _ => stored (ticked m) (update_record s issue_id f)
  | None => stored m s
  end.

End StateVocabulary.

Definition with_labels (i : Issue) (l : list string) : Issue :=
  mkIssue (id i) (title i) (type_ i) (status i) (priority i) l (milestone i) (description i)
    (acceptance_criteria i) (epic i) (depends_on i) (blocks i) (user_story i)
    (technical_context i) (state_machine i) (out_of_scope i) (open_questions i) (estimate i)
    (children i) (goals i) (design_principles i) (visual_mockups i) (interaction_patterns i)
    (responsive_behavior i) (source_file i) (github_number i).

Definition with_status (i : Issue) (s : string) : Issue :=
  mkIssue (id i) (title i) (type_ i) s (priority i) (labels i) (milestone i) (description i)
    (acceptance_criteria i) (epic i) (depends_on i) (blocks i) (user_story i)
    (technical_context i) (state_machine i) (out_of_scope i) (open_questions i) (estimate i)
    (children i) (goals i) (design_principles i) (visual_mockups i) (interaction_patterns i)
    (responsive_behavior i) (source_file i) (github_number i).

Definition with_estimate (i : Issue) (e : option pydict) : Issue :=
  mkIssue (id i) (title i) (type_ i) (status i) (priority i) (labels i) (milestone i)
    (description i) (acceptance_criteria i) (epic i) (depends_on i) (blocks i) (user_story i)
    (technical_context i) (state_machine i) (out_of_scope i) (open_questions i) e
    (children i) (goals i) (design_principles i) (visual_mockups i) (interaction_patterns i)
    (responsive_behavior i) (source_file i) (github_number i).

Definition with_description (i : Issue) (d : string) : Issue :=
  mkIssue (id i) (title i) (type_ i) (status i) (priority i) (labels i) (milestone i) d
    (acceptance_criteria i) (epic i) (depends_on i) (blocks i) (user_story i)
    (technical_context i) (state_machine i) (out_of_scope i) (open_questions i) (estimate i)
    (children i) (goals i) (design_principles i) (visual_mockups i) (interaction_patterns i)
    (responsive_behavior i) (source_file i) (github_number i).

(** The text that [content_hash] hashes. *)
Definition normalized (i : Issue) : string := Json.dumps (_hashable_dict i).

Definition is_hex_char (c : ascii) : bool :=
  let n := nat_of_ascii c in
  ((48 <=? n)%nat && (n <=? 57)%nat) || ((97 <=? n)%nat && (n <=? 102)%nat).

Fixpoint all_chars (p : ascii -> bool) (s : string) : bool :=
  match s with
  | "" => true
  | String c s' => p c && all_chars p s'
  end.


(** The first and the last line of a text. *)
Fixpoint first_line (s : string) : string :=
  match s with
  | "" => ""
  | String c s' => if Ascii.eqb c Py.newline then "" else String c (first_line s')
  end.

Definition last_line (s : string) : string := String.rev (first_line (String.rev s)).

Definition no_files : IssueLoader.t := IssueLoader.mk (Ok []) (Ok []) (Ok []).

(** A syncer as [IssueSyncer.__init__] leaves it, on a new rehearsal
    client and without state file. *)
Definition new_syncer (loader : IssueLoader.t) : IssueSyncer.t DryRunClient.t :=
  IssueSyncer.init (DryRunClient.init "owner" "repo") loader no_state_file.

Definition story_with_links : Issue := plain_issue "STORY-1" ["EPIC-1"] None ["TASK-2"].
Definition lone_epic : Issue := plain_issue "EPIC-1" [] None [].

Definition body_of (r : result string) : string :=
  match r with Ok b => b | Raise _ => "" end.

(** The ids an issue is ordered after: its [depends_on], then its epic when
    it has one. *)
Definition deps (i : Issue) : list string :=
  depends_on i ++ (if opt_truthy (epic i) then [default "" (epic i)] else []).

(** [x] is a loaded issue that names [y] among its dependencies. *)
Definition edge (by_id : gmap string Issue) (x y : string) : Prop :=
  exists i, by_id !! x = Some i /\ y ∈ deps i.

Definition acyclic (by_id : gmap string Issue) : Prop := forall x, ~ tc (edge by_id) x x.

(** Every issue of [l] comes after the loaded issues it depends on. *)
Definition ordered (by_id : gmap string Issue) (l : list Issue) : Prop :=
  forall before j after x jx,
    l = before ++ j :: after -> x ∈ deps j -> by_id !! x = Some jx -> jx ∈ before.

(** What holds of [visited] and [result] between two calls of [visit]. *)
Definition visit_inv (by_id : gmap string Issue) (st : visit_state) : Prop :=
  (forall i, i ∈ st.2 -> by_id !! id i = Some i) /\
  NoDup (id <$> st.2) /\
  (forall i, i ∈ st.2 -> id i ∈ st.1).

(** A loaded issue that is visited and not yet in the result: its call of
    [visit] is running. *)
Definition gray (by_id : gmap string Issue) (st : visit_state) (x : string) : Prop :=
  x ∈ st.1 /\ is_Some (by_id !! x) /\ x ∉ id <$> st.2.

Definition visit_step (by_id : gmap string Issue) (st st' : visit_state) : Prop :=
  st.1 ⊆ st'.1 /\ (exists new, st'.2 = st.2 ++ new) /\ visit_inv by_id st' /\
  (forall x, gray by_id st' x <-> gray by_id st x).

(** The three ways a plan grows by one issue. *)
Definition add_create (plan : SyncPlan.t) (issue : Issue) : SyncPlan.t :=
  SyncPlan.mk (SyncPlan.creates plan ++ [issue]) (SyncPlan.updates plan) (SyncPlan.skips plan).
Definition add_update (plan : SyncPlan.t) (issue : Issue) (n : Z) : SyncPlan.t :=
  SyncPlan.mk (SyncPlan.creates plan) (SyncPlan.updates plan ++ [(issue, n)]) (SyncPlan.skips plan).
Definition add_skip (plan : SyncPlan.t) (issue : Issue) (n : Z) : SyncPlan.t :=
  SyncPlan.mk (SyncPlan.creates plan) (SyncPlan.updates plan) (SyncPlan.skips plan ++ [(issue, n)]).

(** The syncer with another state store and more events in its trace. *)
Definition with_state {C : Type} (self : IssueSyncer.t C) (m : StateManager.t) (events : list event)
  : IssueSyncer.t C :=
  IssueSyncer.mk (IssueSyncer.client self) (IssueSyncer.loader self) m
    (IssueSyncer._milestones self) (IssueSyncer._labels self) (IssueSyncer._existing_issues self)
    (IssueSyncer.trace self ++ events).

(** The plan does not create or update [issue]. *)
Definition not_acted_on (plan : SyncPlan.t) (issue : Issue) : Prop :=
  issue ∉ SyncPlan.creates plan /\ forall n, (issue, n) ∉ SyncPlan.updates plan.

(** A syncer that knows [lone_epic] as the remote issue 1001, with the body
    a create renders for it, and has no state file. *)
Definition syncer_with_epic : IssueSyncer.t DryRunClient.t :=
  IssueSyncer.mk (DryRunClient.init "owner" "repo") no_files no_state_file ∅ ∅
    {[ "EPIC-1" := (1001%Z,
                    body_of (@_render_body ext0 _ (new_syncer no_files) lone_epic
                               (IssueIndex.init [lone_epic]))) ]}
    [].

(** The syncer after a call of the client that left it as [c], and after
    [_existing_issues[issue_id] = (number, body)]. *)
Definition with_client {C : Type} (self : IssueSyncer.t C) (c : C) (events : list event)
  : IssueSyncer.t C :=
  IssueSyncer.mk c (IssueSyncer.loader self) (IssueSyncer.state self)
    (IssueSyncer._milestones self) (IssueSyncer._labels self) (IssueSyncer._existing_issues self)
    (IssueSyncer.trace self ++ events).

Definition with_existing {C : Type} (self : IssueSyncer.t C) (issue_id : string) (number : Z)
    (body : string) : IssueSyncer.t C :=
  IssueSyncer.mk (IssueSyncer.client self) (IssueSyncer.loader self) (IssueSyncer.state self)
    (IssueSyncer._milestones self) (IssueSyncer._labels self)
    (<[issue_id := (number, body)]> (IssueSyncer._existing_issues self))
    (IssueSyncer.trace self).

Section ExecutionVocabulary.
Context {ext : Externals} {C : Type} {cli : Client C}.

(** The [except] clause of [_create_issue] and [_update_issue]. *)
Definition on_failure (issue : Issue) (e : exn) (self : IssueSyncer.t C)
  : IssueSyncer.t C * result unit :=
  let r := mark_failed (id issue) (exn_msg e) (IssueSyncer.state self) in
  (with_state self r.1 [EvMarkFailed (id issue) (exn_msg e)],
   match r.2 with Ok _ => Raise e | Raise e' => Raise e' end).

(** What follows a remote call that returned [gh_issue]. *)
Definition on_success (issue : Issue) (gh_issue : GitHubIssue.t) (self : IssueSyncer.t C)
  : IssueSyncer.t C * result unit :=
  let s3 := with_existing self (id issue) (GitHubIssue.number gh_issue)
              (GitHubIssue.body gh_issue) in
  let r := mark_completed (id issue) (GitHubIssue.number gh_issue) (content_hash issue)
             (IssueSyncer.state s3) in
  let s4 := with_state s3 r.1 [EvMarkCompleted (id issue) (GitHubIssue.number gh_issue)
                                 (content_hash issue)] in
  match r.2 with
  | Ok _ => (s4, Ok tt)
  | Raise e => on_failure issue e s4
  end.

(** The remote call of [_create_issue], with its arguments, on the syncer
    as [mark_started] left it. *)
Definition remote_create (issue : Issue) (body : string) (self : IssueSyncer.t C)
  : C * result GitHubIssue.t :=
  create_issue (issue_title issue) body (_resolve_labels self issue)
    (IssueSyncer._milestones self !! milestone issue) (IssueSyncer.client self).

Definition create_event (issue : Issue) (body : string) (self : IssueSyncer.t C) : event :=
  EvCreateIssue (issue_title issue) body (_resolve_labels self issue)
    (IssueSyncer._milestones self !! milestone issue).

Definition remote_update (issue : Issue) (number : Z) (body : string) (self : IssueSyncer.t C)
  : C * result GitHubIssue.t :=
  update_issue number (Some (issue_title issue)) (Some body) (Some (_resolve_labels self issue))
    (IssueSyncer._milestones self !! milestone issue) None (IssueSyncer.client self).

Definition update_event (issue : Issue) (number : Z) (body : string) (self : IssueSyncer.t C)
  : event :=
  EvUpdateIssue number (issue_title issue) body (_resolve_labels self issue)
    (IssueSyncer._milestones self !! milestone issue).

End ExecutionVocabulary.

Section StoreView.
Context {ext : Externals}.

(** The state the store holds, loading it if it is not loaded yet; [None]
    when the loading raises. *)
Definition view (m : StateManager.t) : option SyncState.t :=
  match (state m).2 with Ok s => Some s | Raise _ => None end.

(** The record of [issue_id] in the store, and its status. *)
Definition record_in (m : StateManager.t) (issue_id : string) : option SyncRecord.t :=
  match view m with Some s => SyncState.records s !! issue_id | None => None end.

Definition status_in (m : StateManager.t) (issue_id : string) : option SyncStatus :=
  SyncRecord.status <$> record_in m issue_id.

End StoreView.

(** The creates and updates of a plan, in the order [_execute_plan] runs
    them. *)
Inductive remote_action :=
| DoCreate (issue : Issue)
| DoUpdate (issue : Issue) (number : Z).

Definition action_issue (a : remote_action) : Issue :=
  match a with DoCreate issue => issue | DoUpdate issue _ => issue end.

Definition action_id (a : remote_action) : string := id (action_issue a).

Definition action_kind (a : remote_action) : SyncAction :=
  match a with DoCreate _ => CREATE | DoUpdate _ _ => UPDATE end.

Definition remote_actions (plan : SyncPlan.t) : list remote_action :=
  List.map DoCreate (SyncPlan.creates plan) ++
  List.map (fun '(issue, number) => DoUpdate issue number) (SyncPlan.updates plan).

Section ActionVocabulary.
Context {ext : Externals} {C : Type} {cli : Client C}.

Definition run_action (index : IssueIndex.t) (a : remote_action) : M (IssueSyncer.t C) unit :=
  match a with
  | DoCreate issue => _create_issue issue index
  | DoUpdate issue number => _update_issue issue number index
  end.

Definition remote_call (a : remote_action) (body : string) (self : IssueSyncer.t C)
  : C * result GitHubIssue.t :=
  match a with
  | DoCreate issue => remote_create issue body self
  | DoUpdate issue number => remote_update issue number body self
  end.

Definition remote_event (a : remote_action) (body : string) (self : IssueSyncer.t C) : event :=
  match a with
  | DoCreate issue => create_event issue body self
  | DoUpdate issue number => update_event issue number body self
  end.

End ActionVocabulary.

(** A remote that serves [budget] creates as the rehearsal client does and
    answers every later create with an error. *)
Module FlakyClient.
Record t := mk { inner : DryRunClient.t; budget : nat }.

Definition lift {A : Type} (op : M DryRunClient.t A) : M t A :=
  fun self => let r := op (inner self) in (mk r.1 (budget self), r.2).

Definition create_issue (title body : string) (labels : list string) (milestone : option Z)
  : M t GitHubIssue.t :=
  fun self =>
    match budget self with
    | O => (self, Raise (GitHubError "Internal Server Error"))
    | S n => let r := DryRunClient.create_issue title body labels milestone (inner self) in
             (mk r.1 n, r.2)
    end.
End FlakyClient.

#[export] Instance FlakyClient_Client : Client FlakyClient.t := {
  list_milestones := FlakyClient.lift DryRunClient.list_milestones;
  list_labels := FlakyClient.lift DryRunClient.list_labels;
  list_issues := FlakyClient.lift DryRunClient.list_issues;
  create_label := fun name color description =>
                    FlakyClient.lift (DryRunClient.create_label name color description);
  create_milestone := fun title description =>
                        FlakyClient.lift (DryRunClient.create_milestone title description);
  create_issue := FlakyClient.create_issue;
  update_issue := fun number title body labels milestone state =>
                    FlakyClient.lift (DryRunClient.update_issue number title body labels
                                        milestone state)
}.

(** Three issues to create, on a remote that serves one create. *)
Definition three_creates : SyncPlan.t :=
  SyncPlan.mk [plain_issue "A-1" [] None []; plain_issue "A-2" [] None [];
               plain_issue "A-3" [] None []] [] [].

Definition flaky_syncer : IssueSyncer.t FlakyClient.t :=
  IssueSyncer.init (FlakyClient.mk (DryRunClient.init "owner" "repo") 1) no_files no_state_file.

(** What the loop over [plan.skips] records: a start and a skip per entry. *)
Definition skip_events (skips : list (Issue * Z)) : list event :=
  flat_map (fun '(issue, number) =>
              [EvMarkStarted (id issue) SKIP; EvMarkSkipped (id issue) number]) skips.

Definition skip_id (entry : Issue * Z) : string := id entry.1.

Section SummaryVocabulary.
Context {ext : Externals}.

(** What [summary()] returns for the state [s]. *)
Definition summary_of (s : SyncState.t) : list (string * nat) :=
  List.map (fun st => (SyncStatus_value st, count_status st s))
    [PENDING; IN_PROGRESS; COMPLETED; FAILED; SKIPPED].

End SummaryVocabulary.

(** One epic on disk, and the syncer of a second run on the remote and the
    state store that a first run has left. *)
Definition epic_files : IssueLoader.t := IssueLoader.mk (Ok [lone_epic]) (Ok []) (Ok []).

Definition second_run_syncer : IssueSyncer.t DryRunClient.t :=
  let first := @sync ext0 _ _ false (new_syncer epic_files) in
  IssueSyncer.init (IssueSyncer.client first.1) epic_files (IssueSyncer.state first.1).

(** Externals whose timestamps are written in decimal and read back. *)
Definition decimal_clock : Externals := {|
  _acceptance_criteria_section := fun _ => Ok "### Acceptance Criteria";
  _state_machine_section := fun _ => Ok "### State Machine";
  _technical_context_section := fun _ => Ok "### Technical Context";
  _visual_mockups_section := fun _ => Ok "### Visual Mockups";
  utcnow := fun n => Z.of_nat n;
  uuid4 := fun n => "0123456789abcdef";
  isoformat := fun d => Py.str_int d;
  fromisoformat := fun s => match NilZero.int_of_string s with
                            | Some i => Ok (Z.of_int i)
                            | None => Raise (ValueError "Invalid isoformat string")
                            end
|}.

(** No issue of the rehearsal client has a number above its counter. *)
Definition fresh_numbers (c : DryRunClient.t) : bool :=
  forallb (fun kv => (kv.1 <=? DryRunClient._issue_counter c)%Z) (DryRunClient._issues c).

(** The issue has a remote counterpart in [_existing_issues]. *)
Definition is_known {C : Type} (self : IssueSyncer.t C) (issue : Issue) : bool :=
  bool_decide (is_Some (IssueSyncer._existing_issues self !! id issue)).

Definition label_event (d : LabelDef.t) : event :=
  EvCreateLabel (LabelDef.name d) (LabelDef.color d) (LabelDef.description d).

(** A syncer that differs from [self] in its client, labels and trace. *)
Definition labels_grown {C : Type} (self self' : IssueSyncer.t C) (created : list LabelDef.t) : Prop :=
  IssueSyncer.trace self' = IssueSyncer.trace self ++ List.map label_event created /\
  IssueSyncer.loader self' = IssueSyncer.loader self /\
  IssueSyncer.state self' = IssueSyncer.state self /\
  IssueSyncer._milestones self' = IssueSyncer._milestones self /\
  IssueSyncer._existing_issues self' = IssueSyncer._existing_issues self.


(** The issue names [epic_id] as its epic. *)
Definition child_of (epic_id : string) (issue : Issue) : bool :=
  opt_truthy (epic issue) && bool_decide (epic issue = Some epic_id).

(* ===================================================================== *)
(** * Facts about strings *)
(* ===================================================================== *)

Section StringFacts.

Lemma app_cons_s (x : ascii) (a b : string) : String x a +:+ b = String x (a +:+ b).
Proof. reflexivity. Qed.

Lemma app_nil_l_s (b : string) : "" +:+ b = b.
Proof. reflexivity. Qed.

Lemma app_assoc_s (a b c : string) : (a +:+ b) +:+ c = a +:+ (b +:+ c).
Proof.
  induction a as [|x a IH]; [reflexivity|]. rewrite !app_cons_s. now rewrite IH.
Qed.

Lemma app_nil_r_s (a : string) : a +:+ "" = a.
Proof. induction a as [|x a IH]; [reflexivity|]. rewrite app_cons_s. now rewrite IH. Qed.

Lemma length_app_s (a b : string) : String.length (a +:+ b) = String.length a + String.length b.
Proof.
  induction a as [|x a IH]; [reflexivity|]. rewrite app_cons_s. simpl. now rewrite IH.
Qed.

Lemma prefix_nil (s : string) : String.prefix "" s = true.
Proof. destruct s; reflexivity. Qed.

Lemma prefix_app (p s : string) : String.prefix p (p +:+ s) = true.
Proof.
  induction p as [|x p IH]; [apply prefix_nil|]. rewrite app_cons_s. simpl.
  destruct (ascii_dec x x); [exact IH | congruence].
Qed.

Lemma prefix_app_l (p s t : string) : String.prefix p s = true -> String.prefix p (s +:+ t) = true.
Proof.
  revert s. induction p as [|x p IH]; intros s H; [apply prefix_nil|].
  destruct s as [|y s]; [discriminate|]. rewrite app_cons_s. simpl in *.
  destruct (ascii_dec x y); [now apply IH | discriminate].
Qed.

Lemma prefix_inv (p s : string) : String.prefix p s = true -> exists t, s = p +:+ t.
Proof.
  revert s. induction p as [|x p IH]; intros s H; [now exists s|].
  destruct s as [|y s]; simpl in H; [discriminate|].
  destruct (ascii_dec x y) as [->|]; [|discriminate].
  destruct (IH _ H) as [t ->]. now exists t.
Qed.

Lemma contains_prefix (sub s : string) : String.prefix sub s = true -> Py.contains sub s = true.
Proof. intros H. destruct s; cbn [Py.contains]; rewrite H; reflexivity. Qed.

Lemma contains_cons (sub : string) (c : ascii) (s : string) :
  Py.contains sub s = true -> Py.contains sub (String c s) = true.
Proof. intros H. cbn [Py.contains]. rewrite H. apply orb_true_r. Qed.

Lemma contains_app_r (sub a s : string) :
  Py.contains sub s = true -> Py.contains sub (a +:+ s) = true.
Proof.
  intros H. induction a as [|x a IH]; [exact H|]. rewrite app_cons_s. now apply contains_cons.
Qed.

Lemma contains_app_l (sub s b : string) :
  Py.contains sub s = true -> Py.contains sub (s +:+ b) = true.
Proof.
  induction s as [|x s IH]; intros H.
  - cbn [Py.contains] in H. rewrite orb_false_r in H. destruct sub; [|simpl in H; discriminate].
    apply contains_prefix, prefix_nil.
  - cbn [Py.contains] in H. apply orb_true_iff in H as [H|H].
    + apply contains_prefix. now apply (prefix_app_l sub (String x s) b).
    + rewrite app_cons_s. apply contains_cons. now apply IH.
Qed.

Lemma contains_middle (sub a b : string) : Py.contains sub (a +:+ sub +:+ b) = true.
Proof. apply contains_app_r, contains_prefix, prefix_app. Qed.

Lemma length_take (n : nat) (s : string) : n <= String.length s -> String.length (Py.take n s) = n.
Proof.
  revert s. induction n as [|n IH]; intros s H; [reflexivity|].
  destruct s as [|c s]; simpl in *; [lia|]. rewrite IH; [reflexivity | lia].
Qed.

Lemma length_take_le (n : nat) (s : string) : String.length (Py.take n s) <= n.
Proof.
  revert s. induction n as [|n IH]; intros s; [simpl; lia|].
  destruct s as [|c s]; simpl; [lia|]. specialize (IH s). lia.
Qed.

Lemma length_string_of_list_ascii (l : list ascii) :
  String.length (string_of_list_ascii l) = List.length l.
Proof. induction l as [|c l IH]; simpl; [reflexivity | now rewrite IH]. Qed.

End StringFacts.

(* ===================================================================== *)
(** * The state store *)
(* ===================================================================== *)

Ltac unfold_state_ops :=
  unfold mark_started, mark_completed, mark_failed, mark_skipped, mark_run_completed, needs_sync,
    summary, save, state, _load_or_create, set_state, tick, bindM, get_, modify, ret, raise,
    lift_result in *;
  simpl in *.

Section StateFacts.
Context {ext : Externals}.

Lemma state_loaded m s : loaded m s -> state m = (m, Ok s).
Proof. unfold loaded, state, bindM, get_. intros ->. reflexivity. Qed.

Lemma state_returns m m' s : state m = (m', Ok s) -> loaded m' s.
Proof.
  unfold state, bindM, get_, loaded. destruct (StateManager._state m) eqn:E.
  - unfold ret. intros [= <- <-]. exact E.
  - unfold _load_or_create, bindM, get_.
    destruct (StateManager.file m); unfold tick, raise, lift_result, ret, set_state, modify; simpl.
    + intros [= <- <-]. reflexivity.
    + discriminate.
    + destruct (SyncState_from_dict data); simpl; [intros [= <- <-]; reflexivity | discriminate].
Qed.

Lemma loaded_stored m s : loaded (stored m s) s.
Proof. reflexivity. Qed.

Lemma loaded_after_update m s issue_id f :
  loaded (after_update m s issue_id f) (update_record s issue_id f).
Proof.
  unfold after_update, update_record, loaded.
  destruct (SyncState.records s !! issue_id); reflexivity.
Qed.

Lemma mark_started_loaded m s issue_id action :
  loaded m s ->
  mark_started issue_id action m =
    (stored (ticked m)
       (set_records s (<[issue_id := started_record issue_id action (StateManager.ticks m)]>
                         (SyncState.records s))),
     Ok tt).
Proof. unfold loaded. intros H. unfold_state_ops. rewrite H. reflexivity. Qed.

Lemma mark_started_returns m m1 issue_id action :
  mark_started issue_id action m = (m1, Ok tt) ->
  exists s, loaded m1 (set_records s (<[issue_id := started_record issue_id action (StateManager.ticks m)]>
                                         (SyncState.records s))).
Proof.
  unfold loaded. unfold_state_ops.
  destruct (StateManager._state m) eqn:E; simpl.
  - intros [= <-]. exists t. reflexivity.
  - destruct (StateManager.file m); simpl.
    + intros [= <-]. exists (fresh_state (S (StateManager.ticks m))). reflexivity.
    + discriminate.
    + destruct (SyncState_from_dict data) as [s|]; simpl; [|discriminate].
      intros [= <-]. exists s. reflexivity.
Qed.

Lemma mark_completed_loaded m s issue_id number h :
  loaded m s ->
  mark_completed issue_id number h m =
    (after_update m s issue_id (fun r => completed_record r number h (StateManager.ticks m)), Ok tt).
Proof.
  unfold loaded, after_update, update_record. intros H. unfold_state_ops. rewrite H. simpl.
  destruct (SyncState.records s !! issue_id); simpl; unfold stored; rewrite ?H; reflexivity.
Qed.

Lemma mark_failed_loaded m s issue_id error :
  loaded m s ->
  mark_failed issue_id error m =
    (after_update m s issue_id (fun r => failed_record r error (StateManager.ticks m)), Ok tt).
Proof.
  unfold loaded, after_update, update_record. intros H. unfold_state_ops. rewrite H. simpl.
  destruct (SyncState.records s !! issue_id); simpl; unfold stored; rewrite ?H; reflexivity.
Qed.

Lemma mark_skipped_loaded m s issue_id number :
  loaded m s ->
  mark_skipped issue_id number m =
    (after_update m s issue_id (fun r => skipped_record r number (StateManager.ticks m)), Ok tt).
Proof.
  unfold loaded, after_update, update_record. intros H. unfold_state_ops. rewrite H. simpl.
  destruct (SyncState.records s !! issue_id); simpl; unfold stored; rewrite ?H; reflexivity.
Qed.

Lemma needs_sync_loaded m s issue :
  loaded m s -> needs_sync issue m = (m, Ok (SyncState.needs_sync s issue)).
Proof. unfold loaded. intros H. unfold_state_ops. rewrite H. reflexivity. Qed.

Lemma mark_run_completed_loaded m s :
  loaded m s ->
  mark_run_completed m =
    (stored (ticked m) (SyncState.mk (SyncState.run_id s) (SyncState.started_at s)
                          (Some (utcnow (StateManager.ticks m))) (SyncState.records s)), Ok tt).
Proof. unfold loaded. intros H. unfold_state_ops. rewrite H. reflexivity. Qed.

Lemma status_of_after_update m s issue_id f j :
  status_of (after_update m s issue_id f) j =
    if decide (issue_id = j)
    then (fun r => SyncRecord.status (f r)) <$> (SyncState.records s !! issue_id)
    else SyncRecord.status <$> (SyncState.records s !! j).
Proof.
  unfold status_of, after_update, update_record.
  destruct (SyncState.records s !! issue_id) eqn:E; simpl.
  - destruct (decide (issue_id = j)) as [->|Hne].
    + rewrite lookup_insert_eq. reflexivity.
    + rewrite lookup_insert_ne by done. reflexivity.
  - destruct (decide (issue_id = j)) as [->|Hne]; [rewrite E|]; reflexivity.
Qed.

(** C10. Executing a SKIP for an issue: once [mark_started] with the action
    skip has returned, [mark_skipped] with a remote number returns too, and
    the record of the issue is a new one, whatever was stored before: action
    skip, status skipped, the given remote number, no content hash, no
    error.  The store then answers [needs_sync] with true for the issue. *)
Theorem skip_replaces_record (m m1 : StateManager.t) (issue : Issue) (number : Z) :
  mark_started (id issue) SKIP m = (m1, Ok tt) ->
  exists m2 s r,
    mark_skipped (id issue) (Some number) m1 = (m2, Ok tt) /\
    StateManager._state m2 = Some s /\
    SyncState.records s !! id issue = Some r /\
    SyncRecord.action r = SKIP /\
    SyncRecord.status r = SKIPPED /\
    SyncRecord.github_number r = Some number /\
    SyncRecord.content_hash r = None /\
    SyncRecord.error r = None /\
    needs_sync issue m2 = (m2, Ok true).
Proof.
  intros H. destruct (mark_started_returns _ _ _ _ H) as [s Hl].
  set (r0 := started_record (id issue) SKIP (StateManager.ticks m)) in *.
  set (s1 := set_records s (<[id issue := r0]> (SyncState.records s))) in *.
  assert (Hlk : SyncState.records s1 !! id issue = Some r0) by apply lookup_insert_eq.
  rewrite (mark_skipped_loaded _ _ (id issue) (Some number) Hl).
  unfold after_update, update_record. rewrite Hlk.
  set (r1 := skipped_record r0 (Some number) (StateManager.ticks m1)).
  set (s2 := set_records s1 (<[id issue := r1]> (SyncState.records s1))).
  assert (Hlk2 : SyncState.records s2 !! id issue = Some r1) by apply lookup_insert_eq.
  exists (stored (ticked m1) s2), s2, r1.
  repeat (split; [reflexivity || exact Hlk2|]).
  rewrite (needs_sync_loaded _ s2) by reflexivity.
  unfold SyncState.needs_sync. rewrite Hlk2. reflexivity.
Qed.

End StateFacts.

Section Lifecycle.
Context {ext : Externals}.

(** C9 (amended). In a loaded store, a record whose status is completed,
    failed or skipped keeps a status among these three under
    [mark_completed], [mark_failed] and [mark_skipped], for whatever issue
    they are called; [mark_started] puts the record of its issue in
    progress, whatever its status was, and leaves the other records as they
    are. *)
Theorem lifecycle_of_records (m : StateManager.t) (s : SyncState.t) (j : string) :
  loaded m s ->
  is_terminal (status_of m j) = true ->
  (forall i number h, is_terminal (status_of (mark_completed i number h m).1 j) = true) /\
  (forall i error, is_terminal (status_of (mark_failed i error m).1 j) = true) /\
  (forall i number, is_terminal (status_of (mark_skipped i number m).1 j) = true) /\
  (forall i action,
      status_of (mark_started i action m).1 i = Some IN_PROGRESS /\
      (i <> j -> status_of (mark_started i action m).1 j = status_of m j)).
Proof.
  intros Hl Ht.
  assert (Hs : status_of m j = SyncRecord.status <$> (SyncState.records s !! j))
    by (unfold status_of; rewrite Hl; reflexivity).
  rewrite Hs in Ht.
  assert (Hupd : forall i f, (forall r, terminal (SyncRecord.status (f r)) = true) ->
                   is_terminal (status_of (after_update m s i f) j) = true).
  { intros i f Hf. rewrite status_of_after_update.
    destruct (decide (i = j)) as [->|Hne]; [|exact Ht].
    destruct (SyncState.records s !! j); simpl in *; [apply Hf | discriminate]. }
  repeat split.
  - intros. rewrite (mark_completed_loaded _ _ _ _ _ Hl). apply Hupd. reflexivity.
  - intros. rewrite (mark_failed_loaded _ _ _ _ Hl). apply Hupd. reflexivity.
  - intros. rewrite (mark_skipped_loaded _ _ _ _ Hl). apply Hupd. reflexivity.
  - rewrite (mark_started_loaded _ _ _ _ Hl). unfold status_of. simpl.
    rewrite lookup_insert_eq. reflexivity.
  - intros Hne. rewrite (mark_started_loaded _ _ _ _ Hl). rewrite Hs. unfold status_of. simpl.
    rewrite lookup_insert_ne by done. reflexivity.
Qed.

(** C7 (amended). Loading the persisted state: with no file, a fresh state
    with a new run id, started now, not completed and without records; with
    a file that [json.loads] rejects, the exception of [json.loads]; with a
    file that parses, whatever [SyncState.from_dict] returns or raises. *)
Theorem load_or_create_cases (st : option SyncState.t) (n : nat) :
  _load_or_create (StateManager.mk Absent st n)
    = (StateManager.mk Absent st (S n),
       Ok (SyncState.mk (Py.take 8 (uuid4 n)) (utcnow n) None ∅)) /\
  (forall e, _load_or_create (StateManager.mk (Unparseable e) st n)
             = (StateManager.mk (Unparseable e) st n, Raise e)) /\
  (forall data, _load_or_create (StateManager.mk (Parsed data) st n)
                = (StateManager.mk (Parsed data) st n, SyncState_from_dict data)).
Proof. repeat split. Qed.

End Lifecycle.

Definition JSONDecodeError : exn :=
  Exn "JSONDecodeError" "Expecting value: line 1 column 1 (char 0)".

(** C7, refuted as stated: a state file that [json.loads] rejects makes the
    loading raise, and so does a file holding the empty object. *)
Lemma load_corrupt_state_raises :
  @_load_or_create ext0 (StateManager.mk (Unparseable JSONDecodeError) None 0)
    = (StateManager.mk (Unparseable JSONDecodeError) None 0, Raise JSONDecodeError) /\
  @state ext0 (StateManager.mk (Unparseable JSONDecodeError) None 0)
    = (StateManager.mk (Unparseable JSONDecodeError) None 0, Raise JSONDecodeError) /\
  @_load_or_create ext0 (StateManager.mk (Parsed (JDict [])) None 0)
    = (StateManager.mk (Parsed (JDict [])) None 0, Raise (Exn "KeyError" "'run_id'")).
Proof. repeat split. Qed.

(** C9, refuted as stated: a completed record is put back in progress by
    the next [mark_started] of its issue. *)
Lemma mark_started_reverts_completed :
  let r1 := bindM (@mark_started ext0 "A-1" CREATE)
              (fun _ => @mark_completed ext0 "A-1" 7 "0123456789abcdef") no_state_file in
  let r2 := @mark_started ext0 "A-1" UPDATE r1.1 in
  r1.2 = Ok tt /\ status_of r1.1 "A-1" = Some COMPLETED /\
  r2.2 = Ok tt /\ status_of r2.1 "A-1" = Some IN_PROGRESS.
Proof. vm_compute. repeat split. Qed.

Lemma lifecycle_of_records_witness :
  let m := (bindM (@mark_started ext0 "A-1" CREATE)
              (fun _ => @mark_completed ext0 "A-1" 7 "0123456789abcdef") no_state_file).1 in
  is_terminal (status_of m "A-1") = true /\
  (forall i number h, is_terminal (status_of (@mark_completed ext0 i number h m).1 "A-1") = true).
Proof.
  intros m. split; [vm_compute; reflexivity|].
  destruct (StateManager._state m) as [s|] eqn:E; [|vm_compute in E; discriminate E].
  exact (proj1 (@lifecycle_of_records ext0 m s "A-1" E eq_refl)).
Defined.

Lemma skip_replaces_record_witness :
  exists m2 s r,
    @mark_skipped ext0 "A-1" (Some 7%Z) (@mark_started ext0 "A-1" SKIP no_state_file).1 = (m2, Ok tt) /\
    StateManager._state m2 = Some s /\
    SyncState.records s !! "A-1" = Some r /\
    SyncRecord.action r = SKIP /\
    SyncRecord.status r = SKIPPED /\
    SyncRecord.github_number r = Some 7%Z /\
    SyncRecord.content_hash r = None /\
    SyncRecord.error r = None /\
    @needs_sync ext0 (plain_issue "A-1" [] None []) m2 = (m2, Ok true).
Proof.
  exact (@skip_replaces_record ext0 no_state_file _ (plain_issue "A-1" [] None []) 7%Z eq_refl).
Defined.

(* ===================================================================== *)
(** * The content hash *)
(* ===================================================================== *)

Section HashFacts.

Lemma sorted_permutation (l1 l2 : list string) : l1 ≡ₚ l2 -> Py.sorted l1 = Py.sorted l2.
Proof.
  intros H. unfold Py.sorted.
  apply (StronglySorted_unique String.le).
  - apply StronglySorted_merge_sort; apply _.
  - apply StronglySorted_merge_sort; apply _.
  - rewrite !merge_sort_Permutation. exact H.
Qed.

Lemma hex_digit_is_hex (d : N) : (d < 16)%N -> is_hex_char (Sha256.hex_digit d) = true.
Proof.
  intros H.
  assert (Hc : In d [0;1;2;3;4;5;6;7;8;9;10;11;12;13;14;15]%N).
  { simpl. lia. }
  simpl in Hc. repeat (destruct Hc as [<-|Hc]; [reflexivity|]). destruct Hc.
Qed.

Lemma nibble_bound (x : N) (i : nat) : (Sha256.nibble x i < 16)%N.
Proof.
  unfold Sha256.nibble. change 0xF%N with (N.ones 4). rewrite N.land_ones.
  apply N.mod_lt. discriminate.
Qed.

Lemma hex_word_spec (x : N) :
  List.length (Sha256.hex_word x) = 8 /\ Forall (fun c => is_hex_char c = true) (Sha256.hex_word x).
Proof.
  split; [reflexivity|]. unfold Sha256.hex_word.
  cbn [List.map]. repeat (constructor; [apply hex_digit_is_hex, nibble_bound|]). constructor.
Qed.

Lemma all_chars_of_list (p : ascii -> bool) (l : list ascii) :
  Forall (fun c => p c = true) l -> all_chars p (string_of_list_ascii l) = true.
Proof. induction 1 as [|c l Hc _ IH]; simpl; [reflexivity | now rewrite Hc, IH]. Qed.

Lemma all_chars_take (p : ascii -> bool) (n : nat) (s : string) :
  all_chars p s = true -> all_chars p (Py.take n s) = true.
Proof.
  revert s. induction n as [|n IH]; intros s H; [reflexivity|].
  destruct s as [|c s]; simpl in *; [reflexivity|].
  apply andb_true_iff in H as [-> H]. now apply IH.
Qed.

Lemma hexdigest_spec (s : string) :
  String.length (Sha256.hexdigest s) = 64 /\ all_chars is_hex_char (Sha256.hexdigest s) = true.
Proof.
  unfold Sha256.hexdigest, Sha256.digest_words, Sha256.list_of_regs.
  set (r := fold_left _ _ _). clearbody r.
  split.
  - rewrite length_string_of_list_ascii. reflexivity.
  - apply all_chars_of_list. cbn [List.map List.concat].
    repeat (apply Forall_app; split; [apply hex_word_spec|]). constructor.
Qed.

Lemma content_hash_shape (i : Issue) :
  String.length (content_hash i) = 16 /\ all_chars is_hex_char (content_hash i) = true.
Proof.
  unfold content_hash. destruct (hexdigest_spec (Json.dumps (_hashable_dict i))) as [Hl Hh].
  split; [apply length_take; lia | now apply all_chars_take].
Qed.

End HashFacts.

Section EscapeFacts.

(** Reading back one escaped character. *)
Definition hex_value (c : ascii) : N :=
  let n := N_of_ascii c in
  if (n <? 58)%N then (n - 48)%N else (n - 87)%N.

Definition unescape1 (s : string) : option (ascii * string) :=
  match s with
  | "" => None
  | String c rest =>
      if Ascii.eqb c Py.backslash then
        match rest with
        | String e rest' =>
            if Ascii.eqb e "u" then
              match rest' with
              | String _ (String _ (String x (String y rest''))) =>
                  Some (ascii_of_N (16 * hex_value x + hex_value y), rest'')
              | _ => None
              end
            else if Ascii.eqb e "n" then Some (Py.newline, rest')
            else if Ascii.eqb e "r" then Some ("013"%char, rest')
            else if Ascii.eqb e "t" then Some ("009"%char, rest')
            else if Ascii.eqb e "b" then Some ("008"%char, rest')
            else if Ascii.eqb e "f" then Some ("012"%char, rest')
            else Some (e, rest')
        | "" => None
        end
      else if Ascii.eqb c Py.dquote then None
      else Some (c, rest)
  end.

Lemma unescape1_escape_char (c : ascii) (rest : string) :
  unescape1 (Json.escape_char c +:+ rest) = Some (c, rest).
Proof.
  destruct c as [[] [] [] [] [] [] [] []]; reflexivity.
Qed.

Lemma unescape1_quote (rest : string) : unescape1 (String Py.dquote rest) = None.
Proof. reflexivity. Qed.

Lemma escape_inj_ctx (d1 d2 r1 r2 : string) :
  Json.escape d1 +:+ String Py.dquote r1 = Json.escape d2 +:+ String Py.dquote r2 -> d1 = d2.
Proof.
  revert d2. induction d1 as [|c1 d1 IH]; intros [|c2 d2] H.
  - reflexivity.
  - apply (f_equal unescape1) in H. cbn [Json.escape] in H.
    rewrite app_assoc_s, unescape1_escape_char in H. discriminate.
  - apply (f_equal unescape1) in H. cbn [Json.escape] in H.
    rewrite app_assoc_s, unescape1_escape_char in H. discriminate.
  - apply (f_equal unescape1) in H. cbn [Json.escape] in H.
    rewrite !app_assoc_s, !unescape1_escape_char in H.
    injection H as -> H. f_equal. now apply IH.
Qed.

Lemma dumps_str_inj_ctx (d1 d2 r1 r2 : string) :
  Json.dumps_str d1 +:+ r1 = Json.dumps_str d2 +:+ r2 -> d1 = d2.
Proof.
  unfold Json.dumps_str. rewrite !app_cons_s, !app_assoc_s, !app_cons_s.
  intros [= H]. exact (escape_inj_ctx _ _ _ _ H).
Qed.

End EscapeFacts.

Ltac issue_fields :=
  cbn [with_description with_labels with_status with_estimate
       id title type_ status priority labels milestone description acceptance_criteria epic
       depends_on blocks user_story technical_context state_machine out_of_scope open_questions
       estimate children goals design_principles visual_mockups interaction_patterns
       responsive_behavior source_file github_number] in *.

Section NormalizedFacts.

Definition entry (kv : string * string) : string := Json.dumps_str kv.1 +:+ ": " +:+ kv.2.

Lemma dumps_dict (l : pydict) :
  Json.dumps (JDict l) =
    "{" +:+ Py.join ", " (List.map entry
                            (Json.sort_items (List.map (fun kv => (kv.1, Json.dumps kv.2)) l)))
        +:+ "}".
Proof.
  cbn [Json.dumps]. unfold entry.
  replace (List.map (fun kv : string * json => let (k, x) := kv in (k, Json.dumps x)) l)
    with (List.map (fun kv : string * json => (kv.1, Json.dumps kv.2)) l)
    by (apply map_ext; intros [k x]; reflexivity).
  reflexivity.
Qed.

Lemma sort_hashable (v1 v2 v3 v4 v5 v6 v7 v8 v9 v10 v11 v12 v13 v14 : string) :
  Json.sort_items
    [ ("id", v1); ("title", v2); ("type", v3); ("priority", v4); ("labels", v5);
      ("description", v6); ("acceptance_criteria", v7); ("epic", v8); ("depends_on", v9);
      ("user_story", v10); ("technical_context", v11); ("state_machine", v12);
      ("out_of_scope", v13); ("goals", v14) ]
  = [ ("acceptance_criteria", v7); ("depends_on", v9); ("description", v6); ("epic", v8);
      ("goals", v14); ("id", v1); ("labels", v5); ("out_of_scope", v13); ("priority", v4);
      ("state_machine", v12); ("technical_context", v11); ("title", v2); ("type", v3);
      ("user_story", v10) ].
Proof. vm_compute. reflexivity. Qed.

(** The text before the description in the hashed dump. *)
Definition before_description (i : Issue) : string :=
  "{" +:+ entry ("acceptance_criteria", Json.dumps (JList (acceptance_criteria i)))
      +:+ ", " +:+ entry ("depends_on", Json.dumps (json_strs (Py.sorted (depends_on i))))
      +:+ ", " +:+ Json.dumps_str "description" +:+ ": ".

Lemma normalized_description (i : Issue) :
  exists R, forall d,
    normalized (with_description i d) = before_description i +:+ Json.dumps_str d +:+ R.
Proof.
  eexists. intros d. unfold normalized, _hashable_dict, before_description.
  rewrite dumps_dict. cbn [List.map fst snd]. rewrite sort_hashable.
  cbn [List.map Py.join]. unfold entry at 3. cbn [fst snd].
  issue_fields.
  change (Json.dumps (JStr d)) with (Json.dumps_str d).
  rewrite !app_assoc_s. reflexivity.
Qed.

End NormalizedFacts.


Section Pigeonhole.

Definition all_ascii : list ascii := List.map ascii_of_nat (seq 0 256).

(** The strings of at most [k] characters. *)
Fixpoint strs (k : nat) : list string :=
  match k with
  | O => [""]
  | S k' => "" :: flat_map (fun s => List.map (fun c => String c s) all_ascii) (strs k')
  end.

Lemma in_all_ascii (c : ascii) : In c all_ascii.
Proof.
  unfold all_ascii. apply in_map_iff. exists (nat_of_ascii c). split.
  - apply ascii_nat_embedding.
  - apply in_seq. pose proof (nat_ascii_bounded c). lia.
Qed.

Lemma in_strs (k : nat) (s : string) : String.length s <= k -> In s (strs k).
Proof.
  revert s. induction k as [|k IH]; intros [|c s] H; cbn [strs String.length] in *;
    try lia; try (left; reflexivity).
  right. apply in_flat_map. exists s. split; [apply IH; lia|].
  apply in_map_iff. exists c. split; [reflexivity | apply in_all_ascii].
Qed.

Lemma pigeonhole {A : Type} (dec : forall x y : A, {x = y} + {x <> y}) (f : nat -> A) (E : list A) :
  (forall n, In (f n) E) -> exists n1 n2, n1 < n2 /\ f n1 = f n2.
Proof.
  intros Hin. set (N := S (List.length E)). set (l := List.map f (seq 0 N)).
  assert (Hdec : forall x y : A, Decidable.decidable (x = y)).
  { intros x y. destruct (dec x y); [left | right]; assumption. }
  destruct (ListDec.NoDup_decidable Hdec l) as [Hnd|Hnd].
  - exfalso. assert (Hle : List.length l <= List.length E).
    { apply List.NoDup_incl_length; [exact Hnd|].
      intros x Hx. apply in_map_iff in Hx as [n [<- _]]. apply Hin. }
    unfold l in Hle. rewrite length_map, length_seq in Hle. unfold N in Hle. lia.
  - destruct (ListDec.not_NoDup Hdec Hnd) as (a & l1 & l2 & l3 & Hl).
    assert (Hlen : List.length l = N) by (unfold l; now rewrite length_map, length_seq).
    assert (Hlen' : List.length l = List.length l1 + S (List.length l2 + S (List.length l3))).
    { rewrite Hl. rewrite !length_app. simpl. rewrite !length_app. simpl. lia. }
    assert (Hnth : forall k, k < N -> nth k l (f 0) = f k).
    { intros k Hk. unfold l. rewrite map_nth. rewrite seq_nth by exact Hk. reflexivity. }
    exists (List.length l1), (List.length l1 + S (List.length l2)). split; [lia|].
    rewrite <- (Hnth (List.length l1)) by lia.
    rewrite <- (Hnth (List.length l1 + S (List.length l2))) by lia.
    rewrite Hl. rewrite nth_middle.
    rewrite app_nth2 by lia.
    replace (List.length l1 + S (List.length l2) - List.length l1) with (S (List.length l2)) by lia.
    simpl. rewrite nth_middle. reflexivity.
Qed.

End Pigeonhole.
Section HashClaim.

Lemma app_inv_head_s (p a b : string) : p +:+ a = p +:+ b -> a = b.
Proof.
  induction p as [|c p IH]; [trivial|]. rewrite !app_cons_s. intros [= H]. now apply IH.
Qed.

Lemma with_description_same (i : Issue) : with_description i (description i) = i.
Proof. destruct i. reflexivity. Qed.

Lemma normalized_description_inj (i : Issue) (d1 d2 : string) :
  normalized (with_description i d1) = normalized (with_description i d2) -> d1 = d2.
Proof.
  destruct (normalized_description i) as [R HR]. rewrite !HR. intros H.
  apply app_inv_head_s in H. exact (dumps_str_inj_ctx _ _ _ _ H).
Qed.


Fixpoint letters (n : nat) : string :=
  match n with O => "" | S n' => String "a" (letters n') end.

Lemma length_letters (n : nat) : String.length (letters n) = n.
Proof. induction n; simpl; congruence. Qed.


End HashClaim.

(* ===================================================================== *)
(** * The rendered body *)
(* ===================================================================== *)

Section RenderFacts.
Context {ext : Externals}.

Lemma join_cons (sep x : string) (l : list string) :
  Py.join sep (x :: l) = x +:+ match l with [] => "" | _ => sep +:+ Py.join sep l end.
Proof. destruct l; cbn [Py.join]; [now rewrite app_nil_r_s | reflexivity]. Qed.

Lemma join_snoc (sep y : string) (l : list string) :
  Py.join sep (l ++ [y]) = match l with [] => "" | _ => Py.join sep l +:+ sep end +:+ y.
Proof.
  induction l as [|x l IH]; [reflexivity|].
  change ((x :: l) ++ [y]) with (x :: (l ++ [y])). rewrite join_cons, IH.
  destruct l as [|x' l].
  - cbn [app Py.join]. now rewrite app_nil_l_s, app_assoc_s.
  - cbn [app]. rewrite (join_cons sep x (x' :: l)). now rewrite !app_assoc_s.
Qed.

Lemma rev_app_app (a b acc : string) :
  String.rev_app (a +:+ b) acc = String.rev_app b (String.rev_app a acc).
Proof.
  revert acc. induction a as [|c a IH]; intros acc; [reflexivity|].
  rewrite app_cons_s. cbn [String.rev_app]. apply IH.
Qed.

Lemma rev_app_acc (p acc : string) : String.rev_app p acc = String.rev_app p "" +:+ acc.
Proof.
  revert acc. induction p as [|c p IH]; intros acc; [reflexivity|].
  cbn [String.rev_app]. rewrite (IH (String c acc)), (IH (String c "")).
  now rewrite app_assoc_s.
Qed.

Lemma endswith_app (a p : string) : Py.endswith p (a +:+ p) = true.
Proof.
  unfold Py.endswith, String.rev. rewrite rev_app_app, (rev_app_acc p (String.rev_app a "")).
  apply prefix_app.
Qed.

Lemma filter_none_cons_nonempty (x : string) (l : list string) :
  Py.nonempty x = true -> Py.filter_none (x :: l) = x :: Py.filter_none l.
Proof. intros H. unfold Py.filter_none. cbn [List.filter]. now rewrite H. Qed.

Lemma filter_none_snoc_nonempty (y : string) (l : list string) :
  Py.nonempty y = true -> Py.filter_none (l ++ [y]) = Py.filter_none l ++ [y].
Proof.
  intros H. unfold Py.filter_none. rewrite List.filter_app. cbn [List.filter]. now rewrite H.
Qed.

Definition id_token (i : Issue) : string := "**" +:+ id i +:+ "**".

Lemma header_starts (i : Issue) : exists t, _header i = id_token i +:+ t.
Proof.
  unfold _header. destruct (opt_truthy (epic i)), (dict_truthy (estimate i));
    cbn [app]; rewrite join_cons; eexists; reflexivity.
Qed.

Lemma metadata_ends (i : Issue) :
  exists p, _metadata_section i = p +:+ hash_marker (content_hash i).
Proof.
  unfold _metadata_section.
  change (["---"; ?x] ++ [?y]) with (["---"; x] ++ [y]).
  rewrite filter_none_snoc_nonempty by reflexivity. rewrite join_snoc.
  eexists; reflexivity.
Qed.

Lemma bind_ok {A B : Type} (r : result A) (k : A -> result B) (y : B) :
  bind r k = Ok y -> exists x, r = Ok x /\ k x = Ok y.
Proof. destruct r; simpl; [eauto | discriminate]. Qed.

Lemma append_if_shape (c : bool) (sec : result string) (l l' : list string) :
  append_if c sec l = Ok l' -> exists extra, l' = l ++ extra.
Proof.
  unfold append_if. destruct c.
  - destruct sec; simpl; [|discriminate]. intros [= <-]. eexists; reflexivity.
  - intros [= <-]. exists []. now rewrite app_nil_r.
Qed.

Lemma to_markdown_shape (i : Issue) (md : string) :
  to_markdown i = Ok md ->
  exists mid, md = Py.join (Py.nl +:+ Py.nl)
                     (Py.filter_none ((_header i :: _body i :: mid) ++ [_metadata_section i])).
Proof.
  unfold to_markdown. intros H.
  apply bind_ok in H as (? & Hs & H); apply append_if_shape in Hs as [e1 ->].
  apply bind_ok in H as (? & Hs & H); apply append_if_shape in Hs as [e2 ->].
  apply bind_ok in H as (? & Hs & H); apply append_if_shape in Hs as [e3 ->].
  apply bind_ok in H as (? & Hs & H); apply append_if_shape in Hs as [e4 ->].
  apply bind_ok in H as (? & Hs & H); apply append_if_shape in Hs as [e5 ->].
  apply bind_ok in H as (? & Hs & H); apply append_if_shape in Hs as [e6 ->].
  apply bind_ok in H as (? & Hs & H); apply append_if_shape in Hs as [e7 ->].
  injection H as <-. exists (e1 ++ e2 ++ e3 ++ e4 ++ e5 ++ e6 ++ e7).
  do 2 f_equal. change (_header i :: _body i :: ?l) with ([_header i; _body i] ++ l).
  now rewrite <- !app_assoc.
Qed.

End RenderFacts.

Section RenderClaim.
Context {ext : Externals} {C : Type}.

Lemma nonempty_app_l (a b : string) : Py.nonempty a = true -> Py.nonempty (a +:+ b) = true.
Proof. destruct a; [discriminate | reflexivity]. Qed.

Lemma nonempty_app_r (a b : string) : Py.nonempty b = true -> Py.nonempty (a +:+ b) = true.
Proof. destruct a; [trivial | reflexivity]. Qed.

Lemma to_markdown_markers (i : Issue) (md : string) :
  to_markdown i = Ok md ->
  (exists t, md = id_token i +:+ t) /\ (exists p, md = p +:+ hash_marker (content_hash i)).
Proof.
  intros H. apply to_markdown_shape in H as [mid ->].
  destruct (header_starts i) as [t Ht]. destruct (metadata_ends i) as [p Hp].
  assert (Hh : Py.nonempty (_header i) = true) by (rewrite Ht; reflexivity).
  assert (Hm : Py.nonempty (_metadata_section i) = true)
    by (rewrite Hp; apply nonempty_app_r; reflexivity).
  rewrite (filter_none_snoc_nonempty _ _ Hm).
  split.
  - rewrite (filter_none_cons_nonempty _ _ Hh). cbn [app]. rewrite join_cons, Ht, app_assoc_s.
    eexists; reflexivity.
  - rewrite join_snoc, Hp, <- app_assoc_s. eexists; reflexivity.
Qed.

Lemma wrap_pre (sub refs md : string) :
  Py.contains sub md = true -> Py.contains sub (refs +:+ Py.nl +:+ Py.nl +:+ md) = true.
Proof. intros H. now do 3 apply contains_app_r. Qed.

Lemma wrap_post (sub refs md : string) :
  Py.contains sub md = true -> Py.contains sub (md +:+ Py.nl +:+ Py.nl +:+ refs) = true.
Proof. apply contains_app_l. Qed.

Lemma marker_has_needle (h : string) : hash_marker h = "*" +:+ hash_needle h +:+ "*".
Proof. unfold hash_marker, hash_needle. now rewrite !app_assoc_s. Qed.


End RenderClaim.



(* ===================================================================== *)
(** * The topological order *)
(* ===================================================================== *)

Section Topo.
Variable by_id : gmap string Issue.

Lemma fold_visit_none d l :
  fold_left (fun acc issue_id => match acc with
                                 | Some st' => visit d by_id issue_id st'
                                 | None => None
                                 end) l None = None.
Proof. induction l; simpl; auto. Qed.

Lemma visit_all_cons d x l st :
  visit_all d by_id (x :: l) st =
    match visit d by_id x st with
    | Some st' => visit_all d by_id l st'
    | None => None
    end.
Proof.
  unfold visit_all. simpl. destruct (visit d by_id x st); [reflexivity | apply fold_visit_none].
Qed.

Lemma visit_all_app d l1 l2 st :
  visit_all d by_id (l1 ++ l2) st =
    match visit_all d by_id l1 st with
    | Some st' => visit_all d by_id l2 st'
    | None => None
    end.
Proof.
  revert st. induction l1 as [|x l1 IH]; intros st; [reflexivity|].
  cbn [app]. rewrite !visit_all_cons. destruct (visit d by_id x st); [apply IH | reflexivity].
Qed.

Lemma visit_S d issue_id st :
  visit (S d) by_id issue_id st =
    if decide (issue_id ∈ st.1) then Some st
    else match by_id !! issue_id with
         | None => Some ({[issue_id]} ∪ st.1, st.2)
         | Some issue =>
             match visit_all d by_id (deps issue) ({[issue_id]} ∪ st.1, st.2) with
             | None => None
             | Some st2 => Some (st2.1, st2.2 ++ [issue])
             end
         end.
Proof.
  cbn [visit]. destruct (decide (issue_id ∈ st.1)); [reflexivity|].
  destruct (by_id !! issue_id) as [issue|]; [|reflexivity].
  unfold deps. rewrite visit_all_app. unfold visit_all at 1.
  destruct (fold_left _ (depends_on issue) _) as [st1|]; [|reflexivity].
  destruct (opt_truthy (epic issue)); [|reflexivity].
  rewrite visit_all_cons. destruct (visit d by_id _ st1); reflexivity.
Qed.


Lemma visit_step_refl st : visit_inv by_id st -> visit_step by_id st st.
Proof.
  intros H. split; [done|]. split; [exists []; now rewrite app_nil_r|].
  split; [exact H | intros x; reflexivity].
Qed.

Lemma visit_step_trans st1 st2 st3 :
  visit_step by_id st1 st2 -> visit_step by_id st2 st3 -> visit_step by_id st1 st3.
Proof.
  intros (Hs1 & [n1 Hn1] & _ & Hg1) (Hs2 & [n2 Hn2] & Hi2 & Hg2).
  split; [set_solver|]. split; [exists (n1 ++ n2); now rewrite Hn2, Hn1, app_assoc|].
  split; [exact Hi2|]. intros x. rewrite Hg2. apply Hg1.
Qed.

Lemma unvisited_mono (V V' : gset string) :
  V ⊆ V' -> size (dom by_id ∖ V') <= size (dom by_id ∖ V).
Proof. intros H. apply subseteq_size. set_solver. Qed.

Lemma unvisited_less (V : gset string) (x : string) :
  x ∉ V -> is_Some (by_id !! x) -> size (dom by_id ∖ ({[x]} ∪ V)) < size (dom by_id ∖ V).
Proof.
  intros Hx Hl. apply subset_size. apply elem_of_dom in Hl.
  split; [set_solver|]. intros Hsub. specialize (Hsub x). set_solver.
Qed.

Definition visit_returns (d : nat) : Prop :=
  forall x st, visit_inv by_id st -> size (dom by_id ∖ st.1) < d ->
    exists st', visit d by_id x st = Some st' /\ visit_step by_id st st' /\ x ∈ st'.1.

Lemma visit_all_ok d :
  visit_returns d ->
  forall l st, visit_inv by_id st -> size (dom by_id ∖ st.1) < d ->
    exists st', visit_all d by_id l st = Some st' /\ visit_step by_id st st' /\
                (forall x, x ∈ l -> x ∈ st'.1).
Proof.
  intros Hv l. induction l as [|x l IH]; intros st Hinv Hsz.
  - exists st. split; [reflexivity|]. split; [now apply visit_step_refl | set_solver].
  - destruct (Hv x st Hinv Hsz) as (st1 & E1 & Hstep1 & Hx).
    destruct (IH st1) as (st2 & E2 & Hstep2 & Hl).
    { apply Hstep1. }
    { pose proof (unvisited_mono st.1 st1.1 (proj1 Hstep1)). lia. }
    exists st2. rewrite visit_all_cons, E1. split; [exact E2|].
    split; [eapply visit_step_trans; eauto|].
    intros y Hy. apply elem_of_cons in Hy as [->|Hy]; [|now apply Hl].
    destruct Hstep2 as [Hsub _]. set_solver.
Qed.

Lemma gray_entered (x : string) (st : visit_state) :
  visit_inv by_id st -> x ∉ st.1 -> is_Some (by_id !! x) ->
  gray by_id ({[x]} ∪ st.1, st.2) x.
Proof.
  intros (_ & _ & Hin) Hx Hl. split; [set_solver|]. split; [exact Hl|].
  cbn [snd]. intros Hm. apply list_elem_of_fmap in Hm as (i & -> & Hi). apply Hx, Hin, Hi.
Qed.

Lemma visit_inv_enter (x : string) (st : visit_state) :
  visit_inv by_id st -> visit_inv by_id ({[x]} ∪ st.1, st.2).
Proof. intros (H1 & H2 & H3). split; [exact H1|]. split; [exact H2|]. cbn. set_solver. Qed.

Hypothesis by_id_ok : forall k i, by_id !! k = Some i -> id i = k.

Lemma visit_ok d : visit_returns d.
Proof.
  induction d as [|d IH]; intros x st Hinv Hsz; [lia|].
  rewrite visit_S. destruct (decide (x ∈ st.1)) as [Hx|Hx].
  { exists st. split; [reflexivity|]. split; [now apply visit_step_refl | exact Hx]. }
  destruct (by_id !! x) as [issue|] eqn:Hlk.
  - assert (Hid : id issue = x) by now apply by_id_ok.
    assert (Hl : is_Some (by_id !! x)) by (rewrite Hlk; eauto).
    pose proof (visit_inv_enter x st Hinv) as Hinv0.
    pose proof (gray_entered x st Hinv Hx Hl) as Hg0.
    destruct (visit_all_ok d IH (deps issue) ({[x]} ∪ st.1, st.2) Hinv0) as (st2 & E & Hstep & _).
    { cbn [fst]. pose proof (unvisited_less st.1 x Hx Hl). lia. }
    rewrite E. eexists. split; [reflexivity|].
    destruct Hstep as (Hsub & [new Hnew] & (Hi1 & Hi2 & Hi3) & Hg). cbn [fst snd] in *.
    assert (Hg2 : gray by_id st2 x) by now apply Hg.
    split; [|set_solver]. split; [cbn; set_solver|].
    split; [exists (new ++ [issue]); cbn; now rewrite Hnew, app_assoc|].
    split.
    + split; [|split]; cbn [fst snd].
      * intros i Hi. apply elem_of_app in Hi as [Hi|Hi]; [now apply Hi1|].
        apply list_elem_of_singleton in Hi as ->. now rewrite Hid.
      * rewrite fmap_app. apply NoDup_app. split; [exact Hi2|].
        split; [|apply NoDup_singleton].
        intros y Hy Hy'. cbn in Hy'. apply list_elem_of_singleton in Hy' as ->.
        rewrite Hid in Hy. now destruct Hg2 as (_ & _ & Hnot).
      * intros i Hi. apply elem_of_app in Hi as [Hi|Hi]; [now apply Hi3|].
        apply list_elem_of_singleton in Hi as ->. rewrite Hid. set_solver.
    + intros y. unfold gray in *. cbn [fst snd] in *. rewrite fmap_app. cbn [fmap list_fmap].
      rewrite Hid. specialize (Hg y). split.
      * intros (Hy1 & Hy2 & Hy3).
        assert (Hne : y <> x) by (intros ->; apply Hy3; set_solver).
        destruct Hg as [Hg _]. destruct Hg as (Ha & _ & Hc); [|split; [set_solver | split; [exact Hy2 | exact Hc]]].
        split; [exact Hy1|]. split; [exact Hy2|]. set_solver.
      * intros (Hy1 & Hy2 & Hy3).
        assert (Hne : y <> x) by (intros ->; contradiction).
        destruct Hg as [_ Hg]. destruct Hg as (Ha & _ & Hc); [split; [set_solver | split; [exact Hy2 | exact Hy3]]|].
        split; [exact Ha|]. split; [exact Hy2|]. set_solver.
  - exists ({[x]} ∪ st.1, st.2). split; [reflexivity|]. split; [|set_solver].
    split; [cbn; set_solver|]. split; [exists []; cbn; now rewrite app_nil_r|].
    split; [now apply visit_inv_enter|].
    intros y. unfold gray. cbn [fst snd]. split.
    + intros (Hy1 & Hy2 & Hy3). split; [|split; assumption].
      apply elem_of_union in Hy1 as [Hy1|Hy1]; [|exact Hy1].
      apply elem_of_singleton in Hy1 as ->. rewrite Hlk in Hy2. now destruct Hy2.
    + intros (Hy1 & Hy2 & Hy3). split; [set_solver | split; assumption].
Qed.

End Topo.

Section TopoOrder.
Variable by_id : gmap string Issue.
Hypothesis by_id_ok : forall k i, by_id !! k = Some i -> id i = k.
Hypothesis Hacyclic : acyclic by_id.

Lemma snoc_split {A : Type} (before after l : list A) (j i : A) :
  before ++ j :: after = l ++ [i] ->
  (after = [] /\ before = l /\ j = i) \/
  (exists after', after = after' ++ [i] /\ l = before ++ j :: after').
Proof.
  destruct after as [|a after' _] using rev_ind; intros H.
  - left. apply app_inj_tail in H as [-> ->]. auto.
  - right. exists after'. change (j :: after' ++ [a]) with ((j :: after') ++ [a]) in H.
    rewrite app_assoc in H. apply app_inj_tail in H as [<- ->]. auto.
Qed.

Lemma ordered_snoc (l : list Issue) (i : Issue) :
  ordered by_id l ->
  (forall x jx, x ∈ deps i -> by_id !! x = Some jx -> jx ∈ l) ->
  ordered by_id (l ++ [i]).
Proof.
  intros Hl Hi before j after x jx Hsplit Hx Hlk.
  symmetry in Hsplit. apply snoc_split in Hsplit as [(-> & -> & ->) | (after' & -> & ->)].
  - now apply (Hi x).
  - now apply (Hl before j after' x jx).
Qed.

Definition visit_orders (d : nat) : Prop :=
  forall x st st',
    visit_inv by_id st -> size (dom by_id ∖ st.1) < d ->
    (forall g, gray by_id st g -> rtc (edge by_id) g x) ->
    ordered by_id st.2 ->
    visit d by_id x st = Some st' -> ordered by_id st'.2.

Lemma visit_all_orders d :
  visit_orders d ->
  forall l st st',
    visit_inv by_id st -> size (dom by_id ∖ st.1) < d ->
    (forall g x, gray by_id st g -> x ∈ l -> rtc (edge by_id) g x) ->
    ordered by_id st.2 ->
    visit_all d by_id l st = Some st' -> ordered by_id st'.2.
Proof.
  intros Hv l. induction l as [|x l IH]; intros st st' Hinv Hsz Hg Ho E.
  - injection E as <-. exact Ho.
  - rewrite visit_all_cons in E.
    destruct (visit_ok by_id by_id_ok d x st Hinv Hsz) as (st1 & E1 & Hstep & _).
    rewrite E1 in E. apply (IH st1 st'); [apply Hstep | | | | exact E].
    + pose proof (unvisited_mono by_id st.1 st1.1 (proj1 Hstep)). lia.
    + intros g y Hgy Hy. apply (Hg g y); [now apply Hstep | set_solver].
    + apply (Hv x st st1 Hinv Hsz); [|exact Ho | exact E1].
      intros g Hgg. apply (Hg g x Hgg). set_solver.
Qed.

Lemma visit_orders_all d : visit_orders d.
Proof.
  induction d as [|d IH]; intros x st st' Hinv Hsz Hg Ho E; [lia|].
  rewrite visit_S in E. destruct (decide (x ∈ st.1)) as [Hx|Hx].
  { injection E as <-. exact Ho. }
  destruct (by_id !! x) as [issue|] eqn:Hlk; [|injection E as <-; exact Ho].
  assert (Hl : is_Some (by_id !! x)) by (rewrite Hlk; eauto).
  pose proof (visit_inv_enter by_id x st Hinv) as Hinv0.
  assert (Hsz0 : size (dom by_id ∖ ({[x]} ∪ st.1, st.2).1) < d).
  { cbn [fst]. pose proof (unvisited_less by_id st.1 x Hx Hl). lia. }
  destruct (visit_all_ok by_id d (visit_ok by_id by_id_ok d) (deps issue) _ Hinv0 Hsz0)
    as (st2 & E2 & Hstep & Hvis).
  rewrite E2 in E. injection E as <-. cbn [snd].
  assert (Hg0 : forall g y, gray by_id ({[x]} ∪ st.1, st.2) g -> y ∈ deps issue ->
                            rtc (edge by_id) g y).
  { intros g y (Hg1 & Hg2 & Hg3) Hy. cbn [fst snd] in *.
    assert (Hxy : edge by_id x y) by (exists issue; auto).
    destruct (decide (g = x)) as [->|Hne]; [now apply rtc_once|].
    eapply rtc_r; [|exact Hxy]. apply Hg. split; [set_solver | split; assumption]. }
  pose proof (visit_all_orders d IH (deps issue) _ st2 Hinv0 Hsz0 Hg0 Ho E2) as Ho2.
  apply ordered_snoc; [exact Ho2|].
  intros y jy Hy Hlky.
  destruct Hstep as (_ & _ & (Hi1 & _ & _) & Hgray).
  destruct (decide (y ∈ id <$> st2.2)) as [Hin|Hnin].
  - apply list_elem_of_fmap in Hin as (j' & -> & Hj').
    rewrite (Hi1 j' Hj') in Hlky. now injection Hlky as <-.
  - exfalso. assert (Hgy : gray by_id st2 y).
    { split; [now apply Hvis|]. split; [rewrite Hlky; eauto | exact Hnin]. }
    apply Hgray in Hgy. destruct Hgy as (Hy1 & _ & Hy3). cbn [fst snd] in *.
    assert (Hxy : edge by_id x y) by (exists issue; auto).
    destruct (decide (y = x)) as [->|Hne]; [exact (Hacyclic x (tc_once _ _ _ Hxy))|].
    apply (Hacyclic y). eapply tc_rtc_l; [|apply tc_once; exact Hxy].
    apply Hg. split; [set_solver|]. split; [rewrite Hlky; eauto | exact Hy3].
Qed.

End TopoOrder.

Section ById.

Definition insert_all (m : gmap string Issue) (l : list Issue) : gmap string Issue :=
  fold_left (fun m i => <[id i := i]> m) l m.

Lemma insert_all_lookup (l : list Issue) (m : gmap string Issue) (k : string) (i : Issue) :
  insert_all m l !! k = Some i -> (i ∈ l /\ id i = k) \/ m !! k = Some i.
Proof.
  revert m. induction l as [|a l IH]; intros m H; [now right|].
  apply IH in H as [[H1 H2]|H]; [left; split; [now right | exact H2]|].
  destruct (decide (id a = k)) as [<-|Hne].
  - rewrite lookup_insert_eq in H. injection H as <-. left. split; [now left | reflexivity].
  - rewrite lookup_insert_ne in H by done. now right.
Qed.

Lemma insert_all_other (l : list Issue) (m : gmap string Issue) (k : string) :
  k ∉ id <$> l -> insert_all m l !! k = m !! k.
Proof.
  revert m. induction l as [|a l IH]; intros m H; [reflexivity|].
  cbn in H. apply not_elem_of_cons in H as [Hne H].
  cbn [insert_all fold_left]. fold (insert_all (<[id a := a]> m) l).
  rewrite IH by exact H. now rewrite lookup_insert_ne.
Qed.

Lemma insert_all_nodup (l : list Issue) (m : gmap string Issue) (i : Issue) :
  NoDup (id <$> l) -> i ∈ l -> insert_all m l !! id i = Some i.
Proof.
  revert m. induction l as [|a l IH]; intros m Hnd Hi; [now apply elem_of_nil in Hi|].
  cbn in Hnd. apply NoDup_cons in Hnd as [Ha Hnd].
  cbn [insert_all fold_left]. fold (insert_all (<[id a := a]> m) l).
  apply elem_of_cons in Hi as [->|Hi]; [|now apply IH].
  rewrite insert_all_other by exact Ha. apply lookup_insert_eq.
Qed.

Lemma insert_all_some (l : list Issue) (m : gmap string Issue) (k : string) :
  k ∈ id <$> l -> is_Some (insert_all m l !! k).
Proof.
  revert m. induction l as [|a l IH]; intros m Hk; [now apply elem_of_nil in Hk|].
  cbn [insert_all fold_left]. fold (insert_all (<[id a := a]> m) l).
  destruct (decide (k ∈ id <$> l)) as [Hin|Hnin]; [now apply IH|].
  rewrite insert_all_other by exact Hnin.
  cbn in Hk. apply elem_of_cons in Hk as [->|Hk]; [|contradiction].
  rewrite lookup_insert_eq. eauto.
Qed.

Lemma insert_all_size (l : list Issue) (m : gmap string Issue) :
  size (dom (insert_all m l)) <= size (dom m) + List.length l.
Proof.
  revert m. induction l as [|a l IH]; intros m; [simpl; lia|].
  cbn [insert_all fold_left]. fold (insert_all (<[id a := a]> m) l).
  specialize (IH (<[id a := a]> m)). rewrite dom_insert_L in IH.
  assert (size ({[id a]} ∪ dom m) <= 1 + size (dom m)).
  { rewrite size_union_alt, size_singleton.
    assert (size (dom m ∖ {[id a]}) <= size (dom m)) by (apply subseteq_size; set_solver). lia. }
  simpl. lia.
Qed.

Lemma by_id_of_ok (issues : list Issue) (k : string) (i : Issue) :
  by_id_of issues !! k = Some i -> id i = k /\ i ∈ issues.
Proof.
  intros H. apply insert_all_lookup in H as [[H1 H2]|H]; [auto|].
  rewrite lookup_empty in H. discriminate.
Qed.

End ById.

Section TopoClaim.

Lemma by_id_of_key (issues : list Issue) :
  forall k i, by_id_of issues !! k = Some i -> id i = k.
Proof. intros k i H. now apply by_id_of_ok in H. Qed.

Lemma visit_inv_start (by_id : gmap string Issue) : visit_inv by_id (∅, []).
Proof.
  split; [intros i Hi; now apply elem_of_nil in Hi|].
  split; [constructor | intros i Hi; now apply elem_of_nil in Hi].
Qed.

Lemma elem_of_map_id (issues : list Issue) (i : Issue) :
  i ∈ issues -> id i ∈ List.map id issues.
Proof. intros H. apply list_elem_of_In, in_map, list_elem_of_In, H. Qed.

Lemma topological_sort_run (issues : list Issue) :
  exists st,
    visit_all (S (List.length issues)) (by_id_of issues) (List.map id issues) (∅, []) = Some st /\
    visit_step (by_id_of issues) (∅, []) st /\
    (forall x, x ∈ List.map id issues -> x ∈ st.1) /\
    topological_sort_depth (S (List.length issues)) issues = Some st.2 /\
    topological_sort issues = st.2.
Proof.
  destruct (visit_all_ok (by_id_of issues) (S (List.length issues))
              (visit_ok _ (by_id_of_key issues) _) (List.map id issues) (∅, [])
              (visit_inv_start _)) as (st & E & Hstep & Hvis).
  { cbn [fst]. pose proof (insert_all_size issues ∅) as Hs. rewrite dom_empty_L, size_empty in Hs.
    assert (size (dom (by_id_of issues) ∖ ∅) <= size (dom (by_id_of issues)))
      by (apply subseteq_size; set_solver).
    unfold by_id_of. fold (insert_all ∅ issues). unfold by_id_of in H.
    fold (insert_all ∅ issues) in H. lia. }
  exists st. repeat (split; [assumption|]).
  unfold topological_sort, topological_sort_depth. rewrite E. split; reflexivity.
Qed.

Lemma no_gray_at_start (by_id : gmap string Issue) (x : string) : ~ gray by_id (∅, []) x.
Proof. intros (H & _). cbn in H. set_solver. Qed.


End TopoClaim.

(** The two examples of the specification: a dependency comes first,
    whatever the input order; a cycle gives an order with both issues. *)
Example topological_sort_dependency_first :
  topological_sort [plain_issue "B-2" ["A-1"] None []; plain_issue "A-1" [] None []]
  = [plain_issue "A-1" [] None []; plain_issue "B-2" ["A-1"] None []].
Proof. vm_compute. reflexivity. Qed.

Example topological_sort_cycle :
  topological_sort [plain_issue "A-1" ["B-2"] None []; plain_issue "B-2" ["A-1"] None []]
  = [plain_issue "B-2" ["A-1"] None []; plain_issue "A-1" ["B-2"] None []].
Proof. vm_compute. reflexivity. Qed.

Example topological_sort_unknown_ids :
  topological_sort [plain_issue "A-1" ["X-9"] (Some "EPIC-7") []]
  = [plain_issue "A-1" ["X-9"] (Some "EPIC-7") []].
Proof. vm_compute. reflexivity. Qed.

(* ===================================================================== *)
(** * Planning and execution *)
(* ===================================================================== *)

Section PlanFacts.
Context {ext : Externals} {C : Type} {cli : Client C}.

Lemma call_state_eq {A : Type} (e : event) (op : M StateManager.t A) (self : IssueSyncer.t C) :
  call_state e op self =
    (with_state self (op (IssueSyncer.state self)).1 [e], (op (IssueSyncer.state self)).2).
Proof. reflexivity. Qed.

Lemma with_state_nil (self : IssueSyncer.t C) :
  with_state self (IssueSyncer.state self) [] = self.
Proof. destruct self. unfold with_state. cbn. now rewrite app_nil_r. Qed.

Lemma plan_step_cases (force : bool) (plan : SyncPlan.t) (issue : Issue) (self : IssueSyncer.t C) :
  plan_step force plan issue self =
    match IssueSyncer._existing_issues self !! id issue with
    | None => (self, Ok (add_create plan issue))
    | Some existing =>
        if force then (self, Ok (add_update plan issue existing.1))
        else if Py.contains (hash_needle (content_hash issue)) existing.2
        then (self, Ok (add_skip plan issue existing.1))
        else let r := needs_sync issue (IssueSyncer.state self) in
             (with_state self r.1 [EvNeedsSync issue],
              match r.2 with
              | Ok true => Ok (add_update plan issue existing.1)
              | Ok false => Ok (add_skip plan issue existing.1)
              | Raise e => Raise e
              end)
    end.
Proof.
  unfold plan_step, bindM, get_. destruct (IssueSyncer._existing_issues self !! id issue) as [ex|];
    [|reflexivity].
  destruct force; [reflexivity|]. unfold _content_changed.
  destruct (Py.contains _ ex.2); [reflexivity|].
  rewrite call_state_eq. cbn [fst snd].
  destruct (needs_sync issue (IssueSyncer.state self)) as [m [[]|e]]; reflexivity.
Qed.

End PlanFacts.

Section SelfHealing.
Context {ext : Externals} {C : Type} {cli : Client C}.

Lemma plan_step_frame (force : bool) (plan : SyncPlan.t) (j : Issue) (self : IssueSyncer.t C) :
  exists m events,
    (plan_step force plan j self).1 = with_state self m events /\
    (events = [] \/
     events = [EvNeedsSync j] /\
     exists ex, IssueSyncer._existing_issues self !! id j = Some ex /\
                Py.contains (hash_needle (content_hash j)) ex.2 = false).
Proof.
  rewrite plan_step_cases.
  destruct (IssueSyncer._existing_issues self !! id j) as [ex|] eqn:E.
  2:{ exists (IssueSyncer.state self), []. split; [now rewrite with_state_nil | now left]. }
  destruct force.
  { exists (IssueSyncer.state self), []. split; [now rewrite with_state_nil | now left]. }
  destruct (Py.contains _ ex.2) eqn:Hc.
  { exists (IssueSyncer.state self), []. split; [now rewrite with_state_nil | now left]. }
  eexists _, _. split; [reflexivity|]. right. split; [reflexivity|]. exists ex. auto.
Qed.

Lemma with_state_with_state (self : IssueSyncer.t C) m1 e1 m2 e2 :
  with_state (with_state self m1 e1) m2 e2 = with_state self m2 (e1 ++ e2).
Proof. unfold with_state. cbn. now rewrite app_assoc. Qed.

Lemma build_plan_from_skips (issue : Issue) (n : Z) (body : string) (issues : list Issue) :
  Py.contains (hash_needle (content_hash issue)) body = true ->
  forall (plan : SyncPlan.t) (self : IssueSyncer.t C),
    IssueSyncer._existing_issues self !! id issue = Some (n, body) ->
    not_acted_on plan issue ->
    let r := build_plan_from false plan issues self in
    (exists m events, r.1 = with_state self m events /\ EvNeedsSync issue ∉ events) /\
    (forall plan', r.2 = Ok plan' ->
       not_acted_on plan' issue /\
       (issue ∈ issues \/ (issue, n) ∈ SyncPlan.skips plan -> (issue, n) ∈ SyncPlan.skips plan')).
Proof.
  intros Hneedle. induction issues as [|j issues IH]; intros plan self Hex Hq; cbn zeta.
  - cbn [build_plan_from]. split.
    + exists (IssueSyncer.state self), []. split; [now rewrite with_state_nil | apply not_elem_of_nil].
    + intros plan' [= <-]. split; [exact Hq|]. intros [H|H]; [now apply elem_of_nil in H | exact H].
  - cbn [build_plan_from]. unfold bindM.
    destruct (plan_step_frame false plan j self) as (m1 & ev1 & Hself1 & Hev1).
    assert (Hnot1 : EvNeedsSync issue ∉ ev1).
    { destruct Hev1 as [->|(-> & ex & Hlk & Hc)]; [apply not_elem_of_nil|].
      intros Hin. apply list_elem_of_singleton in Hin. injection Hin as ->.
      rewrite Hex in Hlk. injection Hlk as <-. cbn [snd] in Hc. congruence. }
    pose proof (f_equal snd (plan_step_cases false plan j self)) as Hcases.
    destruct (plan_step false plan j self) as [self1 [plan1|e]] eqn:Estep; cbn [fst snd] in *.
    2:{ split; [exists m1, ev1; auto | discriminate]. }
    subst self1.
    assert (Hstep : not_acted_on plan1 issue /\
                    (j = issue \/ (issue, n) ∈ SyncPlan.skips plan ->
                     (issue, n) ∈ SyncPlan.skips plan1)).
    { destruct Hq as [Hq1 Hq2].
      destruct (IssueSyncer._existing_issues self !! id j) as [ex|] eqn:Elk.
      - destruct (Py.contains (hash_needle (content_hash j)) ex.2) eqn:Hc.
        + cbn [snd] in Hcases. injection Hcases as ->. split; [split; [exact Hq1 | exact Hq2]|].
          cbn. intros [->|H]; [|set_solver].
          rewrite Hex in Elk. injection Elk as <-. set_solver.
        + assert (Hne : j <> issue).
          { intros ->. rewrite Hex in Elk. injection Elk as <-. cbn [snd] in Hc. congruence. }
          destruct (needs_sync j (IssueSyncer.state self)) as [m' [[]|e']];
            cbn [fst snd] in Hcases; try discriminate Hcases;
            injection Hcases as ->; (split; [split; cbn; [exact Hq1 | intros k; set_solver]|]);
            cbn; intros [->|H]; try contradiction; set_solver.
      - assert (Hne : j <> issue) by (intros ->; congruence).
        cbn [snd] in Hcases. injection Hcases as ->. split; [split; cbn; [set_solver | exact Hq2]|].
        cbn. intros [->|H]; [contradiction | exact H]. }
    destruct Hstep as [Hq' Hp'].
    destruct (IH plan1 (with_state self m1 ev1) Hex Hq') as [(m2 & ev2 & Hs2 & Hn2) Hres].
    split.
    + exists m2, (ev1 ++ ev2). rewrite Hs2, with_state_with_state. split; [reflexivity|].
      intros Hin. apply elem_of_app in Hin as [?|?]; contradiction.
    + intros plan' Hr. destruct (Hres plan' Hr) as [Hq'' Hp'']. split; [exact Hq''|].
      intros [Hin|Hin]; apply Hp''.
      * apply elem_of_cons in Hin as [->|Hin]; [right; apply Hp'; now left | now left].
      * right. apply Hp'. now right.
Qed.

End SelfHealing.

Section SelfHealingClaim.
Context {ext : Externals} {C : Type} {cli : Client C}.

(** C2. Self-healing reconciliation: when the remote body linked to the id
    of an issue contains the marker text of its current content hash, the
    planner (without force) puts the issue in the skips, with the remote
    number, in neither the creates nor the updates, and whatever the state
    store holds it does not ask the store [needs_sync] for that issue. *)
Theorem self_healing_skip (self : IssueSyncer.t C) (issues : list Issue) (issue : Issue)
    (n : Z) (body : string) :
  issue ∈ issues ->
  IssueSyncer._existing_issues self !! id issue = Some (n, body) ->
  Py.contains (hash_needle (content_hash issue)) body = true ->
  (forall plan, plan_step false plan issue self = (self, Ok (add_skip plan issue n))) /\
  (exists m events,
      (_build_plan issues false self).1 = with_state self m events /\
      EvNeedsSync issue ∉ events) /\
  (forall plan, (_build_plan issues false self).2 = Ok plan ->
      (issue, n) ∈ SyncPlan.skips plan /\
      issue ∉ SyncPlan.creates plan /\
      forall k, (issue, k) ∉ SyncPlan.updates plan).
Proof.
  intros Hin Hex Hneedle. split.
  - intros plan. rewrite plan_step_cases, Hex. cbn [fst snd]. now rewrite Hneedle.
  - assert (Hq : not_acted_on SyncPlan.empty issue).
    { split; [apply not_elem_of_nil | intros k; apply not_elem_of_nil]. }
    destruct (build_plan_from_skips issue n body issues Hneedle SyncPlan.empty self Hex Hq)
      as [Htrace Hplan].
    split; [exact Htrace|]. intros plan Hr.
    destruct (Hplan plan Hr) as [[Hc Hu] Hs]. split; [apply Hs; now left|]. now split.
Qed.

End SelfHealingClaim.

Lemma self_healing_skip_witness :
  (exists m events,
      (@_build_plan ext0 _ [lone_epic] false syncer_with_epic).1
        = with_state syncer_with_epic m events /\
      EvNeedsSync lone_epic ∉ events) /\
  (forall plan, (@_build_plan ext0 _ [lone_epic] false syncer_with_epic).2 = Ok plan ->
      (lone_epic, 1001%Z) ∈ SyncPlan.skips plan /\
      lone_epic ∉ SyncPlan.creates plan /\
      forall k, (lone_epic, k) ∉ SyncPlan.updates plan).
Proof.
  refine (proj2 (@self_healing_skip ext0 _ syncer_with_epic [lone_epic] lone_epic 1001%Z
                   (body_of (@_render_body ext0 _ (new_syncer no_files) lone_epic
                               (IssueIndex.init [lone_epic]))) _ _ _)).
  - apply list_elem_of_here.
  - vm_compute. reflexivity.
  - vm_compute. reflexivity.
Defined.
Section ViewFacts.
Context {ext : Externals}.

Lemma view_loaded m s : loaded m s -> view m = Some s.
Proof. intros H. unfold view. now rewrite (state_loaded m s H). Qed.

Lemma record_in_loaded m s k : loaded m s -> record_in m k = SyncState.records s !! k.
Proof. intros H. unfold record_in. now rewrite (view_loaded m s H). Qed.

Lemma mark_started_view m s issue_id action :
  view m = Some s ->
  exists s',
    mark_started issue_id action m = ((mark_started issue_id action m).1, Ok tt) /\
    loaded (mark_started issue_id action m).1 s' /\
    SyncState.records s' =
      <[issue_id := started_record issue_id action (StateManager.ticks m)]> (SyncState.records s).
Proof.
  unfold view, loaded. unfold_state_ops.
  destruct (StateManager._state m) as [s0|] eqn:E; simpl.
  - intros [= ->]. eexists. split; [reflexivity|]. split; reflexivity.
  - destruct (StateManager.file m); simpl.
    + intros [= <-]. eexists. split; [reflexivity|]. split; reflexivity.
    + discriminate.
    + destruct (SyncState_from_dict data) as [s0|]; simpl; [|discriminate].
      intros [= ->]. eexists. split; [reflexivity|]. split; reflexivity.
Qed.

Lemma record_in_after_update m s issue_id f k :
  record_in (after_update m s issue_id f) k =
    if decide (issue_id = k) then f <$> (SyncState.records s !! issue_id)
    else SyncState.records s !! k.
Proof.
  rewrite (record_in_loaded _ _ k (loaded_after_update m s issue_id f)).
  unfold update_record. destruct (SyncState.records s !! issue_id) eqn:E; cbn.
  - destruct (decide (issue_id = k)) as [->|Hne];
      [now rewrite lookup_insert_eq | now rewrite lookup_insert_ne].
  - destruct (decide (issue_id = k)) as [->|Hne]; [now rewrite E | reflexivity].
Qed.

Lemma update_record_lookup s issue_id f k :
  SyncState.records (update_record s issue_id f) !! k =
    if decide (issue_id = k) then f <$> (SyncState.records s !! issue_id)
    else SyncState.records s !! k.
Proof.
  unfold update_record. destruct (SyncState.records s !! issue_id) eqn:E; cbn.
  - destruct (decide (issue_id = k)) as [->|Hne];
      [now rewrite lookup_insert_eq | now rewrite lookup_insert_ne].
  - destruct (decide (issue_id = k)) as [->|Hne]; [now rewrite E | reflexivity].
Qed.

End ViewFacts.

Section ExecutionFacts.
Context {ext : Externals} {C : Type} {cli : Client C}.

Ltac syncer_fields :=
  unfold with_client, with_state, with_existing in *;
  cbn [fst snd IssueSyncer.client IssueSyncer.loader IssueSyncer.state IssueSyncer._milestones
       IssueSyncer._labels IssueSyncer._existing_issues IssueSyncer.trace] in *.

Ltac close_handler :=
  unfold on_failure; rewrite ?call_state_eq; syncer_fields;
  match goal with
  | |- context [mark_failed ?i ?m ?s] => destruct (mark_failed i m s) as [? [[]|?]]
  end; reflexivity.

(** [_create_issue] and [_update_issue], step by step. *)
Lemma run_action_eq (index : IssueIndex.t) (a : remote_action) (self : IssueSyncer.t C) :
  run_action index a self =
    let r1 := mark_started (action_id a) (action_kind a) (IssueSyncer.state self) in
    let s1 := with_state self r1.1 [EvMarkStarted (action_id a) (action_kind a)] in
    match r1.2 with
    | Raise e => (s1, Raise e)
    | Ok _ =>
        match _render_body s1 (action_issue a) index with
        | Raise e => on_failure (action_issue a) e s1
        | Ok body =>
            let rc := remote_call a body s1 in
            let s2 := with_client s1 rc.1 [remote_event a body s1] in
            match rc.2 with
            | Raise e => on_failure (action_issue a) e s2
            | Ok gh_issue => on_success (action_issue a) gh_issue s2
            end
        end
    end.
Proof.
  destruct a as [issue|issue number]; unfold run_action, action_id, action_kind, action_issue,
    remote_call, remote_event.
  - unfold _create_issue, bindM, try_reraise, get_, lift_result. rewrite call_state_eq.
    cbn zeta. destruct (mark_started (id issue) CREATE (IssueSyncer.state self)) as [m1 [[]|e1]];
      cbn [fst snd]; [|reflexivity].
    destruct (_render_body _ issue index) as [body|e]; [|close_handler].
    unfold remote_create, create_event, call_client, record, modify, bindM, on_success.
    cbn [fst snd].
    destruct (create_issue _ _ _ _ _) as [c' [gh|e]]; cbn [fst snd]; [|close_handler].
    unfold set_existing, modify. rewrite call_state_eq. cbn [fst snd].
    syncer_fields.
    destruct (mark_completed _ _ _ _) as [m4 [[]|e4]]; cbn [fst snd]; [reflexivity|close_handler].
  - unfold _update_issue, bindM, try_reraise, get_, lift_result. rewrite call_state_eq.
    cbn zeta. destruct (mark_started (id issue) UPDATE (IssueSyncer.state self)) as [m1 [[]|e1]];
      cbn [fst snd]; [|reflexivity].
    destruct (_render_body _ issue index) as [body|e]; [|close_handler].
    unfold remote_update, update_event, call_client, record, modify, bindM, on_success.
    cbn [fst snd].
    destruct (update_issue _ _ _ _ _ _ _) as [c' [gh|e]]; cbn [fst snd]; [|close_handler].
    unfold set_existing, modify. rewrite call_state_eq. cbn [fst snd].
    syncer_fields.
    destruct (mark_completed _ _ _ _) as [m4 [[]|e4]]; cbn [fst snd]; [reflexivity|close_handler].
Qed.

Lemma bindM_unfold {S A B : Type} (c : M S A) (k : A -> M S B) (s : S) :
  bindM c k s = match c s with (s', Ok a) => k a s' | (s', Raise e) => (s', Raise e) end.
Proof. reflexivity. Qed.

Lemma for_each_app {S A : Type} (l1 l2 : list A) (body : A -> M S unit) (s : S) :
  for_each (l1 ++ l2) body s = (for_each l1 body ;; for_each l2 body) s.
Proof.
  revert s. induction l1 as [|x l1 IH]; intros s; [reflexivity|].
  cbn [for_each app]. unfold bindM. destruct (body x s) as [s' [[]|e]]; [|reflexivity].
  rewrite IH. reflexivity.
Qed.

Lemma for_each_map {S A B : Type} (f : A -> B) (l : list A) (body : B -> M S unit) (s : S) :
  for_each (List.map f l) body s = for_each l (fun x => body (f x)) s.
Proof.
  revert s. induction l as [|x l IH]; intros s; [reflexivity|].
  cbn [for_each List.map]. unfold bindM. destruct (body (f x) s) as [s' [[]|e]]; [|reflexivity].
  apply IH.
Qed.

(** A loop stops at the first iteration that raises. *)
Lemma for_each_raises {S A : Type} (done rest : list A) (x : A) (body : A -> M S unit)
    (s s1 s2 : S) (e : exn) :
  for_each done body s = (s1, Ok tt) ->
  body x s1 = (s2, Raise e) ->
  for_each (done ++ x :: rest) body s = (s2, Raise e).
Proof.
  intros Hdone Hx. rewrite for_each_app. unfold bindM. rewrite Hdone.
  cbn [for_each]. unfold bindM. now rewrite Hx.
Qed.

Lemma execute_plan_eq (plan : SyncPlan.t) (index : IssueIndex.t) (self : IssueSyncer.t C) :
  _execute_plan plan index self =
    (for_each (remote_actions plan) (run_action index) ;;
     for_each (SyncPlan.skips plan) (fun '(issue, number) => execute_skip issue number)) self.
Proof.
  unfold _execute_plan, remote_actions. rewrite !(bindM_unfold _ _ self).
  rewrite for_each_app, bindM_unfold, for_each_map. cbn [run_action].
  destruct (for_each (SyncPlan.creates plan) _ self) as [s1 [[]|e]]; [|reflexivity].
  rewrite bindM_unfold, for_each_map.
  replace (for_each (SyncPlan.updates plan)
             (fun x => @run_action ext C cli index
                         (let '(issue, number) := x in DoUpdate issue number)) s1)
    with (for_each (SyncPlan.updates plan)
            (fun '(issue, number) => _update_issue issue number index) s1); [reflexivity|].
  generalize s1. induction (SyncPlan.updates plan) as [|[i n] l IH]; intros s; [reflexivity|].
  cbn [for_each]. unfold bindM. cbn [run_action].
  destruct (_update_issue i n index s) as [s' [[]|e]]; [apply IH|reflexivity].
Qed.

Lemma render_body_with_state (self : IssueSyncer.t C) m ev issue index :
  _render_body (with_state self m ev) issue index = _render_body self issue index.
Proof. reflexivity. Qed.

Lemma remote_call_with_state a body (self : IssueSyncer.t C) m ev :
  remote_call a body (with_state self m ev) = remote_call a body self.
Proof. destruct a; reflexivity. Qed.

Lemma remote_event_with_state a body (self : IssueSyncer.t C) m ev :
  remote_event a body (with_state self m ev) = remote_event a body self.
Proof. destruct a; reflexivity. Qed.

Lemma on_failure_loaded issue e (self : IssueSyncer.t C) s :
  loaded (IssueSyncer.state self) s ->
  on_failure issue e self =
    (with_state self
       (after_update (IssueSyncer.state self) s (id issue)
          (fun r => failed_record r (exn_msg e) (StateManager.ticks (IssueSyncer.state self))))
       [EvMarkFailed (id issue) (exn_msg e)],
     Raise e).
Proof. intros L. unfold on_failure. rewrite (mark_failed_loaded _ _ _ _ L). reflexivity. Qed.

Lemma on_success_loaded issue gh (self : IssueSyncer.t C) s :
  loaded (IssueSyncer.state self) s ->
  on_success issue gh self =
    (with_state (with_existing self (id issue) (GitHubIssue.number gh) (GitHubIssue.body gh))
       (after_update (IssueSyncer.state self) s (id issue)
          (fun r => completed_record r (GitHubIssue.number gh) (content_hash issue)
                      (StateManager.ticks (IssueSyncer.state self))))
       [EvMarkCompleted (id issue) (GitHubIssue.number gh) (content_hash issue)],
     Ok tt).
Proof.
  intros L. unfold on_success, with_existing. cbn [IssueSyncer.state].
  rewrite (mark_completed_loaded _ _ _ _ _ L). reflexivity.
Qed.

Ltac started_then_updated s1 R1 :=
  eexists; split; [exact (loaded_after_update _ _ _ _)|]; split;
  [ intros j Hj; rewrite update_record_lookup;
    destruct (decide _) as [Heq|_]; [congruence|];
    rewrite R1, lookup_insert_ne by congruence; reflexivity
  | eexists; split;
    [ rewrite update_record_lookup, decide_True by reflexivity;
      rewrite R1, lookup_insert_eq; reflexivity
    | cbn; repeat split ] ].

(** Whatever a create or update does, it leaves its issue completed when
    it returns and failed, with the message of the exception, when it
    raises; no other record changes. *)
Lemma run_action_outcome index a (self : IssueSyncer.t C) s :
  view (IssueSyncer.state self) = Some s ->
  exists s',
    loaded (IssueSyncer.state (run_action index a self).1) s' /\
    (forall j, j <> action_id a -> SyncState.records s' !! j = SyncState.records s !! j) /\
    exists r, SyncState.records s' !! action_id a = Some r /\
      SyncRecord.action r = action_kind a /\
      match (run_action index a self).2 with
      | Ok _ => SyncRecord.status r = COMPLETED /\
                SyncRecord.content_hash r = Some (content_hash (action_issue a))
      | Raise e => SyncRecord.status r = FAILED /\ SyncRecord.error r = Some (exn_msg e)
      end.
Proof.
  intros Hv. rewrite run_action_eq. cbn zeta.
  destruct (mark_started_view _ _ (action_id a) (action_kind a) Hv) as (s1 & E1 & L1 & R1).
  destruct (mark_started (action_id a) (action_kind a) (IssueSyncer.state self)) as [m1 r1].
  cbn [fst snd] in *. injection E1 as ->. unfold action_id in *.
  rewrite render_body_with_state.
  destruct (_render_body self (action_issue a) index) as [body|e].
  - rewrite remote_call_with_state.
    destruct (remote_call a body self) as [c' [gh|e]]; cbn [fst snd].
    + rewrite (on_success_loaded _ _ _ s1) by exact L1. cbn [fst snd].
      started_then_updated s1 R1.
    + rewrite (on_failure_loaded _ _ _ s1) by exact L1. cbn [fst snd].
      started_then_updated s1 R1.
  - rewrite (on_failure_loaded _ _ _ s1) by exact L1. cbn [fst snd].
    started_then_updated s1 R1.
Qed.

(** A remote call that raises: what the action leaves behind. *)
Lemma run_action_fails index a (self : IssueSyncer.t C) s body c' e :
  view (IssueSyncer.state self) = Some s ->
  _render_body self (action_issue a) index = Ok body ->
  remote_call a body self = (c', Raise e) ->
  exists m2,
    run_action index a self =
      (IssueSyncer.mk c' (IssueSyncer.loader self) m2 (IssueSyncer._milestones self)
         (IssueSyncer._labels self) (IssueSyncer._existing_issues self)
         (IssueSyncer.trace self ++
            [EvMarkStarted (action_id a) (action_kind a); remote_event a body self;
             EvMarkFailed (action_id a) (exn_msg e)]),
       Raise e).
Proof.
  intros Hv Hbody Hcall. rewrite run_action_eq. cbn zeta.
  destruct (mark_started_view _ _ (action_id a) (action_kind a) Hv) as (s1 & E1 & L1 & R1).
  destruct (mark_started (action_id a) (action_kind a) (IssueSyncer.state self)) as [m1 r1].
  cbn [fst snd] in *. injection E1 as ->.
  rewrite render_body_with_state, Hbody. cbv beta iota.
  rewrite remote_call_with_state, Hcall. cbn [fst snd].
  rewrite (on_failure_loaded _ _ _ s1) by exact L1.
  rewrite remote_event_with_state. eexists. unfold with_state, with_client, action_id.
  cbn [IssueSyncer.client IssueSyncer.loader IssueSyncer.state IssueSyncer._milestones
       IssueSyncer._labels IssueSyncer._existing_issues IssueSyncer.trace].
  rewrite <- !app_assoc. reflexivity.
Qed.

(** After creates and updates that all returned, their issues are
    completed and no other record has changed. *)
Lemma actions_completed index done (self self1 : IssueSyncer.t C) s :
  view (IssueSyncer.state self) = Some s ->
  for_each done (run_action index) self = (self1, Ok tt) ->
  exists s1, view (IssueSyncer.state self1) = Some s1 /\
    (forall b, b ∈ done ->
       SyncRecord.status <$> (SyncState.records s1 !! action_id b) = Some COMPLETED) /\
    (forall j, j ∉ action_id <$> done -> SyncState.records s1 !! j = SyncState.records s !! j).
Proof.
  revert self s. induction done as [|b done IH]; intros self s Hv Hrun.
  - injection Hrun as <-. exists s. split; [exact Hv|]. split; [|reflexivity].
    intros b Hb. now apply elem_of_nil in Hb.
  - cbn [for_each] in Hrun. rewrite bindM_unfold in Hrun.
    destruct (run_action_outcome index b self s Hv) as (s' & L & Hother & r & Hr & _ & Hres).
    destruct (run_action index b self) as [self' [[]|e]]; [|discriminate].
    cbn [fst snd] in *. destruct Hres as [Hst _].
    destruct (IH self' s' (view_loaded _ _ L) Hrun) as (s1 & Hv1 & Hdone & Hframe).
    exists s1. split; [exact Hv1|]. split.
    + intros b' Hb'. apply elem_of_cons in Hb' as [->|Hb']; [|now apply Hdone].
      destruct (decide (action_id b ∈ action_id <$> done)) as [Hin|Hnin].
      * apply list_elem_of_fmap in Hin as (b'' & -> & Hb''). now apply Hdone.
      * rewrite (Hframe _ Hnin), Hr. cbn. now rewrite Hst.
    + intros j Hj. rewrite fmap_cons in Hj. apply not_elem_of_cons in Hj as [Hne Hj].
      rewrite (Hframe _ Hj). now apply Hother.
Qed.

End ExecutionFacts.

Section ExecutionTheorems.
Context {ext : Externals} {C : Type} {cli : Client C}.

(** [_execute_plan] stops at the first create or update whose remote call
    raises: the exception leaves [_execute_plan] as it is, the last events
    are the start of the action, the remote call and the failure mark, the
    record of the issue is failed with the message of the exception, the
    issues of the actions that ran before are completed, and no other record
    has changed since the plan started. *)
Theorem failing_action_stops_plan (plan : SyncPlan.t) (index : IssueIndex.t)
    (self self1 : IssueSyncer.t C) (s : SyncState.t) (done rest : list remote_action)
    (a : remote_action) (body : string) (c' : C) (e : exn) :
  view (IssueSyncer.state self) = Some s ->
  remote_actions plan = done ++ a :: rest ->
  for_each done (run_action index) self = (self1, Ok tt) ->
  _render_body self1 (action_issue a) index = Ok body ->
  remote_call a body self1 = (c', Raise e) ->
  exists m2 s2 r,
    _execute_plan plan index self =
      (IssueSyncer.mk c' (IssueSyncer.loader self1) m2 (IssueSyncer._milestones self1)
         (IssueSyncer._labels self1) (IssueSyncer._existing_issues self1)
         (IssueSyncer.trace self1 ++
            [EvMarkStarted (action_id a) (action_kind a); remote_event a body self1;
             EvMarkFailed (action_id a) (exn_msg e)]),
       Raise e) /\
    loaded m2 s2 /\
    SyncState.records s2 !! action_id a = Some r /\
    SyncRecord.status r = FAILED /\
    SyncRecord.error r = Some (exn_msg e) /\
    (forall b, b ∈ done -> action_id b <> action_id a ->
       SyncRecord.status <$> (SyncState.records s2 !! action_id b) = Some COMPLETED) /\
    (forall j, j ∉ action_id <$> (done ++ [a]) ->
       SyncState.records s2 !! j = SyncState.records s !! j).
Proof.
  intros Hv Hplan Hdone Hbody Hcall.
  destruct (actions_completed index done self self1 s Hv Hdone) as (s1 & Hv1 & Hcompleted & Hframe).
  destruct (run_action_fails index a self1 s1 body c' e Hv1 Hbody Hcall) as (m2 & Hrun).
  destruct (run_action_outcome index a self1 s1 Hv1) as (s2 & L2 & Hother & r & Hr & _ & Hres).
  rewrite Hrun in L2, Hres. cbn [fst snd IssueSyncer.state] in L2, Hres.
  destruct Hres as [Hst Herr].
  exists m2, s2, r. split.
  - rewrite execute_plan_eq, bindM_unfold, Hplan.
    now rewrite (for_each_raises done rest a _ self self1 _ e Hdone Hrun).
  - split; [exact L2|]. split; [exact Hr|]. split; [exact Hst|]. split; [exact Herr|]. split.
    + intros b Hb Hne. rewrite (Hother _ Hne). now apply Hcompleted.
    + intros j Hj. rewrite fmap_app in Hj. apply not_elem_of_app in Hj as [Hj Hja].
      cbn in Hja. apply not_elem_of_cons in Hja as [Hne _].
      rewrite (Hother _ Hne). now apply Hframe.
Qed.

End ExecutionTheorems.

(** Three creates on a remote that serves one: the first issue is completed,
    the second failed with the text of the error, the third has no record. *)
Lemma failing_action_stops_plan_witness :
  let index := IssueIndex.init (SyncPlan.creates three_creates) in
  let r := @_execute_plan ext0 _ _ three_creates index flaky_syncer in
  r.2 = Raise (GitHubError "Internal Server Error") /\
  status_of (IssueSyncer.state r.1) "A-1" = Some COMPLETED /\
  status_of (IssueSyncer.state r.1) "A-2" = Some FAILED /\
  status_of (IssueSyncer.state r.1) "A-3" = None.
Proof.
  intros index r.
  pose (p1 := @run_action ext0 _ _ index (DoCreate (plain_issue "A-1" [] None [])) flaky_syncer).
  pose (b2 := body_of (@_render_body ext0 _ p1.1 (plain_issue "A-2" [] None []) index)).
  destruct (@failing_action_stops_plan ext0 _ _ three_creates index flaky_syncer p1.1
              (@fresh_state ext0 0) [DoCreate (plain_issue "A-1" [] None [])]
              [DoCreate (plain_issue "A-3" [] None [])] (DoCreate (plain_issue "A-2" [] None []))
              b2 (IssueSyncer.client p1.1) (GitHubError "Internal Server Error"))
    as (m2 & s2 & r2 & Hrun & Hloaded & Hr & Hst & Herr & Hcompleted & Hframe).
  - vm_compute. reflexivity.
  - reflexivity.
  - vm_compute. reflexivity.
  - vm_compute. reflexivity.
  - vm_compute. reflexivity.
  - subst r. rewrite Hrun. cbn [fst snd IssueSyncer.state]. unfold status_of. rewrite Hloaded.
    split; [reflexivity|]. split; [|split].
    + apply (Hcompleted (DoCreate (plain_issue "A-1" [] None []))).
      * apply list_elem_of_here.
      * discriminate.
    + change "A-2" with (action_id (DoCreate (plain_issue "A-2" [] None []))).
      rewrite Hr. cbn. now rewrite Hst.
    + rewrite (Hframe "A-3"); [reflexivity|].
      cbn. intros Hin. apply elem_of_cons in Hin as [Hin|Hin]; [discriminate|].
      apply elem_of_cons in Hin as [Hin|Hin]; [discriminate|]. now apply elem_of_nil in Hin.
Defined.

Section SkipFacts.
Context {ext : Externals} {C : Type} {cli : Client C}.

Lemma execute_skip_view issue number (self : IssueSyncer.t C) s :
  view (IssueSyncer.state self) = Some s ->
  exists m2 s2 r,
    execute_skip issue number self =
      (with_state self m2 [EvMarkStarted (id issue) SKIP; EvMarkSkipped (id issue) number],
       Ok tt) /\
    loaded m2 s2 /\
    SyncState.records s2 !! id issue = Some r /\
    SyncRecord.status r = SKIPPED /\ SyncRecord.action r = SKIP /\
    SyncRecord.github_number r = Some number /\
    (forall j, j <> id issue -> SyncState.records s2 !! j = SyncState.records s !! j).
Proof.
  intros Hv. unfold execute_skip. rewrite bindM_unfold, call_state_eq.
  destruct (mark_started_view _ _ (id issue) SKIP Hv) as (s1 & E1 & L1 & R1).
  destruct (mark_started (id issue) SKIP (IssueSyncer.state self)) as [m1 r1].
  cbn [fst snd] in *. injection E1 as ->. rewrite call_state_eq.
  replace (IssueSyncer.state (with_state self m1 [EvMarkStarted (id issue) SKIP]))
    with m1 by reflexivity.
  rewrite (mark_skipped_loaded m1 s1 _ _ L1). cbn [fst snd].
  rewrite with_state_with_state. eexists _, _, _. split; [reflexivity|].
  split; [exact (loaded_after_update _ _ _ _)|]. split.
  - rewrite update_record_lookup, decide_True by reflexivity.
    rewrite R1, lookup_insert_eq. reflexivity.
  - cbn. repeat split. intros j Hj. rewrite update_record_lookup.
    destruct (decide _) as [Heq|_]; [congruence|].
    rewrite R1, lookup_insert_ne by congruence. reflexivity.
Qed.

Lemma skip_loop (skips : list (Issue * Z)) (self : IssueSyncer.t C) s :
  view (IssueSyncer.state self) = Some s ->
  exists m2 s2,
    for_each skips (fun '(issue, number) => execute_skip issue number) self =
      (with_state self m2 (skip_events skips), Ok tt) /\
    view m2 = Some s2 /\
    (forall entry, entry ∈ skips ->
       exists r entry',
         SyncState.records s2 !! skip_id entry = Some r /\
         SyncRecord.status r = SKIPPED /\ SyncRecord.action r = SKIP /\
         entry' ∈ skips /\ skip_id entry' = skip_id entry /\
         SyncRecord.github_number r = Some entry'.2) /\
    (forall j, j ∉ skip_id <$> skips -> SyncState.records s2 !! j = SyncState.records s !! j).
Proof.
  revert self s. induction skips as [|[issue number] skips IH]; intros self s Hv.
  - exists (IssueSyncer.state self), s. split; [cbn; now rewrite with_state_nil|].
    split; [exact Hv|]. split; [|reflexivity].
    intros entry Hin. now apply elem_of_nil in Hin.
  - destruct (execute_skip_view issue number self s Hv)
      as (m1 & s1 & r1 & Hskip & L1 & Hr1 & Hst & Hact & Hnum & Hother).
    destruct (IH (with_state self m1 [EvMarkStarted (id issue) SKIP;
                                      EvMarkSkipped (id issue) number]) s1
                (view_loaded _ _ L1)) as (m2 & s2 & Hloop & Hv2 & Hmarked & Hframe).
    exists m2, s2. split.
    { cbn [for_each]. rewrite bindM_unfold, Hskip, Hloop.
      now rewrite with_state_with_state. }
    split; [exact Hv2|]. split.
    + intros entry Hin. apply elem_of_cons in Hin as [->|Hin].
      * destruct (decide (skip_id (issue, number) ∈ skip_id <$> skips)) as [Hdup|Hfresh].
        -- apply list_elem_of_fmap in Hdup as (other & Hid & Hother_in).
           destruct (Hmarked other Hother_in) as (r & entry' & Hr & ? & ? & ? & ? & ?).
           exists r, entry'. rewrite Hid. repeat split; try assumption.
           now apply list_elem_of_further.
        -- exists r1, (issue, number). rewrite (Hframe _ Hfresh).
           repeat split; try assumption. apply list_elem_of_here.
      * destruct (Hmarked entry Hin) as (r & entry' & Hr & ? & ? & ? & ? & ?).
        exists r, entry'. repeat split; try assumption. now apply list_elem_of_further.
    + intros j Hj. rewrite fmap_cons in Hj. apply not_elem_of_cons in Hj as [Hne Hj].
      rewrite (Hframe _ Hj). now apply Hother.
Qed.

(** Once the creates and updates of a plan have returned, [_execute_plan]
    returns too, and its loop over the skips touches nothing but the state
    store and the trace: per entry a start and a skip are recorded, in this
    order and with nothing between them; the record of a skipped issue has
    the action SKIP, the status SKIPPED and the number of an entry of the
    plan for that issue; the records of the other issues stay as they
    were. *)
Theorem skips_only_mark_the_store (plan : SyncPlan.t) (index : IssueIndex.t)
    (self self1 : IssueSyncer.t C) (s1 : SyncState.t) :
  for_each (remote_actions plan) (run_action index) self = (self1, Ok tt) ->
  view (IssueSyncer.state self1) = Some s1 ->
  exists m2 s2,
    _execute_plan plan index self =
      (IssueSyncer.mk (IssueSyncer.client self1) (IssueSyncer.loader self1) m2
         (IssueSyncer._milestones self1) (IssueSyncer._labels self1)
         (IssueSyncer._existing_issues self1)
         (IssueSyncer.trace self1 ++ skip_events (SyncPlan.skips plan)),
       Ok tt) /\
    view m2 = Some s2 /\
    (forall entry, entry ∈ SyncPlan.skips plan ->
       exists r entry',
         SyncState.records s2 !! skip_id entry = Some r /\
         SyncRecord.status r = SKIPPED /\ SyncRecord.action r = SKIP /\
         entry' ∈ SyncPlan.skips plan /\ skip_id entry' = skip_id entry /\
         SyncRecord.github_number r = Some entry'.2) /\
    (forall j, j ∉ skip_id <$> SyncPlan.skips plan ->
       SyncState.records s2 !! j = SyncState.records s1 !! j).
Proof.
  intros Hrun Hv.
  destruct (skip_loop (SyncPlan.skips plan) self1 s1 Hv) as (m2 & s2 & Hloop & Hrest).
  exists m2, s2. split; [|exact Hrest].
  rewrite execute_plan_eq, bindM_unfold, Hrun. exact Hloop.
Qed.

End SkipFacts.

(** A plan of two skips, run on a new syncer. *)
Lemma skips_only_mark_the_store_witness :
  let plan := SyncPlan.mk [] [] [(lone_epic, 7%Z); (story_with_links, 8%Z)] in
  let r := @_execute_plan ext0 _ _ plan (IssueIndex.init []) (new_syncer no_files) in
  r.2 = Ok tt /\
  IssueSyncer.client r.1 = DryRunClient.init "owner" "repo" /\
  IssueSyncer.trace r.1 = [EvMarkStarted "EPIC-1" SKIP; EvMarkSkipped "EPIC-1" 7;
                           EvMarkStarted "STORY-1" SKIP; EvMarkSkipped "STORY-1" 8].
Proof.
  intros plan r.
  destruct (@skips_only_mark_the_store ext0 _ _ plan (IssueIndex.init []) (new_syncer no_files)
              (new_syncer no_files) (@fresh_state ext0 0))
    as (m2 & s2 & Hrun & _).
  - reflexivity.
  - reflexivity.
  - subst r. rewrite Hrun. repeat split.
Defined.

Section SyncFacts.
Context {ext : Externals} {C : Type} {cli : Client C}.

Lemma summary_view m st :
  view m = Some st ->
  exists m', summary m = (m', Ok (summary_of st)) /\ loaded m' st /\
             StateManager.file m' = StateManager.file m.
Proof.
  destruct m as [f [s0|] n]; unfold view, loaded, summary_of; unfold_state_ops.
  - intros [= ->]. eexists. split; [reflexivity|]. split; reflexivity.
  - destruct f; simpl.
    + intros [= <-]. eexists. split; [reflexivity|]. split; reflexivity.
    + discriminate.
    + destruct (SyncState_from_dict data) as [s0|]; simpl; [|discriminate].
      intros [= ->]. eexists. split; [reflexivity|]. split; reflexivity.
Qed.

(** When the plan holds no create and no update, [sync] returns the summary
    of the state store as it is: the skips of the plan are not executed, the
    run is not marked completed, and the state file is not written. *)
Theorem sync_nothing_to_do (force : bool) (self s1 s2 : IssueSyncer.t C) (issues : list Issue)
    (plan : SyncPlan.t) (st : SyncState.t) :
  _load_github_state self = (s1, Ok tt) ->
  IssueLoader.load_all_issues (IssueSyncer.loader s1) = Ok issues ->
  _build_plan (topological_sort issues) force s1 = (s2, Ok plan) ->
  SyncPlan.actions_needed plan = 0 ->
  view (IssueSyncer.state s2) = Some st ->
  exists m3,
    sync force self =
      (IssueSyncer.mk (IssueSyncer.client s2) (IssueSyncer.loader s2) m3
         (IssueSyncer._milestones s2) (IssueSyncer._labels s2) (IssueSyncer._existing_issues s2)
         (IssueSyncer.trace s2 ++ [EvSummary]),
       Ok (summary_of st)) /\
    loaded m3 st /\
    StateManager.file m3 = StateManager.file (IssueSyncer.state s2).
Proof.
  intros Hload Hissues Hplan Hnone Hv.
  destruct (summary_view _ _ Hv) as (m3 & Hsum & L3 & Hfile).
  exists m3. split; [|split; assumption].
  unfold sync. rewrite bindM_unfold, Hload. unfold get_ at 1. rewrite bindM_unfold.
  unfold lift_result. rewrite bindM_unfold, Hissues, bindM_unfold, Hplan, Hnone.
  cbn [Nat.eqb]. rewrite call_state_eq, Hsum. reflexivity.
Qed.

Lemma mark_run_completed_view m st :
  view m = Some st ->
  exists m' t,
    mark_run_completed m = (m', Ok tt) /\
    loaded m' (SyncState.mk (SyncState.run_id st) (SyncState.started_at st) (Some (utcnow t))
                 (SyncState.records st)) /\
    StateManager.file m' =
      Parsed (SyncState_to_dict
                (SyncState.mk (SyncState.run_id st) (SyncState.started_at st)
                   (Some (utcnow t)) (SyncState.records st))).
Proof.
  destruct m as [f [s0|] n]; unfold view, loaded; unfold_state_ops.
  - intros [= ->]. eexists _, _. split; [reflexivity|]. split; reflexivity.
  - destruct f; simpl.
    + intros [= <-]. eexists _, _. split; [reflexivity|]. split; reflexivity.
    + discriminate.
    + destruct (SyncState_from_dict data) as [s0|]; simpl; [|discriminate].
      intros [= ->]. eexists _, _. split; [reflexivity|]. split; reflexivity.
Qed.

Lemma run_action_returns index a (self self' : IssueSyncer.t C) :
  run_action index a self = (self', Ok tt) ->
  exists s', loaded (IssueSyncer.state self') s'.
Proof.
  rewrite run_action_eq. cbn zeta.
  destruct (mark_started (action_id a) (action_kind a) (IssueSyncer.state self))
    as [m1 [[]|e1]] eqn:E1; cbn [fst snd]; [|discriminate].
  destruct (mark_started_returns _ _ _ _ E1) as (s0 & L1).
  set (s1 := set_records s0 _) in L1.
  rewrite render_body_with_state.
  destruct (_render_body self (action_issue a) index) as [body|e].
  - rewrite remote_call_with_state.
    destruct (remote_call a body self) as [c' [gh|e]]; cbn [fst snd].
    + rewrite (on_success_loaded _ _ _ s1) by exact L1. intros [= <-]. eexists.
      exact (loaded_after_update _ _ _ _).
    + rewrite (on_failure_loaded _ _ _ s1) by exact L1. discriminate.
  - rewrite (on_failure_loaded _ _ _ s1) by exact L1. discriminate.
Qed.

Lemma actions_return index done (self self' : IssueSyncer.t C) :
  done <> [] ->
  for_each done (run_action index) self = (self', Ok tt) ->
  exists s', loaded (IssueSyncer.state self') s'.
Proof.
  revert self. induction done as [|a done IH]; intros self Hne Hrun; [congruence|].
  cbn [for_each] in Hrun. rewrite bindM_unfold in Hrun.
  destruct (run_action index a self) as [self1 [[]|e]] eqn:Ha; [|discriminate].
  destruct done as [|b done].
  - injection Hrun as <-. exact (run_action_returns _ _ _ _ Ha).
  - apply (IH self1); [discriminate|exact Hrun].
Qed.

(** When the plan holds a create or an update and every step of [sync]
    returns, [sync] marks the run completed after the plan and returns the
    summary: the stored state has the completion time set, its records are
    those the plan left, and it is saved to the state file. *)
Theorem sync_marks_run_completed (force : bool) (self s1 s2 s3 s4 : IssueSyncer.t C)
    (issues : list Issue) (plan : SyncPlan.t) :
  _load_github_state self = (s1, Ok tt) ->
  IssueLoader.load_all_issues (IssueSyncer.loader s1) = Ok issues ->
  _build_plan (topological_sort issues) force s1 = (s2, Ok plan) ->
  SyncPlan.actions_needed plan <> 0 ->
  (_ensure_labels ;; _ensure_milestones) s2 = (s3, Ok tt) ->
  _execute_plan plan (_build_index issues) s3 = (s4, Ok tt) ->
  exists m5 st4 t,
    view (IssueSyncer.state s4) = Some st4 /\
    let st := SyncState.mk (SyncState.run_id st4) (SyncState.started_at st4)
                (Some (utcnow t)) (SyncState.records st4) in
    sync force self =
      (IssueSyncer.mk (IssueSyncer.client s4) (IssueSyncer.loader s4) m5
         (IssueSyncer._milestones s4) (IssueSyncer._labels s4) (IssueSyncer._existing_issues s4)
         (IssueSyncer.trace s4 ++ [EvMarkRunCompleted; EvSummary]),
       Ok (summary_of st)) /\
    loaded m5 st /\
    StateManager.file m5 = Parsed (SyncState_to_dict st).
Proof.
  intros Hload Hissues Hplan Hsome Hensure Hexec.
  assert (Hv : exists st4, view (IssueSyncer.state s4) = Some st4).
  { rewrite execute_plan_eq, bindM_unfold in Hexec.
    destruct (for_each (remote_actions plan) _ s3) as [sa [[]|e]] eqn:Hactions; [|discriminate].
    assert (Hne : remote_actions plan <> []).
    { unfold remote_actions, SyncPlan.actions_needed in *.
      destruct (SyncPlan.creates plan), (SyncPlan.updates plan); cbn in *;
        [congruence|discriminate..]. }
    destruct (actions_return _ _ _ _ Hne Hactions) as (sa' & La).
    destruct (skip_loop (SyncPlan.skips plan) sa sa' (view_loaded _ _ La))
      as (m2 & s2' & Hloop & Hv2 & _).
    rewrite Hloop in Hexec. injection Hexec as <-. now exists s2'. }
  destruct Hv as (st4 & Hv).
  destruct (mark_run_completed_view _ _ Hv) as (m' & t & Hmark & L' & Hfile).
  destruct (summary_view _ _ (view_loaded _ _ L')) as (m5 & Hsum & L5 & Hfile5).
  exists m5, st4, t. split; [exact Hv|]. cbn zeta. split; [|split; [exact L5|congruence]].
  unfold sync. rewrite bindM_unfold, Hload. unfold get_ at 1. rewrite bindM_unfold.
  unfold lift_result. rewrite bindM_unfold, Hissues, bindM_unfold, Hplan.
  destruct (SyncPlan.actions_needed plan) as [|n] eqn:Hn; [congruence|]. cbn [Nat.eqb].
  rewrite bindM_unfold in Hensure.
  rewrite bindM_unfold.
  destruct (_ensure_labels s2) as [sl [[]|e]]; [|discriminate].
  rewrite bindM_unfold, Hensure, bindM_unfold, Hexec, bindM_unfold, call_state_eq, Hmark.
  cbn [fst snd]. rewrite call_state_eq.
  replace (IssueSyncer.state (with_state s4 m' [EvMarkRunCompleted])) with m' by reflexivity.
  rewrite Hsum. cbn [fst snd]. rewrite with_state_with_state. reflexivity.
Qed.

End SyncFacts.

(** A second run on the remote that a first run has filled: one skip in the
    plan, which is not executed, and no completion mark. *)
Lemma sync_nothing_to_do_witness :
  let r := @sync ext0 _ _ false second_run_syncer in
  exists counts, r.2 = Ok counts /\
  IssueSyncer.trace r.1 = [EvListMilestones; EvListLabels; EvListIssues; EvSummary].
Proof.
  intros r.
  pose (s1 := (_load_github_state second_run_syncer).1).
  pose (p := _build_plan (ext:=ext0) (topological_sort [lone_epic]) false s1).
  destruct (@sync_nothing_to_do ext0 _ _ false second_run_syncer s1 p.1 [lone_epic]
              (SyncPlan.mk [] [] [(lone_epic, 1001%Z)])
              (default (@fresh_state ext0 0) (@view ext0 (IssueSyncer.state p.1))))
    as (m3 & Hsync & _).
  - vm_compute. reflexivity.
  - reflexivity.
  - vm_compute. reflexivity.
  - reflexivity.
  - vm_compute. reflexivity.
  - subst r. rewrite Hsync. eexists. split; [reflexivity|]. vm_compute. reflexivity.
Defined.

(** A first run with one epic to create. *)
Lemma sync_marks_run_completed_witness :
  let r := @sync ext0 _ _ false (new_syncer epic_files) in
  exists counts st d,
    r.2 = Ok counts /\
    StateManager._state (IssueSyncer.state r.1) = Some st /\
    SyncState.completed_at st = Some d /\
    status_of (IssueSyncer.state r.1) "EPIC-1" = Some COMPLETED.
Proof.
  intros r.
  pose (s1 := (_load_github_state (new_syncer epic_files)).1).
  pose (p := _build_plan (ext:=ext0) (topological_sort [lone_epic]) false s1).
  pose (s3 := ((_ensure_labels ;; _ensure_milestones) p.1).1).
  pose (s4 := (_execute_plan (ext:=ext0) (SyncPlan.mk [lone_epic] [] [])
                 (_build_index [lone_epic]) s3).1).
  destruct (@sync_marks_run_completed ext0 _ _ false (new_syncer epic_files) s1 p.1 s3 s4
              [lone_epic] (SyncPlan.mk [lone_epic] [] []))
    as (m5 & st4 & t & Hv & H).
  - vm_compute. reflexivity.
  - reflexivity.
  - vm_compute. reflexivity.
  - discriminate.
  - vm_compute. reflexivity.
  - vm_compute. reflexivity.
  - cbn zeta in H. destruct H as (Hsync & L5 & _).
    subst r. rewrite Hsync. cbn [fst snd IssueSyncer.state].
    eexists _, _, _. split; [reflexivity|]. split; [exact L5|]. split; [reflexivity|].
    unfold status_of. rewrite L5. cbn [SyncState.records].
    assert (Hst4 : st4 = default st4 (@view ext0 (IssueSyncer.state s4))) by now rewrite Hv.
    rewrite Hst4. vm_compute. reflexivity.
Defined.

Lemma decimal_clock_reads_back (d : Z) :
  @fromisoformat decimal_clock (@isoformat decimal_clock d) = Ok d.
Proof.
  assert (H : NilZero.int_of_string (NilZero.string_of_int (Z.to_int d)) = Some (Z.to_int d)).
  { apply NilZero.isi; destruct d as [|p|p]; try discriminate;
      intros [= H]; now apply DecimalPos.Unsigned.to_uint_nonnil in H. }
  change (match NilZero.int_of_string (NilZero.string_of_int (Z.to_int d)) with
          | Some i => Ok (Z.of_int i)
          | None => Raise (ValueError "Invalid isoformat string")
          end = Ok d).
  rewrite H. now rewrite DecimalZ.of_to.
Qed.

Lemma decimal_clock_nonempty (d : Z) : Py.nonempty (@isoformat decimal_clock d) = true.
Proof.
  change (Py.nonempty (NilZero.string_of_int (Z.to_int d)) = true).
  destruct d as [|p|p]; [reflexivity| |reflexivity].
  cbn [Z.to_int NilZero.string_of_int]. unfold NilZero.string_of_uint.
  pose proof (DecimalPos.Unsigned.to_uint_nonnil p) as H.
  destruct (Pos.to_uint p); [congruence|reflexivity..].
Qed.

Lemma fold_insert_list_to_map {V : Type} (l : list (string * V)) (acc : gmap string V) :
  NoDup l.*1 ->
  fold_left (fun m kv => <[kv.1 := kv.2]> m) l acc = list_to_map l ∪ acc.
Proof.
  revert acc. induction l as [|[k v] l IH]; intros acc Hnd.
  - cbn. now rewrite (left_id ∅ (∪)).
  - cbn [fold_left fst snd]. rewrite fmap_cons in Hnd. apply NoDup_cons in Hnd as [Hk Hnd].
    rewrite (IH _ Hnd). cbn [list_to_map foldr uncurry]. cbn.
    rewrite <- insert_union_l. symmetry. apply insert_union_r.
    now apply not_elem_of_list_to_map_1.
Qed.

Section RoundTrip.
Context {ext : Externals}.
Hypothesis reads_back : forall d, fromisoformat (isoformat d) = Ok d.
Hypothesis written_nonempty : forall d, Py.nonempty (isoformat d) = true.

Lemma record_round_trip (r : SyncRecord.t) : SyncRecord_from_dict (SyncRecord_to_dict r) = Ok r.
Proof.
  destruct r as [i a st n h e t]. unfold SyncRecord_from_dict, SyncRecord_to_dict.
  cbn. destruct a, st; cbn; rewrite reads_back; destruct n, h, e; reflexivity.
Qed.

Lemma records_round_trip (l : list (string * SyncRecord.t)) (acc : gmap string SyncRecord.t) :
  fold_left (fun acc kv =>
               let! records := acc in
               let! record := SyncRecord_from_dict (snd kv) in
               Ok (<[fst kv := record]> records))
    (List.map (fun kv => (fst kv, SyncRecord_to_dict (snd kv))) l) (Ok acc)
  = Ok (fold_left (fun m kv => <[kv.1 := kv.2]> m) l acc).
Proof.
  revert acc. induction l as [|[k r] l IH]; intros acc; [reflexivity|].
  cbn [List.map fold_left fst snd bind]. rewrite record_round_trip. cbn [bind]. apply IH.
Qed.

Lemma state_round_trip (s : SyncState.t) : SyncState_from_dict (SyncState_to_dict s) = Ok s.
Proof.
  destruct s as [run started completed records].
  unfold SyncState_from_dict, SyncState_to_dict. cbn. rewrite reads_back. cbn.
  assert (Hrecords : records_from_items
                       (List.map (fun kv => (fst kv, SyncRecord_to_dict (snd kv)))
                          (map_to_list records)) = Ok records).
  { unfold records_from_items. rewrite records_round_trip.
    rewrite fold_insert_list_to_map by apply NoDup_fst_map_to_list.
    now rewrite (right_id ∅ (∪)), list_to_map_to_list. }
  destruct completed as [d|]; cbn.
  - rewrite written_nonempty. cbn. rewrite reads_back. cbn. now rewrite Hrecords.
  - now rewrite Hrecords.
Qed.

(** What [save] writes is read back as the same state by a new state
    manager on that file, when the timestamps that [isoformat] writes are
    not empty and are read back by [fromisoformat]. *)
Theorem saved_state_loads_back (m : StateManager.t) (s : SyncState.t) (n : nat) :
  loaded m s ->
  exists m',
    save m = (m', Ok tt) /\
    _load_or_create (StateManager.mk (StateManager.file m') None n)
      = (StateManager.mk (StateManager.file m') None n, Ok s).
Proof.
  intros L. unfold save. rewrite bindM_unfold, (state_loaded m s L). unfold modify.
  eexists. split; [reflexivity|]. cbn [StateManager.file].
  unfold _load_or_create, get_. rewrite bindM_unfold. cbn [StateManager.file].
  unfold lift_result. now rewrite state_round_trip.
Qed.

End RoundTrip.

(** The state after a create that completed and a completion mark of the
    run, written with decimal timestamps. *)
Lemma saved_state_loads_back_witness :
  let m := ((@mark_started decimal_clock "A-1" CREATE ;;
             @mark_completed decimal_clock "A-1" 7 "0123456789abcdef" ;;
             @mark_run_completed decimal_clock) no_state_file).1 in
  exists s m',
    loaded m s /\ @save decimal_clock m = (m', Ok tt) /\
    (@_load_or_create decimal_clock (StateManager.mk (StateManager.file m') None 0)).2 = Ok s.
Proof.
  intros m.
  destruct (@saved_state_loads_back decimal_clock decimal_clock_reads_back
              decimal_clock_nonempty m
              (default (@fresh_state decimal_clock 0) (StateManager._state m)) 0)
    as (m' & Hsave & Hload).
  - vm_compute. reflexivity.
  - eexists _, m'. split; [|split; [exact Hsave|now rewrite Hload]].
    vm_compute. reflexivity.
Defined.

Section StoreTheorems.
Context {ext : Externals}.

Lemma state_view m s :
  view m = Some s -> exists m', state m = (m', Ok s) /\ loaded m' s.
Proof.
  destruct m as [f [s0|] n]; unfold view, loaded; unfold_state_ops.
  - intros [= ->]. eexists. split; reflexivity.
  - destruct f; simpl.
    + intros [= <-]. eexists. split; reflexivity.
    + discriminate.
    + destruct (SyncState_from_dict data) as [s0|]; simpl; [|discriminate].
      intros [= ->]. eexists. split; reflexivity.
Qed.

(** [mark_completed], [mark_failed] and [mark_skipped] create no record:
    for an issue without record they return, leave the state as it is and
    save it. *)
Theorem marks_need_a_record (m : StateManager.t) (s : SyncState.t) (issue_id : string) :
  view m = Some s ->
  SyncState.records s !! issue_id = None ->
  (forall number h, exists m',
      mark_completed issue_id number h m = (m', Ok tt) /\ loaded m' s /\
      StateManager.file m' = Parsed (SyncState_to_dict s)) /\
  (forall error, exists m',
      mark_failed issue_id error m = (m', Ok tt) /\ loaded m' s /\
      StateManager.file m' = Parsed (SyncState_to_dict s)) /\
  (forall number, exists m',
      mark_skipped issue_id number m = (m', Ok tt) /\ loaded m' s /\
      StateManager.file m' = Parsed (SyncState_to_dict s)).
Proof.
  intros Hv Hnone. destruct (state_view m s Hv) as (m1 & Hstate & L1).
  repeat split; intros; unfold mark_completed, mark_failed, mark_skipped, save;
    rewrite bindM_unfold, Hstate; cbv beta iota; rewrite Hnone, bindM_unfold; unfold ret;
    rewrite bindM_unfold, (state_loaded m1 s L1); unfold modify;
    (eexists; split; [reflexivity|]; split; [exact L1|reflexivity]).
Qed.

End StoreTheorems.

(** On a new store, a completion mark for an issue that was never started
    leaves no record. *)
Lemma marks_need_a_record_witness :
  exists m',
    @mark_completed ext0 "A-1" 7 "0123456789abcdef" no_state_file = (m', Ok tt) /\
    status_of m' "A-1" = None.
Proof.
  destruct (@marks_need_a_record ext0 no_state_file (@fresh_state ext0 0) "A-1")
    as (Hcompleted & _).
  - reflexivity.
  - reflexivity.
  - destruct (Hcompleted 7%Z "0123456789abcdef") as (m' & Hmark & L & _).
    exists m'. split; [exact Hmark|]. unfold status_of. now rewrite L.
Defined.

Lemma count_partition (l : list (string * SyncRecord.t)) :
  let count st := List.length (List.filter (fun kv => bool_decide (SyncRecord.status kv.2 = st)) l) in
  count PENDING + count IN_PROGRESS + count COMPLETED + count FAILED + count SKIPPED
    = List.length l.
Proof.
  cbn zeta. induction l as [|[k r] l IH]; [reflexivity|].
  cbn [List.filter snd]. repeat case_bool_decide; cbn [List.length]; try lia;
    destruct (SyncRecord.status r); congruence.
Qed.

Section SummaryTheorems.
Context {ext : Externals}.

(** [summary] reports the five statuses in the order of the enumeration,
    its counts add up to the number of records, and its counts of pending,
    completed and failed records are those that [pending_count],
    [completed_count] and [failed_count] return. *)
Theorem summary_counts_every_record (m : StateManager.t) (s : SyncState.t) :
  view m = Some s ->
  exists m' p i c f k,
    summary m = (m', Ok [("pending", p); ("in_progress", i); ("completed", c);
                         ("failed", f); ("skipped", k)]) /\
    loaded m' s /\
    p + i + c + f + k = size (SyncState.records s) /\
    (pending_count m).2 = Ok p /\
    (completed_count m).2 = Ok c /\
    (failed_count m).2 = Ok f.
Proof.
  intros Hv. destruct (summary_view m s Hv) as (m' & Hsum & L & _).
  destruct (state_view m s Hv) as (m1 & Hstate & _).
  exists m', (count_status PENDING s), (count_status IN_PROGRESS s), (count_status COMPLETED s),
    (count_status FAILED s), (count_status SKIPPED s).
  split; [exact Hsum|]. split; [exact L|]. split.
  - unfold count_status. rewrite (count_partition (map_to_list (SyncState.records s))).
    apply length_map_to_list.
  - unfold pending_count, completed_count, failed_count.
    rewrite !bindM_unfold, Hstate. repeat split.
Qed.

End SummaryTheorems.

(** One issue completed and one failed. *)
Lemma summary_counts_every_record_witness :
  let m := ((@mark_started ext0 "A-1" CREATE ;;
             @mark_completed ext0 "A-1" 7 "0123456789abcdef" ;;
             @mark_started ext0 "A-2" CREATE ;;
             @mark_failed ext0 "A-2" "boom") no_state_file).1 in
  exists p i c f k,
    (@summary ext0 m).2 = Ok [("pending", p); ("in_progress", i); ("completed", c);
                              ("failed", f); ("skipped", k)] /\
    p + i + c + f + k = 2.
Proof.
  intros m.
  destruct (@summary_counts_every_record ext0 m
              (default (@fresh_state ext0 0) (StateManager._state m)))
    as (m' & p & i & c & f & k & Hsum & _ & Hsize & _).
  - vm_compute. reflexivity.
  - exists p, i, c, f, k. split; [now rewrite Hsum|]. rewrite Hsize. vm_compute. reflexivity.
Defined.

Section SyncDecisionTheorems.
Context {ext : Externals}.

Lemma is_completed_loaded m s issue_id :
  loaded m s -> is_completed issue_id m = (m, Ok (SyncState.is_completed s issue_id)).
Proof. intros L. unfold is_completed. now rewrite bindM_unfold, (state_loaded m s L). Qed.

Lemma get_github_number_loaded m s issue_id :
  loaded m s ->
  get_github_number issue_id m =
    (m, Ok (match SyncState.records s !! issue_id with
            | Some record => SyncRecord.github_number record
            | None => None
            end)).
Proof. intros L. unfold get_github_number. now rewrite bindM_unfold, (state_loaded m s L). Qed.

(** An issue that was started and then marked completed with its content
    hash needs no sync and is completed, with the remote number that was
    recorded; an issue of the same id whose content hash differs needs a
    sync; and once the issue is marked failed it needs a sync again. *)
Theorem completed_issue_needs_no_sync (m : StateManager.t) (s : SyncState.t) (issue : Issue)
    (action : SyncAction) (number : Z) :
  view m = Some s ->
  exists m2,
    (mark_started (id issue) action ;;
     mark_completed (id issue) number (content_hash issue)) m = (m2, Ok tt) /\
    (needs_sync issue m2).2 = Ok false /\
    (is_completed (id issue) m2).2 = Ok true /\
    (get_github_number (id issue) m2).2 = Ok (Some number) /\
    (forall changed, id changed = id issue -> content_hash changed <> content_hash issue ->
       (needs_sync changed m2).2 = Ok true) /\
    (forall error, exists m3,
       mark_failed (id issue) error m2 = (m3, Ok tt) /\
       (needs_sync issue m3).2 = Ok true /\
       (is_completed (id issue) m3).2 = Ok false).
Proof.
  intros Hv.
  destruct (mark_started_view m s (id issue) action Hv) as (s1 & E1 & L1 & R1).
  set (m1 := (mark_started (id issue) action m).1) in *.
  pose proof (mark_completed_loaded m1 s1 (id issue) number (content_hash issue) L1) as Hc.
  set (f := fun r => completed_record r number (content_hash issue) (StateManager.ticks m1)) in Hc.
  pose proof (loaded_after_update m1 s1 (id issue) f) as L2.
  assert (Hr2 : SyncState.records (update_record s1 (id issue) f) !! id issue
                = Some (f (started_record (id issue) action (StateManager.ticks m)))).
  { rewrite update_record_lookup, decide_True by reflexivity.
    now rewrite R1, lookup_insert_eq. }
  exists (after_update m1 s1 (id issue) f). split.
  { rewrite bindM_unfold, E1. exact Hc. }
  split; [|split; [|split; [|split]]].
  - rewrite (needs_sync_loaded _ _ issue L2). cbn [snd]. unfold SyncState.needs_sync.
    rewrite Hr2. cbn. now rewrite !bool_decide_eq_true_2.
  - rewrite (is_completed_loaded _ _ _ L2). cbn [snd]. unfold SyncState.is_completed.
    rewrite Hr2. reflexivity.
  - rewrite (get_github_number_loaded _ _ _ L2). cbn [snd]. now rewrite Hr2.
  - intros changed Hid Hhash. rewrite (needs_sync_loaded _ _ changed L2). cbn [snd].
    unfold SyncState.needs_sync. rewrite Hid, Hr2. subst f.
    cbn beta. cbn [completed_record SyncRecord.status SyncRecord.content_hash].
    rewrite bool_decide_eq_true_2 by reflexivity. cbn [negb].
    rewrite bool_decide_eq_false_2; [reflexivity|congruence].
  - intros error.
    pose proof (mark_failed_loaded _ _ (id issue) error L2) as Hf.
    set (g := fun r => failed_record r error _) in Hf.
    pose proof (loaded_after_update (after_update m1 s1 (id issue) f)
                  (update_record s1 (id issue) f) (id issue) g) as L3.
    eexists. split; [exact Hf|].
    assert (Hr3 : SyncState.records (update_record (update_record s1 (id issue) f) (id issue) g)
                    !! id issue
                  = Some (g (f (started_record (id issue) action (StateManager.ticks m))))).
    { rewrite update_record_lookup, decide_True by reflexivity. now rewrite Hr2. }
    split.
    + rewrite (needs_sync_loaded _ _ issue L3). cbn [snd]. unfold SyncState.needs_sync.
      rewrite Hr3. reflexivity.
    + rewrite (is_completed_loaded _ _ _ L3). cbn [snd]. unfold SyncState.is_completed.
      rewrite Hr3. reflexivity.
Qed.

End SyncDecisionTheorems.

(** The epic, completed on a new store; its description is then edited. *)
Lemma completed_issue_needs_no_sync_witness :
  exists m2,
    (@mark_started ext0 "EPIC-1" CREATE ;;
     @mark_completed ext0 "EPIC-1" 1001 (content_hash lone_epic)) no_state_file = (m2, Ok tt) /\
    (@needs_sync ext0 lone_epic m2).2 = Ok false /\
    (@needs_sync ext0 (with_description lone_epic "edited") m2).2 = Ok true.
Proof.
  destruct (@completed_issue_needs_no_sync ext0 no_state_file (@fresh_state ext0 0) lone_epic
              CREATE 1001%Z) as (m2 & Hrun & Hsame & _ & _ & Hchanged & _).
  - reflexivity.
  - exists m2. split; [exact Hrun|]. split; [exact Hsame|].
    apply Hchanged; [reflexivity|]. vm_compute. discriminate.
Defined.

Section FreshStoreTheorems.
Context {ext : Externals}.

Lemma fresh_state_needs_sync (n : nat) (issue : Issue) :
  SyncState.needs_sync (fresh_state n) issue = true.
Proof. unfold SyncState.needs_sync, fresh_state. cbn [SyncState.records]. now rewrite lookup_empty. Qed.

Lemma fresh_state_summary (n : nat) :
  summary_of (fresh_state n) =
    [("pending", 0); ("in_progress", 0); ("completed", 0); ("failed", 0); ("skipped", 0)].
Proof.
  unfold summary_of, count_status, fresh_state. cbn [SyncState.records].
  rewrite map_to_list_empty. reflexivity.
Qed.

(** [reset] and [start_new_run] work whatever the state file holds, even a
    text that cannot be parsed, and leave a store without records:
    [start_new_run] returns the new run id, of at most 8 characters, with
    the new state loaded and saved; after either of them every issue needs
    a sync and [summary] counts nothing. *)
Theorem new_run_forgets_every_record (m : StateManager.t) :
  (exists m',
     start_new_run m = (m', Ok (Py.take 8 (uuid4 (StateManager.ticks m)))) /\
     String.length (Py.take 8 (uuid4 (StateManager.ticks m))) <= 8 /\
     loaded m' (fresh_state (StateManager.ticks m)) /\
     StateManager.file m' = Parsed (SyncState_to_dict (fresh_state (StateManager.ticks m))) /\
     (forall issue, (needs_sync issue m').2 = Ok true) /\
     (summary m').2 = Ok [("pending", 0); ("in_progress", 0); ("completed", 0);
                          ("failed", 0); ("skipped", 0)]) /\
  (exists m',
     reset m = (m', Ok tt) /\
     StateManager.file m' = Absent /\
     view m' = Some (fresh_state (StateManager.ticks m)) /\
     (forall issue, (needs_sync issue m').2 = Ok true) /\
     (summary m').2 = Ok [("pending", 0); ("in_progress", 0); ("completed", 0);
                          ("failed", 0); ("skipped", 0)]).
Proof.
  split.
  - exists (stored (ticked m) (fresh_state (StateManager.ticks m))).
    split; [reflexivity|]. split; [apply length_take_le|].
    assert (L : loaded (stored (ticked m) (fresh_state (StateManager.ticks m)))
                  (fresh_state (StateManager.ticks m))) by reflexivity.
    split; [exact L|]. split; [reflexivity|]. split.
    + intros issue. rewrite (needs_sync_loaded _ _ issue L). cbn [snd].
      now rewrite fresh_state_needs_sync.
    + destruct (summary_view _ _ (view_loaded _ _ L)) as (m' & -> & _).
      cbn [snd]. now rewrite fresh_state_summary.
  - exists (StateManager.mk Absent None (StateManager.ticks m)).
    split; [reflexivity|]. split; [reflexivity|].
    assert (Hv : view (StateManager.mk Absent None (StateManager.ticks m))
                 = Some (fresh_state (StateManager.ticks m))) by reflexivity.
    split; [exact Hv|]. split.
    + intros issue. destruct (state_view _ _ Hv) as (m1 & Hstate & _).
      unfold needs_sync. rewrite bindM_unfold, Hstate. cbn [snd ret].
      now rewrite fresh_state_needs_sync.
    + destruct (summary_view _ _ Hv) as (m' & -> & _).
      cbn [snd]. now rewrite fresh_state_summary.
Qed.

End FreshStoreTheorems.

Section DictFacts.
Context {K V : Type} `{EqDecision K}.

Lemma dict_lookup_set_eq (k : K) (v : V) (d : list (K * V)) :
  dict_lookup k (dict_set k v d) = Some v.
Proof.
  induction d as [|[k' v'] d IH]; cbn.
  - now rewrite decide_True.
  - destruct (decide (k = k')) as [->|Hne]; cbn.
    + now rewrite decide_True.
    + now rewrite decide_False.
Qed.

Lemma dict_lookup_set_ne (k k0 : K) (v : V) (d : list (K * V)) :
  k0 <> k -> dict_lookup k0 (dict_set k v d) = dict_lookup k0 d.
Proof.
  intros Hne. induction d as [|[k' v'] d IH]; cbn.
  - now rewrite decide_False.
  - destruct (decide (k = k')) as [->|Hk]; cbn.
    + now rewrite !decide_False.
    + now rewrite IH.
Qed.

Lemma dict_set_new (k : K) (v : V) (d : list (K * V)) :
  dict_lookup k d = None -> dict_set k v d = d ++ [(k, v)].
Proof.
  induction d as [|[k' v'] d IH]; cbn; [reflexivity|].
  destruct (decide (k = k')); [discriminate|]. intros Hd. now rewrite IH.
Qed.

Lemma dict_set_known_keys (k : K) (v : V) (d : list (K * V)) :
  is_Some (dict_lookup k d) -> (dict_set k v d).*1 = d.*1.
Proof.
  induction d as [|[k' v'] d IH]; cbn; [now intros [? [=]]|].
  destruct (decide (k = k')) as [->|Hne]; cbn; [reflexivity|].
  intros Hd. now rewrite IH.
Qed.

End DictFacts.

Lemma fresh_number_unused (c : DryRunClient.t) (n : Z) :
  fresh_numbers c = true -> (DryRunClient._issue_counter c < n)%Z ->
  dict_lookup n (DryRunClient._issues c) = None.
Proof.
  unfold fresh_numbers. generalize (DryRunClient._issue_counter c) as counter.
  intros counter. induction (DryRunClient._issues c) as [|[k v] d IH]; cbn; [reflexivity|].
  intros Hall Hlt. apply andb_true_iff in Hall as [Hk Hall].
  apply Z.leb_le in Hk. cbn in Hk. rewrite decide_False by lia. now apply IH.
Qed.

(** On a rehearsal client whose issues have numbers up to its counter,
    [create_issue] returns an open issue with the next number and the given
    title, body, labels and milestone; the issue is listed last, after the
    issues that were there, which are untouched; it is what [get_issue]
    returns for its number; and the numbers stay below the counter. *)
Theorem dry_run_create_appends (c : DryRunClient.t) (title body : string) (labels : list string)
    (milestone : option Z) :
  fresh_numbers c = true ->
  exists c',
    let issue := GitHubIssue.mk (DryRunClient._issue_counter c + 1) title body "open" labels
                   milestone in
    DryRunClient.create_issue title body labels milestone c = (c', Ok issue) /\
    (DryRunClient.list_issues c').2 = Ok (List.map snd (DryRunClient._issues c) ++ [issue]) /\
    (DryRunClient.get_issue (DryRunClient._issue_counter c + 1) c').2 = Ok (Some issue) /\
    (forall n, n <> (DryRunClient._issue_counter c + 1)%Z ->
       (DryRunClient.get_issue n c').2 = (DryRunClient.get_issue n c).2) /\
    fresh_numbers c' = true.
Proof.
  intros Hfresh. eexists. cbn zeta. split; [reflexivity|].
  pose proof (fresh_number_unused c (DryRunClient._issue_counter c + 1) Hfresh ltac:(lia)) as Hnew.
  cbn [DryRunClient.list_issues DryRunClient.get_issue DryRunClient._issues snd
       GitHubIssue.number DryRunClient._issue_counter].
  split; [|split; [|split]].
  - rewrite (dict_set_new _ _ _ Hnew), map_app. reflexivity.
  - now rewrite dict_lookup_set_eq.
  - intros n Hn. now rewrite dict_lookup_set_ne.
  - unfold fresh_numbers in *. cbn [DryRunClient._issues DryRunClient._issue_counter GitHubIssue.number].
    rewrite (dict_set_new _ _ _ Hnew), forallb_app. cbn.
    rewrite andb_true_r, Z.leb_refl, andb_true_r.
    rewrite forallb_forall in *. intros kv Hin. specialize (Hfresh kv Hin).
    apply Z.leb_le. apply Z.leb_le in Hfresh. lia.
Qed.

(** Two creates on a new rehearsal client. *)
Lemma dry_run_create_appends_witness :
  let c1 := (DryRunClient.create_issue "first" "b1" [] None (DryRunClient.init "owner" "repo")).1 in
  exists c2,
    DryRunClient.create_issue "second" "b2" ["bug"] (Some 3%Z) c1
      = (c2, Ok (GitHubIssue.mk 1002 "second" "b2" "open" ["bug"] (Some 3%Z))) /\
    (DryRunClient.list_issues c2).2
      = Ok [GitHubIssue.mk 1001 "first" "b1" "open" [] None;
            GitHubIssue.mk 1002 "second" "b2" "open" ["bug"] (Some 3%Z)].
Proof.
  intros c1.
  destruct (dry_run_create_appends c1 "second" "b2" ["bug"] (Some 3%Z)) as (c2 & H).
  - reflexivity.
  - cbn zeta in H. destruct H as (Hcreate & Hlist & _).
    exists c2. split; [exact Hcreate|exact Hlist].
Defined.

(** [update_issue] of the rehearsal client: an unknown number raises and
    changes nothing; a known one keeps its number and its place in the
    list, takes the given fields and keeps the others, the milestone
    included when none is given, and is what [get_issue] then returns; no
    other issue changes and no number is used up. *)
Theorem dry_run_update_cases (c : DryRunClient.t) (number : Z) (title body : option string)
    (labels : option (list string)) (milestone : option Z) (state : option string) :
  match dict_lookup number (DryRunClient._issues c) with
  | None =>
      DryRunClient.update_issue number title body labels milestone state c =
        (c, Raise (GitHubError ("Issue " +:+ Py.str_int number +:+ " not found")))
  | Some existing =>
      exists c',
        let issue :=
          GitHubIssue.mk number
            (default (GitHubIssue.title existing) title)
            (default (GitHubIssue.body existing) body)
            (default (GitHubIssue.state existing) state)
            (default (GitHubIssue.labels existing) labels)
            (match milestone with
             | Some m => Some m
             | None => GitHubIssue.milestone_number existing
             end) in
        DryRunClient.update_issue number title body labels milestone state c = (c', Ok issue) /\
        (DryRunClient.get_issue number c').2 = Ok (Some issue) /\
        (forall n, n <> number ->
           (DryRunClient.get_issue n c').2 = (DryRunClient.get_issue n c).2) /\
        (DryRunClient._issues c').*1 = (DryRunClient._issues c).*1 /\
        DryRunClient._issue_counter c' = DryRunClient._issue_counter c
  end.
Proof.
  unfold DryRunClient.update_issue.
  destruct (dict_lookup number (DryRunClient._issues c)) as [existing|] eqn:E; [|reflexivity].
  eexists. cbn zeta. split; [reflexivity|].
  cbn [DryRunClient.get_issue DryRunClient._issues DryRunClient._issue_counter snd].
  split; [now rewrite dict_lookup_set_eq|]. split.
  - intros n Hn. now rewrite dict_lookup_set_ne.
  - split; [|reflexivity]. apply dict_set_known_keys. rewrite E. now eexists.
Qed.

Lemma filter_split_length {A : Type} (f : A -> bool) (l : list A) :
  List.length (List.filter (fun x => negb (f x)) l) + List.length (List.filter f l)
    = List.length l.
Proof. induction l as [|x l IH]; [reflexivity|]. cbn. destruct (f x); cbn; lia. Qed.

Section PlanTheorems.
Context {ext : Externals} {C : Type} {cli : Client C}.

Lemma is_known_with_state (self : IssueSyncer.t C) m ev issue :
  is_known (with_state self m ev) issue = is_known self issue.
Proof. reflexivity. Qed.

Lemma build_plan_from_spec (force : bool) (issues : list Issue) :
  forall (plan0 plan : SyncPlan.t) (self self' : IssueSyncer.t C),
    build_plan_from force plan0 issues self = (self', Ok plan) ->
    SyncPlan.creates plan =
      SyncPlan.creates plan0 ++ List.filter (fun i => negb (is_known self i)) issues /\
    (exists us ss,
       SyncPlan.updates plan = SyncPlan.updates plan0 ++ us /\
       SyncPlan.skips plan = SyncPlan.skips plan0 ++ ss /\
       us.*1 ++ ss.*1 ≡ₚ List.filter (is_known self) issues /\
       (forall i n, (i, n) ∈ us ++ ss ->
          exists body, IssueSyncer._existing_issues self !! id i = Some (n, body)) /\
       (force = true -> ss = [] /\ self' = self)) /\
    (exists m events, self' = with_state self m events).
Proof.
  induction issues as [|i rest IH]; intros plan0 plan self self' Hrun.
  - injection Hrun as <- <-. rewrite app_nil_r. split; [reflexivity|]. split.
    + exists [], []. rewrite !app_nil_r. repeat split; try reflexivity.
      intros ? ? Hin. now apply elem_of_nil in Hin.
    + exists (IssueSyncer.state self), []. now rewrite with_state_nil.
  - cbn [build_plan_from] in Hrun. rewrite bindM_unfold, plan_step_cases in Hrun.
    cbn [List.filter].
    destruct (IssueSyncer._existing_issues self !! id i) as [[n body]|] eqn:E.
    + assert (Hk : is_known self i = true).
      { unfold is_known. rewrite E. apply bool_decide_eq_true_2. now eexists. }
      rewrite Hk. cbn [negb fst snd] in *.
      assert (Hcase :
        exists self1 plan1,
          build_plan_from force plan1 rest self1 = (self', Ok plan) /\
          (exists m events, self1 = with_state self m events) /\
          (force = true -> self1 = self) /\
          (plan1 = add_update plan0 i n \/ force = false /\ plan1 = add_skip plan0 i n)).
      { destruct force.
        - exists self, (add_update plan0 i n). split; [exact Hrun|]. split.
          + exists (IssueSyncer.state self), []. now rewrite with_state_nil.
          + split; [reflexivity|now left].
        - destruct (Py.contains _ body).
          + exists self, (add_skip plan0 i n). split; [exact Hrun|]. split.
            * exists (IssueSyncer.state self), []. now rewrite with_state_nil.
            * split; [reflexivity|now right].
          + cbn zeta in Hrun.
            destruct (needs_sync i (IssueSyncer.state self)) as [m [[]|e]];
              cbn [fst snd] in Hrun; try discriminate.
            * eexists _, (add_update plan0 i n). split; [exact Hrun|]. split.
              -- now eexists _, _.
              -- split; [discriminate|now left].
            * eexists _, (add_skip plan0 i n). split; [exact Hrun|]. split.
              -- now eexists _, _.
              -- split; [discriminate|now right]. }
      destruct Hcase as (self1 & plan1 & Hrest & (m1 & ev1 & ->) & Hforce & Hplan1).
      destruct (IH _ _ _ _ Hrest) as (Hc & (us & ss & Hu & Hs & Hperm & Hnum & Hf) & (m & ev & ->)).
      split.
      { rewrite Hc. destruct Hplan1 as [->|[_ ->]]; reflexivity. }
      split.
      2:{ eexists _, _. now rewrite with_state_with_state. }
      destruct Hplan1 as [->|[Hnoforce ->]].
      * exists ((i, n) :: us), ss. cbn [add_update SyncPlan.updates SyncPlan.skips] in *.
        rewrite Hu, Hs, <- app_assoc. split; [reflexivity|]. split; [reflexivity|]. split.
        -- rewrite fmap_cons. cbn [fst app]. apply perm_skip. exact Hperm.
        -- split.
           ++ intros i' n' Hin. cbn in Hin. apply elem_of_cons in Hin as [[= -> ->]|Hin].
              ** now exists body.
              ** exact (Hnum i' n' Hin).
           ++ intros Ht. destruct (Hf Ht) as [-> ->]. split; [reflexivity|].
              now rewrite (Hforce Ht).
      * exists us, ((i, n) :: ss). cbn [add_skip SyncPlan.updates SyncPlan.skips] in *.
        rewrite Hu, Hs, <- app_assoc. split; [reflexivity|]. split; [reflexivity|]. split.
        -- rewrite fmap_cons. cbn [fst]. rewrite <- Permutation_middle.
           apply perm_skip. exact Hperm.
        -- split.
           ++ intros i' n' Hin. apply elem_of_app in Hin as [Hin|Hin].
              ** apply (Hnum i' n'). apply elem_of_app. now left.
              ** apply elem_of_cons in Hin as [[= -> ->]|Hin]; [now exists body|].
                 apply (Hnum i' n'). apply elem_of_app. now right.
           ++ intros Ht. congruence.
    + assert (Hk : is_known self i = false).
      { unfold is_known. rewrite E. apply bool_decide_eq_false_2. now intros [? [=]]. }
      rewrite Hk. cbn [negb].
      destruct (IH _ _ _ _ Hrun) as (Hc & Hrest & Hframe).
      split; [|split; [exact Hrest|exact Hframe]].
      rewrite Hc. cbn [add_create SyncPlan.creates]. now rewrite <- app_assoc.
Qed.

(** [_build_plan] puts every issue in exactly one list: the creates are the
    issues without remote counterpart, in their order; the updates and the
    skips share the others, each with the remote number that is known for
    it; with [force] nothing is skipped and the state store is not
    consulted; and planning changes nothing but the state store, which it
    may load, and the trace. *)
Theorem build_plan_partitions (issues : list Issue) (force : bool) (self self' : IssueSyncer.t C)
    (plan : SyncPlan.t) :
  _build_plan issues force self = (self', Ok plan) ->
  SyncPlan.creates plan = List.filter (fun i => negb (is_known self i)) issues /\
  (SyncPlan.updates plan).*1 ++ (SyncPlan.skips plan).*1 ≡ₚ List.filter (is_known self) issues /\
  (forall i n, (i, n) ∈ SyncPlan.updates plan ++ SyncPlan.skips plan ->
     exists body, IssueSyncer._existing_issues self !! id i = Some (n, body)) /\
  SyncPlan.total plan = List.length issues /\
  (force = true -> SyncPlan.skips plan = [] /\ self' = self) /\
  (exists m events, self' = with_state self m events).
Proof.
  intros Hrun. unfold _build_plan in Hrun.
  destruct (build_plan_from_spec force issues _ _ _ _ Hrun)
    as (Hc & (us & ss & Hu & Hs & Hperm & Hnum & Hf) & Hframe).
  cbn [SyncPlan.empty SyncPlan.creates SyncPlan.updates SyncPlan.skips app] in *.
  rewrite Hu, Hs, Hc. split; [reflexivity|]. split; [exact Hperm|]. split; [exact Hnum|].
  split; [|split; [exact Hf|exact Hframe]].
  unfold SyncPlan.total. rewrite Hu, Hs, Hc.
  rewrite <- (filter_split_length (is_known self) issues), <- Hperm.
  rewrite length_app, !length_fmap. lia.
Qed.

End PlanTheorems.

(** The epic is known with its marker, the story is new. *)
Lemma build_plan_partitions_witness :
  let r := _build_plan (ext:=ext0) [lone_epic; story_with_links] false syncer_with_epic in
  r.2 = Ok (SyncPlan.mk [story_with_links] [] [(lone_epic, 1001%Z)]) /\
  SyncPlan.total (SyncPlan.mk [story_with_links] [] [(lone_epic, 1001%Z)]) = 2.
Proof.
  intros r.
  destruct (@build_plan_partitions ext0 _ [lone_epic; story_with_links] false syncer_with_epic
              r.1 (SyncPlan.mk [story_with_links] [] [(lone_epic, 1001%Z)]))
    as (_ & _ & _ & Htotal & _).
  - vm_compute. reflexivity.
  - split; [vm_compute; reflexivity|exact Htotal].
Defined.

Section LabelTheorems.
Context {C : Type} {cli : Client C}.

Lemma ensure_labels_loop (defined : list LabelDef.t) :
  forall self self' : IssueSyncer.t C,
    for_each defined
      (fun label_def =>
         do! self := get_ in
         if decide (LabelDef.name label_def ∈ IssueSyncer._labels self) then ret tt
         else
           call_client (label_event label_def)
             (create_label (LabelDef.name label_def) (LabelDef.color label_def)
                (LabelDef.description label_def)) ;;
           add_label (LabelDef.name label_def)) self = (self', Ok tt) ->
    exists created,
      labels_grown self self' created /\
      NoDup (LabelDef.name <$> created) /\
      (forall d, d ∈ created -> d ∈ defined /\ LabelDef.name d ∉ IssueSyncer._labels self) /\
      (forall d, d ∈ defined -> LabelDef.name d ∉ IssueSyncer._labels self ->
         LabelDef.name d ∈ LabelDef.name <$> created) /\
      IssueSyncer._labels self' =
        IssueSyncer._labels self ∪ list_to_set (LabelDef.name <$> defined) /\
      (created = [] -> self' = self).
Proof.
  induction defined as [|d rest IH]; intros self self' Hrun.
  - injection Hrun as <-. exists [].
    split; [unfold labels_grown; cbn; rewrite app_nil_r; repeat split|].
    split; [constructor|].
    split; [intros d Hd; now apply elem_of_nil in Hd|].
    split; [intros d Hd; now apply elem_of_nil in Hd|].
    split; [cbn; set_solver|reflexivity].
  - cbn [for_each] in Hrun. rewrite bindM_unfold in Hrun. unfold get_ at 1 in Hrun.
    rewrite bindM_unfold in Hrun.
    destruct (decide (LabelDef.name d ∈ IssueSyncer._labels self)) as [Hin|Hnin].
    + cbn [ret] in Hrun. destruct (IH _ _ Hrun) as (created & Hg & Hnd & Hc & Hall & Hl & Hnil).
      exists created. split; [exact Hg|]. split; [exact Hnd|]. split; [|split; [|split]].
      * intros d' Hd'. destruct (Hc d' Hd') as [? ?]. split; [now apply list_elem_of_further|easy].
      * intros d' Hd' Hn. apply elem_of_cons in Hd' as [->|Hd']; [contradiction|].
        now apply Hall.
      * rewrite Hl, fmap_cons. set_solver.
      * exact Hnil.
    + rewrite bindM_unfold in Hrun. unfold call_client, record, modify in Hrun.
      rewrite bindM_unfold in Hrun. cbn [fst snd IssueSyncer.client] in Hrun.
      destruct (create_label (LabelDef.name d) (LabelDef.color d) (LabelDef.description d)
                  (IssueSyncer.client self)) as [c' [lbl|e]]; cbn [fst snd] in Hrun;
        [|discriminate].
      unfold add_label, modify in Hrun.
      destruct (IH _ _ Hrun) as (created & Hg & Hnd & Hc & Hall & Hl & _).
      destruct Hg as (Ht & Hlo & Hs & Hm & He).
      cbn [IssueSyncer.trace IssueSyncer.loader IssueSyncer.state IssueSyncer._milestones
           IssueSyncer._existing_issues IssueSyncer._labels] in *.
      exists (d :: created). split; [|split; [|split; [|split; [|split]]]].
      * unfold labels_grown. rewrite Ht, <- app_assoc. repeat split; assumption.
      * rewrite fmap_cons. apply NoDup_cons. split; [|exact Hnd].
        intros Hin. apply list_elem_of_fmap in Hin as (d' & Heq & Hd').
        destruct (Hc d' Hd') as [_ Hfresh]. apply Hfresh. rewrite <- Heq. set_solver.
      * intros d' Hd'. apply elem_of_cons in Hd' as [->|Hd'].
        -- split; [apply list_elem_of_here|exact Hnin].
        -- destruct (Hc d' Hd') as [? Hfresh].
           split; [now apply list_elem_of_further|]. set_solver.
      * intros d' Hd' Hn. rewrite fmap_cons.
        destruct (decide (LabelDef.name d' = LabelDef.name d)) as [->|Hne];
          [apply list_elem_of_here|].
        apply list_elem_of_further. apply elem_of_cons in Hd' as [->|Hd']; [congruence|].
        apply Hall; [exact Hd'|]. set_solver.
      * rewrite Hl, fmap_cons. set_solver.
      * discriminate.
Qed.


End LabelTheorems.


Section IndexFacts.

Let step (self : IssueIndex.t) (issue : Issue) : IssueIndex.t :=
  IssueIndex.mk (IssueIndex._by_id self)
    (<[IssueIndex._normalize_title (title issue) := issue]> (IssueIndex._by_title self))
    (if opt_truthy (epic issue)
     then <[default "" (epic issue) :=
              default [] (IssueIndex._children self !! default "" (epic issue)) ++ [id issue]]>
            (IssueIndex._children self)
     else IssueIndex._children self).

Lemma index_fold_by_id (l : list Issue) (acc : IssueIndex.t) :
  IssueIndex._by_id (fold_left step l acc) = IssueIndex._by_id acc.
Proof. revert acc. induction l as [|x l IH]; intros acc; [reflexivity|]. cbn. now rewrite IH. Qed.

Lemma index_fold_children (l : list Issue) (acc : IssueIndex.t) (e : string) :
  default [] (IssueIndex._children (fold_left step l acc) !! e) =
    default [] (IssueIndex._children acc !! e) ++ (id <$> List.filter (child_of e) l).
Proof.
  revert acc. induction l as [|x l IH]; intros acc; [cbn; now rewrite app_nil_r|].
  cbn [fold_left List.filter]. rewrite IH. unfold step. cbn [IssueIndex._children].
  destruct (child_of e x) eqn:Hc; unfold child_of in Hc.
  - apply andb_true_iff in Hc as [Ht He]. apply bool_decide_eq_true_1 in He.
    rewrite Ht, He. change (default "" (Some e)) with e. rewrite lookup_insert_eq. cbn.
    now rewrite <- app_assoc.
  - destruct (opt_truthy (epic x)) eqn:Ht; [|reflexivity].
    cbn in Hc. apply bool_decide_eq_false_1 in Hc.
    destruct (epic x) as [d|]; [|discriminate Ht].
    change (default "" (Some d)) with d.
    rewrite lookup_insert_ne by congruence. reflexivity.
Qed.

Lemma omap_lookup_ids (m : gmap string Issue) (l : list Issue) :
  (forall i, i ∈ l -> m !! id i = Some i) -> omap (fun cid => m !! cid) (id <$> l) = l.
Proof.
  induction l as [|x l IH]; intros H; [reflexivity|].
  cbn. rewrite (H x (list_elem_of_here _ _)). cbn. f_equal. apply IH.
  intros i Hi. apply H. now apply list_elem_of_further.
Qed.

Lemma dom_insert_all (l : list Issue) (m : gmap string Issue) :
  dom (insert_all m l) = dom m ∪ list_to_set (id <$> l).
Proof.
  revert m. induction l as [|x l IH]; intros m; [cbn; set_solver|].
  cbn [insert_all fold_left]. fold (insert_all (<[id x := x]> m) l).
  rewrite IH, dom_insert_L, fmap_cons. set_solver.
Qed.

(** The index of issues with distinct ids: [get] finds each issue under its
    id and nothing under another id; [children_of] gives the issues that
    name the epic, in their order; [all_ids] is the set of the ids and the
    length is the number of issues. *)
Theorem index_finds_every_issue (issues : list Issue) :
  NoDup (id <$> issues) ->
  (forall i, i ∈ issues -> IssueIndex.get (IssueIndex.init issues) (id i) = Some i) /\
  (forall k, k ∉ id <$> issues -> IssueIndex.get (IssueIndex.init issues) k = None) /\
  (forall e, IssueIndex.children_of (IssueIndex.init issues) e = List.filter (child_of e) issues) /\
  IssueIndex.all_ids (IssueIndex.init issues) = list_to_set (id <$> issues) /\
  IssueIndex.len (IssueIndex.init issues) = List.length issues.
Proof.
  intros Hnd.
  assert (Hby : IssueIndex._by_id (IssueIndex.init issues) = insert_all ∅ issues).
  { unfold IssueIndex.init. fold step. now rewrite index_fold_by_id. }
  assert (Hget : forall i, i ∈ issues -> insert_all ∅ issues !! id i = Some i).
  { intros i Hi. now apply insert_all_nodup. }
  unfold IssueIndex.get, IssueIndex.children_of, IssueIndex.all_ids, IssueIndex.len.
  rewrite Hby. split; [exact Hget|]. split; [|split; [|split]].
  - intros k Hk. now rewrite insert_all_other.
  - intros e. unfold IssueIndex.init. fold step. rewrite index_fold_children.
    cbn [IssueIndex._children]. rewrite lookup_empty. cbn [default app].
    apply omap_lookup_ids. intros i Hi. apply Hget.
    apply list_elem_of_In. apply list_elem_of_In in Hi. now apply List.filter_In in Hi as [Hi _].
  - rewrite dom_insert_all, dom_empty_L. set_solver.
  - rewrite <- size_dom, dom_insert_all, dom_empty_L, (left_id_L ∅ (∪)).
    rewrite size_list_to_set by exact Hnd. now rewrite length_fmap.
Qed.

End IndexFacts.

(** An epic and two stories, one of them under the epic. *)
Lemma index_finds_every_issue_witness :
  let issues := [lone_epic; plain_issue "STORY-2" [] (Some "EPIC-1") []; story_with_links] in
  IssueIndex.get (IssueIndex.init issues) "STORY-1" = Some story_with_links /\
  IssueIndex.children_of (IssueIndex.init issues) "EPIC-1"
    = [plain_issue "STORY-2" [] (Some "EPIC-1") []] /\
  IssueIndex.len (IssueIndex.init issues) = 3.
Proof.
  intros issues.
  destruct (index_finds_every_issue issues) as (Hget & _ & Hchildren & _ & Hlen).
  - apply (bool_decide_unpack _). vm_compute. exact I.
  - split; [|split; [|exact Hlen]].
    + apply (Hget story_with_links).
      do 2 apply list_elem_of_further. apply list_elem_of_here.
    + rewrite Hchildren. vm_compute. reflexivity.
Defined.
